(** * Masal Makinesi: the content-safety and response-validation pipeline

    A shallow embedding of the TypeScript sources of the pipeline
    (packages/prompts: guard.ts, storyPrompt.ts, validation.ts; packages/shared:
    types; apps/api: the story endpoint) together with the parts of the
    JavaScript runtime they call (strings, numbers, regular expressions,
    JSON.parse) and of the Zod schema library.

    Conventions.
    - A JavaScript string is the list of its UTF-16 code units ([jsstring]).
    - A JavaScript number is an IEEE 754 binary64 value ([float]).
    - [undefined] is [None]; a thrown exception is an explicit result. *)

From Stdlib Require Import String Ascii.
From Stdlib Require Import ZArith NArith List Bool Lia.
From Stdlib Require Import Floats.PrimFloat Floats.SpecFloat Floats.FloatOps.
From Stdlib Require Import Floats.FloatAxioms.
Import ListNotations.

Set Warnings "-inexact-float,-register-all".

(* ================================================================== *)
(** * The JavaScript runtime                                           *)
(* ================================================================== *)

Module JS.

Local Open Scope N_scope.

(** ** Strings *)

(** A string value: a finite sequence of 16-bit code units. *)
Definition jsstring := list N.

(** *** Literals

    String literals of the sources are written here as UTF-8 literals and
    decoded to UTF-16 code units by [u]. *)

Fixpoint utf8_code_points (bs : list N) : list N :=
  match bs with
  | [] => []
  | b0 :: r0 =>
      if b0 <? 0x80 then b0 :: utf8_code_points r0
      else if b0 <? 0xE0 then
        match r0 with
        | b1 :: r1 => ((b0 - 0xC0) * 0x40 + (b1 - 0x80)) :: utf8_code_points r1
        | _ => []
        end
      else if b0 <? 0xF0 then
        match r0 with
        | b1 :: b2 :: r2 =>
            ((b0 - 0xE0) * 0x1000 + (b1 - 0x80) * 0x40 + (b2 - 0x80))
              :: utf8_code_points r2
        | _ => []
        end
      else
        match r0 with
        | b1 :: b2 :: b3 :: r3 =>
            ((b0 - 0xF0) * 0x40000 + (b1 - 0x80) * 0x1000
             + (b2 - 0x80) * 0x40 + (b3 - 0x80))
              :: utf8_code_points r3
        | _ => []
        end
  end.

Definition utf16_units (cp : N) : list N :=
  if cp <? 0x10000 then [cp]
  else let c := cp - 0x10000 in [0xD800 + c / 0x400; 0xDC00 + c mod 0x400].

Definition u (s : string) : jsstring :=
  flat_map utf16_units
    (utf8_code_points (map N_of_ascii (list_ascii_of_string s))).

(** [q] is [u] for literals that contain double quotes: they are written
    with apostrophes, which [q] turns into U+0022. *)
Definition q (s : string) : jsstring :=
  map (fun c => if c =? 0x27 then 0x22 else c) (u s).

Definition LF : jsstring := [0x0A].

(** *** Comparison, search *)

Fixpoint String_eqb (s t : jsstring) : bool :=
  match s, t with
  | [], [] => true
  | c :: s', d :: t' => (c =? d) && String_eqb s' t'
  | _, _ => false
  end.

Fixpoint startsWith (s p : jsstring) : bool :=
  match p, s with
  | [], _ => true
  | c :: p', d :: s' => (c =? d) && startsWith s' p'
  | _ :: _, [] => false
  end.

(** [s.includes(sub)] *)
Fixpoint String_includes (s sub : jsstring) : bool :=
  startsWith s sub
  || match s with
     | [] => false
     | _ :: t => String_includes t sub
     end.

(** [arr.includes(x)] on an array of strings *)
Definition Array_includes (arr : list jsstring) (x : jsstring) : bool :=
  existsb (String_eqb x) arr.

(** [arr.join(sep)] *)
Fixpoint Array_join (sep : jsstring) (arr : list jsstring) : jsstring :=
  match arr with
  | [] => []
  | [s] => s
  | s :: rest => s ++ sep ++ Array_join sep rest
  end.

(** *** White space

    WhiteSpace and LineTerminator code units: what [\s] matches and what
    [trim] removes. *)
Definition isWhiteSpace (c : N) : bool :=
  ((0x09 <=? c) && (c <=? 0x0D)) || (c =? 0x20) || (c =? 0xA0)
  || (c =? 0x1680) || ((0x2000 <=? c) && (c <=? 0x200A))
  || (c =? 0x2028) || (c =? 0x2029) || (c =? 0x202F) || (c =? 0x205F)
  || (c =? 0x3000) || (c =? 0xFEFF).

Fixpoint trimStart (s : jsstring) : jsstring :=
  match s with
  | c :: t => if isWhiteSpace c then trimStart t else s
  | [] => []
  end.

Definition trimEnd (s : jsstring) : jsstring := rev (trimStart (rev s)).

Definition String_trim (s : jsstring) : jsstring := trimEnd (trimStart s).

(** *** Case conversion

    [toLowerCase] is exact on Basic Latin, Latin-1 Supplement and
    Latin Extended-A (the alphabets of the block list, the rules and the
    templates), and on the three characters outside these blocks whose lower
    case lies inside them; every other code unit is left unchanged. *)
Definition lowerUnit (c : N) : list N :=
  if (0x41 <=? c) && (c <=? 0x5A) then [c + 0x20]
  else if (0xC0 <=? c) && (c <=? 0xDE) && negb (c =? 0xD7) then [c + 0x20]
  else if c =? 0x130 then [0x69; 0x307]
  else if (0x100 <=? c) && (c <=? 0x137) && N.even c then [c + 1]
  else if (0x139 <=? c) && (c <=? 0x148) && N.odd c then [c + 1]
  else if (0x14A <=? c) && (c <=? 0x177) && N.even c then [c + 1]
  else if c =? 0x178 then [0xFF]
  else if (0x179 <=? c) && (c <=? 0x17E) && N.odd c then [c + 1]
  else if c =? 0x1E9E then [0xDF]
  else if c =? 0x212A then [0x6B]
  else if c =? 0x212B then [0xE5]
  else [c].

Definition toLowerCase (s : jsstring) : jsstring := flat_map lowerUnit s.

(** [Canonicalize] of the regular-expression semantics under the [i] flag
    (no [u] flag): the upper case of the unit when that is a single unit,
    except that a non-ASCII unit is never mapped to an ASCII one.  Exact on
    the same three blocks, identity elsewhere. *)
Definition Canonicalize (c : N) : N :=
  if (0x61 <=? c) && (c <=? 0x7A) then c - 0x20
  else if c =? 0xB5 then 0x39C
  else if (0xE0 <=? c) && (c <=? 0xFE) && negb (c =? 0xF7) then c - 0x20
  else if c =? 0xFF then 0x178
  else if (0x100 <=? c) && (c <=? 0x12F) && N.odd c then c - 1
  else if (0x132 <=? c) && (c <=? 0x137) && N.odd c then c - 1
  else if (0x139 <=? c) && (c <=? 0x148) && N.even c then c - 1
  else if (0x14A <=? c) && (c <=? 0x177) && N.odd c then c - 1
  else if (0x179 <=? c) && (c <=? 0x17E) && N.even c then c - 1
  else c.

(** ** Regular expressions

    A backtracking matcher in continuation-passing style, after the
    specification of the language (pattern semantics without the [u] flag).
    Only the constructs the sources use are represented. *)

Inductive regex : Type :=
| REmpty
| RChar (c : N)                      (* a pattern character *)
| RSet (ranges : list (N * N))       (* [...] , \w , \s *)
| RSeq (r1 r2 : regex)
| RAlt (r1 r2 : regex)               (* r1|r2 *)
| RGroup (i : nat) (r : regex)       (* the i-th capturing group *)
| RBackref (i : nat)                 (* \i *)
| RRepeat (min : nat) (r : regex)    (* greedy r{min,} ; r+ is r{1,} *)
| RWordBoundary.                     (* \b *)

Record RegExp : Type := mkRegExp {
  source : regex;
  global : bool;
  ignoreCase : bool
}.

Definition RStr (s : jsstring) : regex :=
  fold_right (fun c r => RSeq (RChar c) r) REmpty s.

Fixpoint RAlts (rs : list regex) : regex :=
  match rs with
  | [] => REmpty
  | [r] => r
  | r :: rest => RAlt r (RAlts rest)
  end.

Definition RPlus (r : regex) : regex := RRepeat 1 r.

Definition word_ranges : list (N * N) :=
  [(0x61, 0x7A); (0x41, 0x5A); (0x30, 0x39); (0x5F, 0x5F)].

Definition space_ranges : list (N * N) :=
  [(0x09, 0x0D); (0x20, 0x20); (0xA0, 0xA0); (0x1680, 0x1680);
   (0x2000, 0x200A); (0x2028, 0x2029); (0x202F, 0x202F); (0x205F, 0x205F);
   (0x3000, 0x3000); (0xFEFF, 0xFEFF)].

Definition RWord : regex := RSet word_ranges.
Definition RSpace : regex := RSet space_ranges.

Definition isWordChar (c : N) : bool :=
  existsb (fun r => (fst r <=? c) && (c <=? snd r)) word_ranges.

(** The state of a match: the unit before the current position, the input
    from the current position on, and the captures made so far. *)
Record MatchState : Type := mkState {
  prev : option N;
  rest : jsstring;
  caps : list (nat * jsstring)
}.

Definition get_cap (i : nat) (x : MatchState) : option jsstring :=
  option_map snd (find (fun c => Nat.eqb (fst c) i) (caps x)).

Definition set_cap (i : nat) (s : jsstring) (x : MatchState) : MatchState :=
  mkState (prev x) (rest x)
          ((i, s) :: filter (fun c => negb (Nat.eqb (fst c) i)) (caps x)).

Definition clear_caps (gs : list nat) (x : MatchState) : MatchState :=
  mkState (prev x) (rest x)
          (filter (fun c => negb (existsb (Nat.eqb (fst c)) gs)) (caps x)).

(** What was consumed between state [x] and a later state [y]. *)
Definition consumed (x y : MatchState) : jsstring :=
  firstn (length (rest x) - length (rest y)) (rest x).

Definition char_eq (ic : bool) (a ch : N) : bool :=
  if ic then Canonicalize a =? Canonicalize ch else a =? ch.

Definition range_members (r : N * N) : list N :=
  map (fun k => fst r + N.of_nat k) (seq 0 (N.to_nat (snd r + 1 - fst r))).

Definition set_mem (ic : bool) (ranges : list (N * N)) (ch : N) : bool :=
  if ic
  then existsb (fun r => existsb (fun a => Canonicalize a =? Canonicalize ch)
                                 (range_members r)) ranges
  else existsb (fun r => (fst r <=? ch) && (ch <=? snd r)) ranges.

Fixpoint match_prefix (ic : bool) (s : jsstring) (x : MatchState)
  : option MatchState :=
  match s with
  | [] => Some x
  | a :: s' =>
      match rest x with
      | ch :: t =>
          if char_eq ic a ch
          then match_prefix ic s' (mkState (Some ch) t (caps x))
          else None
      | [] => None
      end
  end.

Fixpoint groups_in (r : regex) : list nat :=
  match r with
  | RSeq r1 r2 | RAlt r1 r2 => groups_in r1 ++ groups_in r2
  | RGroup i r1 => i :: groups_in r1
  | RRepeat _ r1 => groups_in r1
  | _ => []
  end.

Definition opt_word (c : option N) : bool :=
  match c with
  | Some ch => isWordChar ch
  | None => false
  end.

Fixpoint rmatch (ic : bool) (r : regex) (k : MatchState -> option MatchState)
  (x : MatchState) {struct r} : option MatchState :=
  match r with
  | REmpty => k x
  | RChar a =>
      match rest x with
      | ch :: t =>
          if char_eq ic a ch then k (mkState (Some ch) t (caps x)) else None
      | [] => None
      end
  | RSet ranges =>
      match rest x with
      | ch :: t =>
          if set_mem ic ranges ch then k (mkState (Some ch) t (caps x))
          else None
      | [] => None
      end
  | RSeq r1 r2 => rmatch ic r1 (fun y => rmatch ic r2 k y) x
  | RAlt r1 r2 =>
      match rmatch ic r1 k x with
      | Some z => Some z
      | None => rmatch ic r2 k x
      end
  | RGroup i r1 => rmatch ic r1 (fun y => k (set_cap i (consumed x y) y)) x
  | RBackref i =>
      match get_cap i x with
      | None => k x
      | Some s =>
          match match_prefix ic s x with
          | Some y => k y
          | None => None
          end
      end
  | RRepeat min r1 =>
      let gs := groups_in r1 in
      (fix rep (fuel min : nat) (x : MatchState) {struct fuel}
         : option MatchState :=
         match fuel with
         | O => None
         | S fuel' =>
             let xr := clear_caps gs x in
             let d := fun y =>
               if Nat.eqb min 0 && Nat.eqb (length (rest y)) (length (rest x))
               then None
               else rep fuel' (Nat.pred min) y in
             match min with
             | O =>
                 match rmatch ic r1 d xr with
                 | Some z => Some z
                 | None => k x
                 end
             | S _ => rmatch ic r1 d xr
             end
         end) (min + length (rest x) + 1)%nat min x
  | RWordBoundary =>
      if xorb (opt_word (prev x)) (opt_word (hd_error (rest x)))
      then k x else None
  end.

(** One attempt at the current position. *)
Definition exec_here (re : RegExp) (p : option N) (s : jsstring)
  : option MatchState :=
  rmatch (ignoreCase re) (source re) Some (mkState p s []).

(** The leftmost match at or after the current position: the matched text
    and the state after it. *)
Fixpoint find_first (re : RegExp) (p : option N) (s : jsstring)
  : option (jsstring * MatchState) :=
  match exec_here re p s with
  | Some y => Some (consumed (mkState p s []) y, y)
  | None =>
      match s with
      | [] => None
      | c :: t => find_first re (Some c) t
      end
  end.

(** [re.test(s)] for a regular expression without the [g] flag. *)
Definition RegExp_test (re : RegExp) (s : jsstring) : bool :=
  match find_first re None s with
  | Some _ => true
  | None => false
  end.

(** All successive matches of a global regular expression; an empty match
    moves the search one unit forward. *)
Fixpoint match_all (re : RegExp) (fuel : nat) (p : option N) (s : jsstring)
  : list jsstring :=
  match fuel with
  | O => []
  | S fuel' =>
      match find_first re p s with
      | None => []
      | Some (matched, y) =>
          matched ::
            match matched, rest y with
            | [], [] => []
            | [], c :: t => match_all re fuel' (Some c) t
            | _ :: _, _ => match_all re fuel' (prev y) (rest y)
            end
      end
  end.

(** [s.match(re)]: [None] is [null].  With the [g] flag the result is the
    array of all matches; without it, the first match. *)
Definition String_match (s : jsstring) (re : RegExp)
  : option (list jsstring) :=
  if global re
  then match match_all re (S (length s)) None s with
       | [] => None
       | ms => Some ms
       end
  else option_map (fun r => [fst r]) (find_first re None s).

(** [s.split(re)] for a separator without capturing groups. *)
Fixpoint split_loop (re : RegExp) (fuel : nat) (p : option N)
  (piece : list N) (s : jsstring) : list jsstring :=
  match fuel with
  | O => []
  | S fuel' =>
      match s with
      | [] => [rev piece]
      | c :: t =>
          match exec_here re p s with
          | None => split_loop re fuel' (Some c) (c :: piece) t
          | Some y =>
              if Nat.eqb (length (rest y)) (length s)
              then match piece with
                   | [] => split_loop re fuel' (Some c) [c] t
                   | _ :: _ => rev piece :: split_loop re fuel' (Some c) [c] t
                   end
              else rev piece :: split_loop re fuel' (prev y) [] (rest y)
          end
      end
  end.

Definition String_split (s : jsstring) (re : RegExp) : list jsstring :=
  match s with
  | [] => match exec_here re None [] with
          | Some _ => []
          | None => [[]]
          end
  | _ :: _ => split_loop re (S (length s)) None [] s
  end.

End JS.

(* ================================================================== *)
(** * Numbers                                                          *)
(* ================================================================== *)

(** Number values are binary64 floats; conversions from integers and from
    decimal literals round to nearest, ties to even. *)

Module Num.

Import JS.
Local Open Scope Z_scope.

Definition Number_of_Z (z : Z) : float :=
  SF2Prim (binary_normalize prec emax z 0 false).

Definition Number_of_nat (n : nat) : float := Number_of_Z (Z.of_nat n).

(** The Number value of the decimal [(-1)^neg * m * 10^e10].  For a negative
    exponent the quotient is computed to more than 60 bits and a sticky bit
    records a non-zero remainder, so that the final rounding is exact. *)
Definition SF_of_decimal (neg : bool) (m : Z) (e10 : Z) : spec_float :=
  if m =? 0 then S754_zero neg
  else if 0 <=? e10
  then binary_normalize prec emax ((if neg then - m else m) * 10 ^ e10) 0 neg
  else
    let d := 10 ^ (- e10) in
    let k := Z.max 0 (64 + Z.log2 d - Z.log2 m) in
    let n := m * 2 ^ k in
    let mant := 2 * (n / d) + (if n mod d =? 0 then 0 else 1) in
    binary_normalize prec emax (if neg then - mant else mant) (- (k + 1)) neg.

Definition Number_of_decimal (neg : bool) (m : Z) (e10 : Z) : float :=
  SF2Prim (SF_of_decimal neg m e10).

(** [Number.isInteger(x)] *)
Definition Number_isInteger (x : float) : bool :=
  match Prim2SF x with
  | S754_zero _ => true
  | S754_finite _ m e =>
      if 0 <=? e then true else Z.pos m mod 2 ^ (- e) =? 0
  | _ => false
  end.

(** [Math.max(a, b)] *)
Definition Math_max (a b : float) : float :=
  if is_nan a || is_nan b then nan
  else if PrimFloat.ltb a b then b
  else if PrimFloat.ltb b a then a
  else if get_sign a then b else a.

(** *** Number to string (radix 10) *)

Definition digit_char (d : Z) : N := Z.to_N (0x30 + d).

Fixpoint uint_digits (d : Decimal.uint) : jsstring :=
  match d with
  | Decimal.Nil => []
  | Decimal.D0 r => 0x30%N :: uint_digits r
  | Decimal.D1 r => 0x31%N :: uint_digits r
  | Decimal.D2 r => 0x32%N :: uint_digits r
  | Decimal.D3 r => 0x33%N :: uint_digits r
  | Decimal.D4 r => 0x34%N :: uint_digits r
  | Decimal.D5 r => 0x35%N :: uint_digits r
  | Decimal.D6 r => 0x36%N :: uint_digits r
  | Decimal.D7 r => 0x37%N :: uint_digits r
  | Decimal.D8 r => 0x38%N :: uint_digits r
  | Decimal.D9 r => 0x39%N :: uint_digits r
  end.

(** The decimal digits of a non-negative integer. *)
Definition digits (z : Z) : jsstring := uint_digits (N.to_uint (Z.to_N z)).

(** [lt_pow10 P Q n]: is P/Q < 10^n ? *)
Definition lt_pow10 (P Q n : Z) : bool :=
  if 0 <=? n then P <? Q * 10 ^ n else P * 10 ^ (- n) <? Q.

Fixpoint first_above (fuel : nat) (P Q n : Z) : Z :=
  match fuel with
  | O => n
  | S f => if lt_pow10 P Q n then n else first_above f P Q (n + 1)
  end.

(** The [n] with [10^(n-1) <= P/Q < 10^n], for positive [P] and [Q].  The
    search starts from a lower bound obtained from the binary logarithms
    (log10 2 = 0.30103 to five places), which is at most 6 below [n]. *)
Definition decimal_exponent (P Q : Z) : Z :=
  first_above 10 P Q ((Z.log2 P - Z.log2 Q - 1) * 30103 / 100000 - 2).

(** The candidates with [k] significant digits around P/Q: the digits [s],
    the exponent [n], and the doubled distance to P/Q in units of
    [10^(n0-k) / (2*den)] (used only to compare the two candidates). *)
Definition candidates (P Q n0 : Z) (k : Z) : list (Z * Z * Z) :=
  let num := if 0 <=? k - n0 then P * 10 ^ (k - n0) else P in
  let den := if 0 <=? k - n0 then Q else Q * 10 ^ (n0 - k) in
  let lo := num / den in
  let r := num mod den in
  let hi := lo + 1 in
  let c_lo := (lo, n0, 2 * r) in
  let c_hi := if hi =? 10 ^ k then (10 ^ (k - 1), n0 + 1, 2 * (den - r))
              else (hi, n0, 2 * (den - r)) in
  if r =? 0 then [c_lo]
  else if 2 * r <? den then [c_lo; c_hi]
  else if den <? 2 * r then [c_hi; c_lo]
  else if Z.even lo then [c_lo; c_hi] else [c_hi; c_lo].

(** The shortest digit string that reads back as [x]: least [k] first, then
    the candidate closest to [x]. *)
Fixpoint shortest (fuel : nat) (x : float) (P Q n0 k : Z) : Z * Z * Z :=
  let ok := fun c : Z * Z * Z =>
    let '(s, n, _) := c in
    PrimFloat.eqb (Number_of_decimal false s (n - k)) x in
  match find ok (candidates P Q n0 k) with
  | Some (s, n, _) => (s, n, k)
  | None =>
      match fuel with
      | O => (P / Q, n0, k)
      | S f => shortest f x P Q n0 (k + 1)
      end
  end.

Definition zeros (n : Z) : jsstring := repeat 0x30%N (Z.to_nat n).

Definition format_number (s n k : Z) : jsstring :=
  let ds := digits s in
  if (k <=? n) && (n <=? 21) then ds ++ zeros (n - k)
  else if (0 <? n) && (n <=? 21)
  then firstn (Z.to_nat n) ds ++ u "." ++ skipn (Z.to_nat n) ds
  else if (-6 <? n) && (n <=? 0) then u "0." ++ zeros (- n) ++ ds
  else
    let e := n - 1 in
    let es := (if e <? 0 then u "-" else u "+") ++ digits (Z.abs e) in
    if k =? 1 then ds ++ u "e" ++ es
    else firstn 1 ds ++ u "." ++ skipn 1 ds ++ u "e" ++ es.

(** [x.toString()] and the conversion of template literals *)
Definition Number_toString (x : float) : jsstring :=
  match Prim2SF x with
  | S754_nan => u "NaN"
  | S754_zero _ => u "0"
  | S754_infinity s => (if s then u "-" else []) ++ u "Infinity"
  | S754_finite sg m e =>
      let P := if 0 <=? e then Z.pos m * 2 ^ e else Z.pos m in
      let Q := if 0 <=? e then 1 else 2 ^ (- e) in
      let '(s, n, k) :=
        shortest 17 (PrimFloat.abs x) P Q (decimal_exponent P Q) 1 in
      (if sg then u "-" else []) ++ format_number s n k
  end.

End Num.

(* ================================================================== *)
(** * JSON                                                             *)
(* ================================================================== *)

Module JSON.

Import JS Num.
Local Open Scope N_scope.

(** The values [JSON.parse] produces.  An object keeps its members in
    source order; a later member with the same key shadows an earlier one. *)
Inductive json : Type :=
| JNull
| JBool (b : bool)
| JNumber (x : float)
| JString (s : jsstring)
| JArray (items : list json)
| JObject (members : list (jsstring * json)).

(** Property read [o.key]: [None] is [undefined]. *)
Fixpoint lookup (key : jsstring) (members : list (jsstring * json))
  : option json :=
  match members with
  | [] => None
  | (k, v) :: rest =>
      match lookup key rest with
      | Some w => Some w
      | None => if String_eqb k key then Some v else None
      end
  end.

Definition get (key : jsstring) (v : json) : option json :=
  match v with
  | JObject members => lookup key members
  | _ => None
  end.

(** *** The parser *)

Definition is_json_ws (c : N) : bool :=
  (c =? 0x20) || (c =? 0x09) || (c =? 0x0A) || (c =? 0x0D).

Fixpoint skip_ws (s : jsstring) : jsstring :=
  match s with
  | c :: t => if is_json_ws c then skip_ws t else s
  | [] => []
  end.

Definition is_digit (c : N) : bool := (0x30 <=? c) && (c <=? 0x39).

Definition hex_value (c : N) : option N :=
  if is_digit c then Some (c - 0x30)
  else if (0x41 <=? c) && (c <=? 0x46) then Some (c - 0x41 + 10)
  else if (0x61 <=? c) && (c <=? 0x66) then Some (c - 0x61 + 10)
  else None.

Definition hex4 (a b c d : N) : option N :=
  match hex_value a, hex_value b, hex_value c, hex_value d with
  | Some x, Some y, Some z, Some w => Some (((x * 16 + y) * 16 + z) * 16 + w)
  | _, _, _, _ => None
  end.

(** The characters of a string literal after its opening quote. *)
Fixpoint parse_chars (s : jsstring) : option (jsstring * jsstring) :=
  match s with
  | [] => None
  | c :: t =>
      if c =? 0x22 then Some ([], t)
      else if c <? 0x20 then None
      else if c =? 0x5C then
        match t with
        | e :: t1 =>
            let simple := fun ch : N =>
              match parse_chars t1 with
              | Some (r, t2) => Some (ch :: r, t2)
              | None => None
              end in
            if e =? 0x22 then simple 0x22
            else if e =? 0x5C then simple 0x5C
            else if e =? 0x2F then simple 0x2F
            else if e =? 0x62 then simple 0x08
            else if e =? 0x66 then simple 0x0C
            else if e =? 0x6E then simple 0x0A
            else if e =? 0x72 then simple 0x0D
            else if e =? 0x74 then simple 0x09
            else if e =? 0x75 then
              match t1 with
              | a :: b :: c' :: d :: t2 =>
                  match hex4 a b c' d, parse_chars t2 with
                  | Some ch, Some (r, t3) => Some (ch :: r, t3)
                  | _, _ => None
                  end
              | _ => None
              end
            else None
        | [] => None
        end
      else
        match parse_chars t with
        | Some (r, t') => Some (c :: r, t')
        | None => None
        end
  end.

(** A run of digits: their value, how many there are, and the rest. *)
Fixpoint parse_digits (acc : Z) (n : Z) (s : jsstring) : Z * Z * jsstring :=
  match s with
  | c :: t =>
      if is_digit c
      then parse_digits (acc * 10 + Z.of_N (c - 0x30))%Z (n + 1)%Z t
      else (acc, n, s)
  | [] => (acc, n, s)
  end.

(** A number literal: an optional minus sign; a zero, or a non-zero digit
    and more digits; an optional fraction (a dot and one or more digits); an
    optional exponent (e or E, an optional sign, one or more digits). *)
Definition parse_number (s : jsstring) : option (float * jsstring) :=
  let '(neg, s1) :=
    match s with
    | 0x2D :: t => (true, t)
    | _ => (false, s)
    end in
  let int_part :=
    match s1 with
    | 0x30 :: t => Some (0%Z, t)
    | c :: _ =>
        if is_digit c
        then let '(v, _, t) := parse_digits 0 0 s1 in Some (v, t)
        else None
    | [] => None
    end in
  match int_part with
  | None => None
  | Some (ip, s2) =>
      let frac :=
        match s2 with
        | 0x2E :: t =>
            let '(v, n, t') := parse_digits ip 0 t in
            if (n =? 0)%Z then None else Some (v, n, t')
        | _ => Some (ip, 0%Z, s2)
        end in
      match frac with
      | None => None
      | Some (mant, nfrac, s3) =>
          let expo :=
            match s3 with
            | 0x65 :: t | 0x45 :: t =>
                let '(eneg, t1) :=
                  match t with
                  | 0x2D :: t' => (true, t')
                  | 0x2B :: t' => (false, t')
                  | _ => (false, t)
                  end in
                let '(v, n, t2) := parse_digits 0 0 t1 in
                if (n =? 0)%Z then None
                else Some ((if eneg then - v else v)%Z, t2)
            | _ => Some (0%Z, s3)
            end in
          match expo with
          | None => None
          | Some (e, s4) =>
              Some (Number_of_decimal neg mant (e - nfrac)%Z, s4)
          end
      end
  end.

Fixpoint parse_value (fuel : nat) (s : jsstring) {struct fuel}
  : option (json * jsstring) :=
  match fuel with
  | O => None
  | S f =>
      match skip_ws s with
      | 0x7B :: t =>
          match skip_ws t with
          | 0x7D :: t' => Some (JObject [], t')
          | _ =>
              match parse_members f t with
              | Some (ms, t') => Some (JObject ms, t')
              | None => None
              end
          end
      | 0x5B :: t =>
          match skip_ws t with
          | 0x5D :: t' => Some (JArray [], t')
          | _ =>
              match parse_elements f t with
              | Some (vs, t') => Some (JArray vs, t')
              | None => None
              end
          end
      | 0x22 :: t =>
          match parse_chars t with
          | Some (str, t') => Some (JString str, t')
          | None => None
          end
      | 0x74 :: 0x72 :: 0x75 :: 0x65 :: t => Some (JBool true, t)
      | 0x66 :: 0x61 :: 0x6C :: 0x73 :: 0x65 :: t => Some (JBool false, t)
      | 0x6E :: 0x75 :: 0x6C :: 0x6C :: t => Some (JNull, t)
      | s' =>
          match parse_number s' with
          | Some (x, t) => Some (JNumber x, t)
          | None => None
          end
      end
  end

with parse_elements (fuel : nat) (s : jsstring) {struct fuel}
  : option (list json * jsstring) :=
  match fuel with
  | O => None
  | S f =>
      match parse_value f s with
      | None => None
      | Some (v, t) =>
          match skip_ws t with
          | 0x2C :: t' =>
              match parse_elements f t' with
              | Some (vs, t'') => Some (v :: vs, t'')
              | None => None
              end
          | 0x5D :: t' => Some ([v], t')
          | _ => None
          end
      end
  end

with parse_members (fuel : nat) (s : jsstring) {struct fuel}
  : option (list (jsstring * json) * jsstring) :=
  match fuel with
  | O => None
  | S f =>
      match skip_ws s with
      | 0x22 :: t =>
          match parse_chars t with
          | None => None
          | Some (key, t1) =>
              match skip_ws t1 with
              | 0x3A :: t2 =>
                  match parse_value f t2 with
                  | None => None
                  | Some (v, t3) =>
                      match skip_ws t3 with
                      | 0x2C :: t4 =>
                          match parse_members f t4 with
                          | Some (ms, t5) => Some ((key, v) :: ms, t5)
                          | None => None
                          end
                      | 0x7D :: t4 => Some ([(key, v)], t4)
                      | _ => None
                      end
                  end
              | _ => None
              end
          end
      | _ => None
      end
  end.

(** [JSON.parse(text)]: [None] when a SyntaxError is thrown.  Every
    recursive call is made after at least one more unit of the text has been
    read by this call or its caller, so twice the length is enough fuel. *)
Definition JSON_parse (text : jsstring) : option json :=
  match parse_value (2 * length text + 2) text with
  | Some (v, t) =>
      match skip_ws t with
      | [] => Some v
      | _ :: _ => None
      end
  | None => None
  end.

End JSON.

(* ================================================================== *)
(** * packages/shared: types                                           *)
(* ================================================================== *)

Import JS Num JSON.

Inductive StoryTheme : Type :=
| ADVENTURE | FRIENDSHIP | LEARNING | FANTASY | ANIMALS | FAMILY | NATURE
| MUSIC.

Inductive StoryLength : Type := SHORT | MEDIUM | LONG.

(** The run-time value of an enum member. *)
Definition StoryTheme_value (t : StoryTheme) : jsstring :=
  match t with
  | ADVENTURE => u "adventure"
  | FRIENDSHIP => u "friendship"
  | LEARNING => u "learning"
  | FANTASY => u "fantasy"
  | ANIMALS => u "animals"
  | FAMILY => u "family"
  | NATURE => u "nature"
  | MUSIC => u "music"
  end.

Definition StoryLength_value (l : StoryLength) : jsstring :=
  match l with
  | SHORT => u "short"
  | MEDIUM => u "medium"
  | LONG => u "long"
  end.

(** [Object.values(StoryTheme)] and [Object.values(StoryLength)] *)
Definition StoryTheme_members : list StoryTheme :=
  [ADVENTURE; FRIENDSHIP; LEARNING; FANTASY; ANIMALS; FAMILY; NATURE; MUSIC].

Definition StoryLength_members : list StoryLength := [SHORT; MEDIUM; LONG].

(** The member whose value is the given run-time value, if there is one. *)
Definition StoryTheme_of (v : json) : option StoryTheme :=
  match v with
  | JString s =>
      find (fun t => String_eqb (StoryTheme_value t) s) StoryTheme_members
  | _ => None
  end.

Definition StoryLength_of (v : json) : option StoryLength :=
  match v with
  | JString s =>
      find (fun l => String_eqb (StoryLength_value l) s) StoryLength_members
  | _ => None
  end.

Module ValidationError.
Record t : Type := mk {
  field : jsstring;
  message : jsstring;
  code : jsstring
}.
End ValidationError.

Module SafetyCheckResult.
Record t : Type := mk {
  safe : bool;
  confidence : float;
  categories : list jsstring;
  blockedTerms : list jsstring
}.
End SafetyCheckResult.

Module StoryRequest.
Record t : Type := mk {
  childName : jsstring;
  age : float;
  theme : StoryTheme;
  length : StoryLength;
  elements : option (list jsstring);
  token : jsstring
}.
End StoryRequest.

Module Story.
Record t : Type := mk {
  id : jsstring;
  title : jsstring;
  content : jsstring;
  childName : jsstring;
  theme : StoryTheme;
  length : StoryLength;
  wordCount : float;
  createdAt : jsstring
}.
End Story.

Inductive Language : Type := TR | EN.

Module StoryMetadata.
Record t : Type := mk {
  generationTime : float;
  model : jsstring;
  safetyScore : float;
  language : Language;
  promptVersion : jsstring
}.
End StoryMetadata.

(* ================================================================== *)
(** * packages/prompts: guard.ts                                       *)
(* ================================================================== *)

Module Guard.

Inductive RuleType : Type := regex_rule | exact_rule | contains_rule.
Inductive Severity : Type := block | warn | flag.

Definition Severity_eqb (a b : Severity) : bool :=
  match a, b with
  | block, block | warn, warn | flag, flag => true
  | _, _ => false
  end.

Module GuardRule.
Record t : Type := mk {
  id : jsstring;
  description : jsstring;
  pattern : RegExp;
  type : RuleType;
  severity : Severity
}.
End GuardRule.

Module Config.
Record t : Type := mk {
  blockedTerms : list jsstring;
  patterns : list GuardRule.t;
  maxSensitiveReferences : float;
  enabledGuards : list jsstring
}.
End Config.

(** The result of one sub-check: [{ safe, issues, confidence }]. *)
Module Sub.
Record t : Type := mk {
  safe : bool;
  issues : list jsstring;
  confidence : float
}.
End Sub.

Definition DEFAULT_BLOCKED_TERMS : list jsstring := map u [
  (* Violence & Fear *)
  "şiddet"; "kan"; "ölüm"; "öldür"; "kavga"; "savaş"; "silah"; "bıçak";
  "korku"; "korkunç"; "dehşet"; "kabus"; "kötü rüya"; "canavar";
  (* Inappropriate Content *)
  "alkol"; "sigara"; "uyuşturucu"; "kumar"; "para"; "zengin"; "fakir";
  "yoksul"; "sınıf"; "ayrımcılık"; "nefret"; "öfke"; "kızgın";
  (* Adult Themes *)
  "aşk"; "sevgili"; "öpücük"; "evlilik"; "boşanma"; "cinsellik";
  "dokunma"; "gizli"; "yasak"; "mahrem"; "özel yer";
  (* Negative Emotions *)
  "nefret"; "iğrenç"; "tiksinti"; "acı"; "ağlama"; "gözyaşı";
  "üzüntü"; "depresyon"; "kaygı"; "stres"; "endişe";
  (* Religious/Political *)
  "din"; "tanrı"; "allah"; "dua"; "namaz"; "kilise"; "camii";
  "politika"; "hükümet"; "başkan"; "seçim"; "parti";
  (* Scary Creatures *)
  "şeytan"; "cin"; "hayalet"; "zombi"; "vampir"; "kurt adam";
  "cadı"; "büyücü"; "lanet"; "kara büyü"; "büyü"
]%string.

(** The set of the listed characters, as a character class. *)
Definition chars (s : jsstring) : list (N * N) := map (fun c => (c, c)) s.

Definition RSeqs (rs : list regex) : regex := fold_right RSeq REmpty rs.

Definition words (ws : list string) : regex :=
  RAlts (map (fun w => RStr (u w)) ws).

Definition DEFAULT_GUARD_RULES : list GuardRule.t := [
  (* /[A-ZÇĞıİÖŞÜ]{5,}/g *)
  GuardRule.mk (u "excessive_caps") (u "Excessive capital letters")
    (mkRegExp (RRepeat 5 (RSet ((0x41, 0x5A)%N :: chars (u "ÇĞıİÖŞÜ"))))
              true false)
    regex_rule warn;
  (* /\b(\w+)(\s+\1){2,}\b/gi *)
  GuardRule.mk (u "repetitive_words")
    (u "Repetitive words (same word 3+ times)")
    (mkRegExp (RSeqs [RWordBoundary;
                      RGroup 1 (RPlus RWord);
                      RRepeat 2 (RGroup 2 (RSeqs [RPlus RSpace; RBackref 1]));
                      RWordBoundary])
              true true)
    regex_rule warn;
  (* /(vurmak|dövmek|saldırmak|zarar|yaralamak|acı vermek)/gi *)
  GuardRule.mk (u "violence_keywords") (u "Violence-related keywords")
    (mkRegExp (RGroup 1 (words ["vurmak"; "dövmek"; "saldırmak"; "zarar";
                                "yaralamak"; "acı vermek"]%string))
              true true)
    regex_rule block;
  (* /(korkutucu|dehşetli|ürkütücü|karabasan|kâbus)/gi *)
  GuardRule.mk (u "fear_keywords") (u "Fear and scary content")
    (mkRegExp (RGroup 1 (words ["korkutucu"; "dehşetli"; "ürkütücü";
                                "karabasan"; "kâbus"]%string))
              true true)
    regex_rule block;
  (* /(dokunmak|ellemek|öpmek|sarılmak) (?:gizli|özel|yasak)/gi *)
  GuardRule.mk (u "inappropriate_contact")
    (u "Inappropriate physical contact")
    (mkRegExp (RSeqs [RGroup 1 (words ["dokunmak"; "ellemek"; "öpmek";
                                       "sarılmak"]%string);
                      RChar 0x20%N;
                      words ["gizli"; "özel"; "yasak"]%string])
              true true)
    regex_rule block;
  (* /(çok üzgün|çok korkuyor|çok ağlıyor|dehşete kapılmış)/gi *)
  GuardRule.mk (u "negative_emotions_excessive")
    (u "Excessive negative emotions")
    (mkRegExp (RGroup 1 (words ["çok üzgün"; "çok korkuyor"; "çok ağlıyor";
                                "dehşete kapılmış"]%string))
              true true)
    regex_rule warn
].

Definition DEFAULT_CONFIG : Config.t :=
  Config.mk DEFAULT_BLOCKED_TERMS DEFAULT_GUARD_RULES 1%float
    (map u ["blocked_terms"; "regex_patterns"; "length_check";
            "repetition_check"]%string).

(** [arr.length] as a Number, and its text in a template literal *)
Definition len {A} (l : list A) : float := Number_of_nat (length l).
Definition len_text {A} (l : list A) : jsstring := Number_toString (len l).

(** Checks for blocked terms *)
Definition checkBlockedTerms (content : jsstring) (blockedTerms : list jsstring)
  : Sub.t :=
  let lowerContent := toLowerCase content in
  let foundTerms :=
    filter (fun term => String_includes lowerContent (toLowerCase term))
           blockedTerms in
  Sub.mk
    (Nat.eqb (length foundTerms) 0)
    (map (fun term => u "Blocked term found: " ++ term) foundTerms)
    (if Nat.eqb (length foundTerms) 0 then 1.0
     else Math_max 0.1 (1 - len foundTerms * 0.3))%float.

(** The loop of [checkRegexPatterns]: the issues, and the number of
    blocking rules among them. *)
Fixpoint scanRules (content : jsstring) (patterns : list GuardRule.t)
  (issues : list jsstring) (blockingIssues : nat) : list jsstring * nat :=
  match patterns with
  | [] => (issues, blockingIssues)
  | rule :: more =>
      match String_match content (GuardRule.pattern rule) with
      | Some ((_ :: _) as matches) =>
          scanRules content more
            (issues ++ [GuardRule.description rule ++ u ": "
                        ++ len_text matches ++ u " matches found"])
            (if Severity_eqb (GuardRule.severity rule) block
             then S blockingIssues else blockingIssues)
      | _ => scanRules content more issues blockingIssues
      end
  end.

(** Checks regex patterns *)
Definition checkRegexPatterns (content : jsstring) (patterns : list GuardRule.t)
  : Sub.t :=
  let '(issues, blockingIssues) := scanRules content patterns [] 0 in
  Sub.mk
    (Nat.eqb blockingIssues 0)
    issues
    (if Nat.eqb blockingIssues 0
     then Math_max 0.5 (1 - len issues * 0.1)
     else 0.2)%float.

(** /\s+/ and /[.!?]+/ *)
Definition whitespace_run : RegExp := mkRegExp (RPlus RSpace) false false.
Definition sentence_end : RegExp :=
  mkRegExp (RPlus (RSet (chars (u ".!?")))) false false.

(** [content.split(/[.!?]+/).filter(s => s.trim().length > 0)] *)
Definition sentencesOf (content : jsstring) : list jsstring :=
  filter (fun s => Nat.ltb 0 (length (String_trim s)))
         (String_split content sentence_end).

(** Checks content length and basic quality *)
Definition checkContentLength (content : jsstring) : Sub.t :=
  let wordCount := length (String_split content whitespace_run) in
  let issues :=
    (if Nat.ltb wordCount 50 then [u "Content too short"] else [])
    ++ (if Nat.ltb 1000 wordCount then [u "Content too long"] else [])
    ++ (if Nat.ltb (length (sentencesOf content)) 3
        then [u "Content lacks proper structure"] else []) in
  Sub.mk
    (Nat.eqb (length issues) 0)
    issues
    (if Nat.eqb (length issues) 0 then 0.9
     else Math_max 0.3 (1 - len issues * 0.2))%float.

(** *** The counting object of [checkRepetition]

    [wordCount] is an ordinary object used as a map from words to counts,
    so reads see the properties inherited from [Object.prototype]:
    - for an inherited method name the first [wordCount[word] || 0] reads a
      function, and [+ 1] makes a text of it; the entry never holds a number;
    - an assignment of such a text to [__proto__] is ignored: no entry.
    [Object.entries] lists array-index keys first, in ascending order, then
    the other keys in insertion order. *)

Inductive Count : Type :=
| Counted (n : nat)
| NotNumeric.

Definition Object_prototype_methods : list jsstring := map u [
  "constructor"; "__defineGetter__"; "__defineSetter__"; "hasOwnProperty";
  "__lookupGetter__"; "__lookupSetter__"; "isPrototypeOf";
  "propertyIsEnumerable"; "toString"; "valueOf"; "toLocaleString"
]%string.

Fixpoint increment (word : jsstring) (table : list (jsstring * Count))
  : list (jsstring * Count) :=
  match table with
  | [] =>
      [(word, if Array_includes Object_prototype_methods word
              then NotNumeric else Counted 1)]
  | (k, c) :: rest =>
      if String_eqb k word
      then (k, match c with
               | Counted n => Counted (S n)
               | NotNumeric => NotNumeric
               end) :: rest
      else (k, c) :: increment word rest
  end.

(** [wordCount[word] = (wordCount[word] || 0) + 1] *)
Definition countWord (word : jsstring) (table : list (jsstring * Count))
  : list (jsstring * Count) :=
  if String_eqb word (u "__proto__") then table else increment word table.

(** The array index a key denotes, if it is one. *)
Definition array_index (key : jsstring) : option Z :=
  match key with
  | [] => None
  | c :: t =>
      if forallb JSON.is_digit key && (negb (N.eqb c 0x30) || Nat.eqb (length t) 0)
      then let '(v, _, _) := JSON.parse_digits 0 0 key in
           if (v <? 4294967295)%Z then Some v else None
      else None
  end.

Fixpoint insert_by_index {A} (e : Z * A) (l : list (Z * A)) : list (Z * A) :=
  match l with
  | [] => [e]
  | x :: rest =>
      if (fst e <? fst x)%Z then e :: l else x :: insert_by_index e rest
  end.

(** [Object.entries(table)] *)
Definition Object_entries {A} (table : list (jsstring * A))
  : list (jsstring * A) :=
  let indexed :=
    fold_left (fun acc e =>
                 match array_index (fst e) with
                 | Some i => insert_by_index (i, e) acc
                 | None => acc
                 end) table [] in
  map snd indexed
  ++ filter (fun e => match array_index (fst e) with
                      | Some _ => false
                      | None => true
                      end) table.

(** The counting loop shared by [checkRepetition] and, in validation.ts,
    [calculateRepetitionScore]: only words longer than 3 units are counted. *)
Definition countWords_over3 (words : list jsstring)
  : list (jsstring * Count) :=
  fold_left (fun table word =>
               if Nat.ltb 3 (length word) then countWord word table
               else table) words [].

(** Checks for excessive repetition *)
Definition checkRepetition (content : jsstring) : Sub.t :=
  let words := String_split (toLowerCase content) whitespace_run in
  let wordCount := countWords_over3 words in
  let totalWords := len words in
  let issues :=
    flat_map (fun e : jsstring * Count =>
                match snd e with
                | Counted count =>
                    let frequency := (Number_of_nat count / totalWords)%float in
                    if PrimFloat.ltb 0.1 frequency && Nat.ltb 5 count
                    then [u "Excessive repetition of word: " ++ fst e]
                    else []
                | NotNumeric => []
                end) (Object_entries wordCount) in
  Sub.mk
    (Nat.eqb (length issues) 0)
    issues
    (if Nat.eqb (length issues) 0 then 0.8
     else Math_max 0.4 (1 - len issues * 0.15))%float.

(** [set.add(x)] on a Set kept in insertion order *)
Definition Set_add (x : jsstring) (set : list jsstring) : list jsstring :=
  if Array_includes set x then set else set ++ [x].

(** Extracts categories from issues *)
Definition extractCategories (issues : list jsstring) : list jsstring :=
  fold_left
    (fun categories issue =>
       let c1 := if String_includes issue (u "Blocked term")
                 then Set_add (u "inappropriate_content") categories
                 else categories in
       let c2 := if String_includes issue (u "violence")
                 then Set_add (u "violence") c1 else c1 in
       let c3 := if String_includes issue (u "fear")
                    || String_includes issue (u "scary")
                 then Set_add (u "fear") c2 else c2 in
       let c4 := if String_includes issue (u "repetition")
                 then Set_add (u "quality_issues") c3 else c3 in
       if String_includes issue (u "length")
          || String_includes issue (u "structure")
       then Set_add (u "format_issues") c4 else c4)
    issues [].

(** Extracts actual blocked terms found in content *)
Definition extractBlockedTerms (content : jsstring)
  (blockedTerms : list jsstring) : list jsstring :=
  let lowerContent := toLowerCase content in
  filter (fun term => String_includes lowerContent (toLowerCase term))
         blockedTerms.

(** The sub-checks that the configuration enables, in the order in which
    [checkContentSafety] pushes them. *)
Definition runGuards (content : jsstring) (config : Config.t) : list Sub.t :=
  let enabled := Array_includes (Config.enabledGuards config) in
  (if enabled (u "blocked_terms")
   then [checkBlockedTerms content (Config.blockedTerms config)] else [])
  ++ (if enabled (u "regex_patterns")
      then [checkRegexPatterns content (Config.patterns config)] else [])
  ++ (if enabled (u "length_check") then [checkContentLength content] else [])
  ++ (if enabled (u "repetition_check") then [checkRepetition content]
      else []).

(** Main content guard function *)
Definition checkContentSafety (content : jsstring) (config : Config.t)
  : SafetyCheckResult.t :=
  let results := runGuards content config in
  let allSafe := forallb Sub.safe results in
  let averageConfidence :=
    (fold_left (fun sum r => sum + Sub.confidence r) results 0
     / len results)%float in
  let allIssues := flat_map Sub.issues results in
  SafetyCheckResult.mk
    allSafe
    averageConfidence
    (extractCategories allIssues)
    (extractBlockedTerms content (Config.blockedTerms config)).

(** Pre-checks user input before sending to AI *)
Definition preCheckUserInput (input : jsstring) : SafetyCheckResult.t :=
  let simpleConfig :=
    Config.mk
      DEFAULT_BLOCKED_TERMS
      (filter (fun rule => Severity_eqb (GuardRule.severity rule) block)
              DEFAULT_GUARD_RULES)
      0%float
      (map u ["blocked_terms"; "regex_patterns"]%string) in
  checkContentSafety input simpleConfig.

(** Quick safety check for basic content filtering *)
Definition quickSafetyCheck (content : jsstring) : bool :=
  SafetyCheckResult.safe (checkContentSafety content DEFAULT_CONFIG).

End Guard.

(* ================================================================== *)
(** * packages/prompts: storyPrompt.ts                                 *)
(* ================================================================== *)

Module StoryPrompt.

(** [s.replace(pattern, replacement)] with a string pattern: the first
    occurrence is replaced, and [$$], [$&], [$`] and [$'] in the replacement
    are expanded. *)
Fixpoint GetSubstitution (matched before after replacement : jsstring)
  : jsstring :=
  match replacement with
  | 0x24%N :: 0x24%N :: t =>
      0x24%N :: GetSubstitution matched before after t
  | 0x24%N :: 0x26%N :: t => matched ++ GetSubstitution matched before after t
  | 0x24%N :: 0x60%N :: t => before ++ GetSubstitution matched before after t
  | 0x24%N :: 0x27%N :: t => after ++ GetSubstitution matched before after t
  | c :: t => c :: GetSubstitution matched before after t
  | [] => []
  end.

Fixpoint find_split (s pat before_rev : jsstring)
  : option (jsstring * jsstring) :=
  if startsWith s pat then Some (rev before_rev, skipn (length pat) s)
  else match s with
       | [] => None
       | c :: t => find_split t pat (c :: before_rev)
       end.

Definition String_replace (s pat replacement : jsstring) : jsstring :=
  match find_split s pat [] with
  | Some (before, after) =>
      before ++ GetSubstitution pat before after replacement ++ after
  | None => s
  end.

Inductive Complexity : Type := simple | moderate | advanced.

Module LengthSpec.
Record t : Type := mk {
  wordCount : float;
  range : float * float;
  complexity : Complexity
}.
End LengthSpec.

Module PromptTemplate.
Record t : Type := mk {
  version : jsstring;
  basePrompt : jsstring;
  ageModifiers : list (jsstring * jsstring);
  themePrompts : StoryTheme -> jsstring;
  lengthSpecs : StoryLength -> LengthSpec.t;
  safetyInstructions : jsstring
}.
End PromptTemplate.

Definition lines (ls : list string) : jsstring := Array_join LF (map u ls).

Definition DEFAULT_TEMPLATE : PromptTemplate.t :=
  PromptTemplate.mk
    (u "1.0.0")
    (lines [
       "Sen bir çocuk masalı yazarısın. {childName} adında {age} yaşında bir çocuk için kişiselleştirilmiş bir masal yaz.";
       EmptyString;
       "Gereksinimler:";
       "- Masal Türkçe olmalı";
       "- Çocuğun yaşına uygun olmalı";
       "- {length} uzunlukta olmalı";
       "- {theme} teması işlenmeli";
       "- Pozitif ve eğitici mesajlar içermeli";
       "- Şiddet, korku veya uygunsuz içerik olmamalı"
     ]%string)
    [ (u "3-5", u "Çok basit kelimeler kullan, tekrarlar yap, renkler ve sesler ekle.");
      (u "6-8", u "Basit kelimeler kullan, kısa cümleler yaz, hayal gücünü geliştir.");
      (u "9-12", u "Orta seviye kelimeler kullan, daha karmaşık hikaye yapısı kur.");
      (u "13+", u "Zengin kelime dağarcığı kullan, derin karakterler oluştur.") ]
    (fun theme =>
       match theme with
       | ADVENTURE => u "Keşif ve macera dolu bir hikaye anlat. Cesaret ve azmi vurgula."
       | FRIENDSHIP => u "Dostluk, paylaşım ve yardımlaşma konularını işle."
       | LEARNING => u "Öğrenme ve merak konularını eğlenceli şekilde anlat."
       | FANTASY => u "Büyülü kreatürler ve fantastik dünyalar kur."
       | ANIMALS => u "Hayvanlar ve doğa ile ilgili hikaye anlat."
       | FAMILY => u "Aile değerleri ve sevgiyi vurgula."
       | NATURE => u "Doğa sevgisi ve çevre bilincini işle."
       | MUSIC => u "Müzik ve ritim konularını eğlenceli şekilde kur."
       end)
    (fun length =>
       match length with
       | SHORT => LengthSpec.mk 150 (100, 200)%float simple
       | MEDIUM => LengthSpec.mk 300 (200, 400)%float moderate
       | LONG => LengthSpec.mk 500 (400, 600)%float advanced
       end)
    (lines [
       "GÜVENLIK KURALLARI:";
       "- Şiddet, korku veya travma içeren içerik yazma";
       "- Uygunsuz kelimeler veya kavramlar kullanma";
       "- Aile için güvenli ve pozitif mesajlar ver";
       "- Çocuğun yaş grubuna uygun içerik üret"
     ]%string).

(** Gets age group category *)
Definition getAgeGroup (age : float) : jsstring :=
  if PrimFloat.leb age 5 then u "3-5"
  else if PrimFloat.leb age 8 then u "6-8"
  else if PrimFloat.leb age 12 then u "9-12"
  else u "13+".

(** Gets human-readable length description *)
Definition getLengthDescription (length : StoryLength) (spec : LengthSpec.t)
  : jsstring :=
  let descriptions :=
    match length with
    | SHORT => u "kısa"
    | MEDIUM => u "orta uzunlukta"
    | LONG => u "uzun"
    end in
  descriptions ++ u " (yaklaşık "
  ++ Number_toString (LengthSpec.wordCount spec) ++ u " kelime)".

(** [record[key]] on a record of texts: [None] is [undefined]. *)
Fixpoint Record_get (key : jsstring) (record : list (jsstring * jsstring))
  : option jsstring :=
  match record with
  | [] => None
  | (k, v) :: more =>
      match Record_get key more with
      | Some w => Some w
      | None => if String_eqb k key then Some v else None
      end
  end.

(** Builds AI prompt from story request *)
Definition buildStoryPrompt (request : StoryRequest.t)
  (template : PromptTemplate.t) : jsstring :=
  let ageGroup := getAgeGroup (StoryRequest.age request) in
  let lengthSpec :=
    PromptTemplate.lengthSpecs template (StoryRequest.length request) in
  let themePrompt :=
    PromptTemplate.themePrompts template (StoryRequest.theme request) in
  let ageModifier := Record_get ageGroup (PromptTemplate.ageModifiers template) in
  let prompt0 :=
    String_replace
      (String_replace
         (String_replace
            (String_replace (PromptTemplate.basePrompt template)
               (u "{childName}") (StoryRequest.childName request))
            (u "{age}") (Number_toString (StoryRequest.age request)))
         (u "{length}")
         (getLengthDescription (StoryRequest.length request) lengthSpec))
      (u "{theme}") themePrompt in
  (* Add age-specific instructions *)
  let prompt1 :=
    match ageModifier with
    | Some ((_ :: _) as modifier) =>
        prompt0 ++ LF ++ LF ++ u "Yaş grubu özel talimatları: " ++ modifier
    | _ => prompt0
    end in
  (* Add custom elements if provided *)
  let prompt2 :=
    match StoryRequest.elements request with
    | Some ((_ :: _) as elements) =>
        prompt1 ++ LF ++ LF ++ u "Hikayede bu öğeleri de dahil et: "
        ++ Array_join (u ", ") elements
    | _ => prompt1
    end in
  (* Add length specification *)
  let prompt3 :=
    prompt2 ++ LF ++ LF ++ u "Hikaye uzunluğu: "
    ++ Number_toString (LengthSpec.wordCount lengthSpec)
    ++ u " kelime civarında ("
    ++ Number_toString (fst (LengthSpec.range lengthSpec)) ++ u "-"
    ++ Number_toString (snd (LengthSpec.range lengthSpec))
    ++ u " kelime arası)." in
  (* Add safety instructions *)
  let prompt4 :=
    prompt3 ++ LF ++ LF ++ PromptTemplate.safetyInstructions template in
  (* Add JSON format requirement *)
  prompt4 ++ LF ++ LF
  ++ Array_join LF [
       u "Cevabını şu JSON formatında ver:";
       u "{";
       q "    'title': 'Hikaye başlığı',";
       q "    'content': 'Hikaye içeriği',";
       q "    'wordCount': kelime_sayısı,";
       q "    'theme': '" ++ StoryTheme_value (StoryRequest.theme request)
         ++ q "',";
       q "    'language': 'tr'";
       u "}"
     ].

(** Creates a retry prompt with adjusted temperature *)
Definition buildRetryPrompt (originalRequest : StoryRequest.t)
  (previousError : jsstring) : jsstring :=
  let basePrompt := buildStoryPrompt originalRequest DEFAULT_TEMPLATE in
  basePrompt ++ LF ++ LF
  ++ u "ÖNCEKI HATA: " ++ previousError ++ LF ++ LF
  ++ u "Bu hatayı düzelterek, geçerli JSON formatında cevap ver. Daha dikkatli ol ve format kurallarına uy.".

(** Validates prompt length and complexity *)
Definition validatePrompt (prompt : jsstring) : bool * list jsstring :=
  let errors :=
    (if Nat.ltb (length prompt) 100 then [u "Prompt çok kısa"] else [])
    ++ (if Nat.ltb 2000 (length prompt) then [u "Prompt çok uzun"] else [])
    ++ (if negb (String_includes prompt (u "JSON"))
        then [u "JSON format gereksinimi eksik"] else [])
    ++ (if negb (String_includes prompt (u "çocuk"))
           && negb (String_includes prompt (u "masal"))
        then [u "Temel hikaye elemanları eksik"] else []) in
  (Nat.eqb (length errors) 0, errors).

End StoryPrompt.

(* ================================================================== *)
(** * The schema library (Zod 3), as far as [StoryResponseSchema] uses it *)
(* ================================================================== *)

Module Zod.

Module ZodIssue.
Record t : Type := mk {
  path : list jsstring;
  message : jsstring
}.
End ZodIssue.

(** The name of the type of a value, as error messages print it. *)
Definition parsedType (v : option json) : jsstring :=
  match v with
  | None => u "undefined"
  | Some JNull => u "null"
  | Some (JBool _) => u "boolean"
  | Some (JNumber x) => if is_nan x then u "nan" else u "number"
  | Some (JString _) => u "string"
  | Some (JArray _) => u "array"
  | Some (JObject _) => u "object"
  end.

(** The default message of an [invalid_type] issue. *)
Definition invalid_type (path : list jsstring) (expected : jsstring)
  (v : option json) : ZodIssue.t :=
  ZodIssue.mk path
    (match v with
     | None => u "Required"
     | Some _ => u "Expected " ++ expected ++ u ", received " ++ parsedType v
     end).

(** [z.string().min(lo, mMin).max(hi, mMax).refine(v => v.trim().length > 0,
    mBlank)]: a value that is not a string aborts with one issue; on a string
    every failed check adds an issue, and the refinement runs even when a
    length check has failed. *)
Definition parseString (path : list jsstring) (lo hi : nat)
  (mMin mMax mBlank : jsstring) (v : option json)
  : option jsstring * list ZodIssue.t :=
  match v with
  | Some (JString s) =>
      (Some s,
       (if Nat.ltb (length s) lo then [ZodIssue.mk path mMin] else [])
       ++ (if Nat.ltb hi (length s) then [ZodIssue.mk path mMax] else [])
       ++ (if Nat.ltb 0 (length (String_trim s)) then []
           else [ZodIssue.mk path mBlank]))
  | _ => (None, [invalid_type path (u "string") v])
  end.

(** [z.number().min(lo, mMin).max(hi, mMax).int(mInt)] *)
Definition parseNumber (path : list jsstring) (lo hi : float)
  (mMin mMax mInt : jsstring) (v : option json)
  : option float * list ZodIssue.t :=
  match v with
  | Some (JNumber x) =>
      if is_nan x then (None, [invalid_type path (u "number") v])
      else
        (Some x,
         (if PrimFloat.ltb x lo then [ZodIssue.mk path mMin] else [])
         ++ (if PrimFloat.ltb hi x then [ZodIssue.mk path mMax] else [])
         ++ (if Number_isInteger x then [] else [ZodIssue.mk path mInt]))
  | _ => (None, [invalid_type path (u "number") v])
  end.

(** [z.nativeEnum(E, { errorMap })] and [z.enum([...], { errorMap })]:
    every issue carries the message of the error map. *)
Definition parseEnum {E} (path : list jsstring) (member : json -> option E)
  (m : jsstring) (v : option json) : option E * list ZodIssue.t :=
  match v with
  | Some w =>
      match member w with
      | Some e => (Some e, [])
      | None => (None, [ZodIssue.mk path m])
      end
  | None => (None, [ZodIssue.mk path m])
  end.

End Zod.

(* ================================================================== *)
(** * packages/prompts: validation.ts                                  *)
(* ================================================================== *)

Module Validation.

Import Zod.

Definition Language_of (v : json) : option Language :=
  match v with
  | JString s =>
      if String_eqb s (u "tr") then Some TR
      else if String_eqb s (u "en") then Some EN
      else None
  | _ => None
  end.

Module ValidatedStoryResponse.
Record t : Type := mk {
  title : jsstring;
  content : jsstring;
  wordCount : float;
  theme : StoryTheme;
  language : Language
}.
End ValidatedStoryResponse.

(** The checks of [StoryResponseSchema], field by field in the order of the
    shape; each yields the typed value (when the type is right) and its
    issues. *)
Definition schema_title (v : option json) :=
  parseString [u "title"] 5 100
    (u "Başlık çok kısa") (u "Başlık çok uzun") (u "Başlık boş olamaz") v.

Definition schema_content (v : option json) :=
  parseString [u "content"] 50 3000
    (u "İçerik çok kısa (minimum 50 karakter)")
    (u "İçerik çok uzun (maksimum 3000 karakter)")
    (u "İçerik boş olamaz") v.

Definition schema_wordCount (v : option json) :=
  parseNumber [u "wordCount"] 50 800
    (u "Kelime sayısı çok az") (u "Kelime sayısı çok fazla")
    (u "Kelime sayısı tam sayı olmalı") v.

Definition schema_theme (v : option json) :=
  parseEnum [u "theme"] StoryTheme_of (u "Geçersiz tema") v.

Definition schema_language (v : option json) :=
  parseEnum [u "language"] Language_of
    (u "Dil Türkçe (tr) veya İngilizce (en) olmalı") v.

(** [StoryResponseSchema.safeParse(data)]: the typed data, or the issues. *)
Definition safeParse (data : json)
  : ValidatedStoryResponse.t + list ZodIssue.t :=
  match data with
  | JObject _ =>
      let '(title, i1) := schema_title (get (u "title") data) in
      let '(content, i2) := schema_content (get (u "content") data) in
      let '(wordCount, i3) := schema_wordCount (get (u "wordCount") data) in
      let '(theme, i4) := schema_theme (get (u "theme") data) in
      let '(language, i5) := schema_language (get (u "language") data) in
      match i1 ++ i2 ++ i3 ++ i4 ++ i5,
            title, content, wordCount, theme, language with
      | [], Some t, Some c, Some w, Some th, Some l =>
          inl (ValidatedStoryResponse.mk t c w th l)
      | issues, _, _, _, _, _ => inr issues
      end
  | _ => inr [invalid_type [] (u "object") (Some data)]
  end.

Module QualityThresholds.
Record t : Type := mk {
  minCoherence : float;
  minReadability : float;
  maxRepetition : float
}.
End QualityThresholds.

Module ValidationConfig.
Record t : Type := mk {
  minWordCount : float;
  maxWordCount : float;
  requiredFields : list jsstring;
  schemaRules : list (jsstring * json);
  qualityThresholds : QualityThresholds.t
}.
End ValidationConfig.

Definition DEFAULT_VALIDATION_CONFIG : ValidationConfig.t :=
  ValidationConfig.mk 50 800
    (map u ["title"; "content"; "wordCount"; "theme"; "language"]%string)
    []
    (QualityThresholds.mk 0.7 0.6 0.3).

(** The error codes *)
Definition INVALID_JSON := u "INVALID_JSON".
Definition SCHEMA_VALIDATION_ERROR := u "SCHEMA_VALIDATION_ERROR".
Definition CONTENT_SAFETY_FAILED := u "CONTENT_SAFETY_FAILED".
Definition WORD_COUNT_MISMATCH := u "WORD_COUNT_MISMATCH".
Definition INSUFFICIENT_STRUCTURE := u "INSUFFICIENT_STRUCTURE".
Definition EXCESSIVE_REPETITION := u "EXCESSIVE_REPETITION".
Definition NOT_STORY_FORMAT := u "NOT_STORY_FORMAT".
Definition NO_TURKISH_CHARACTERS := u "NO_TURKISH_CHARACTERS".
Definition NOT_TURKISH_LANGUAGE := u "NOT_TURKISH_LANGUAGE".
Definition MISSING_CHILD_NAME := u "MISSING_CHILD_NAME".
Definition INVALID_AGE := u "INVALID_AGE".
Definition INVALID_THEME := u "INVALID_THEME".
Definition INVALID_LENGTH := u "INVALID_LENGTH".

(** Calculates repetition score (0-1, higher = more repetitive).  When the
    counting object holds an entry that is not a number, the sum of the
    values is a text and the score is NaN. *)
Definition calculateRepetitionScore (content : jsstring) : float :=
  let words := String_split (toLowerCase content) Guard.whitespace_run in
  let wordCounts := map snd (Guard.countWords_over3 words) in
  let numeric c := match c with
                   | Guard.Counted _ => true
                   | Guard.NotNumeric => false
                   end in
  let value c := match c with
                 | Guard.Counted n => n
                 | Guard.NotNumeric => O
                 end in
  if forallb numeric wordCounts
  then
    let totalMeaningfulWords :=
      Number_of_nat (fold_left (fun sum c => (sum + value c)%nat) wordCounts O) in
    let repeatedWords :=
      length (filter (fun c => Nat.ltb 2 (value c)) wordCounts) in
    (Number_of_nat repeatedWords / Math_max 1 totalMeaningfulWords)%float
  else nan.

(** Counts words in content *)
Definition countWords (content : jsstring) : nat :=
  length (filter (fun word => Nat.ltb 0 (length word))
                 (String_split (String_trim content) Guard.whitespace_run)).

(** Gets expected word count range for story length.  (The [default] branch
    of the source is not reached for a member of the enum.) *)
Definition getExpectedWordCountRange (length : StoryLength) : nat * nat :=
  match length with
  | SHORT => (80, 220)
  | MEDIUM => (180, 420)
  | LONG => (350, 650)
  end.

(** The patterns of the quality and language checks: the class of the
    quotation marks U+0022, U+0027 and U+201E; /dedi|söyledi|sordu|yanıtladı/;
    /[çğıİöşüÇĞÖŞÜ]/. *)
Definition quote_marks : RegExp :=
  mkRegExp (RSet (Guard.chars (0x22 :: 0x27 :: u "„")%N)) false false.
Definition reporting_verbs : RegExp :=
  mkRegExp (Guard.words ["dedi"; "söyledi"; "sordu"; "yanıtladı"]%string)
           false false.
Definition turkishCharPattern : RegExp :=
  mkRegExp (RSet (Guard.chars (u "çğıİöşüÇĞÖŞÜ"))) false false.

(** Validates content quality *)
Definition validateContentQuality (content : jsstring)
  (config : ValidationConfig.t) : list ValidationError.t :=
  let sentences := Guard.sentencesOf content in
  let repetitionScore := calculateRepetitionScore content in
  let hasDialogue :=
    RegExp_test quote_marks content
    || RegExp_test reporting_verbs (toLowerCase content) in
  let hasNarrative :=
    Nat.ltb 5 (length (String_split content Guard.sentence_end)) in
  (if Nat.ltb (length sentences) 3
   then [ValidationError.mk (u "content")
           (u "İçerik yeterli cümle yapısına sahip değil")
           INSUFFICIENT_STRUCTURE]
   else [])
  ++ (if PrimFloat.ltb
           (QualityThresholds.maxRepetition
              (ValidationConfig.qualityThresholds config))
           repetitionScore
      then [ValidationError.mk (u "content")
              (u "İçerikte aşırı tekrar var") EXCESSIVE_REPETITION]
      else [])
  ++ (if negb hasDialogue && negb hasNarrative
      then [ValidationError.mk (u "content")
              (u "İçerik hikaye formatında değil") NOT_STORY_FORMAT]
      else []).

(** Validates Turkish language content *)
Definition validateTurkishContent (content : jsstring)
  : list ValidationError.t :=
  let commonTurkishWords :=
    map u ["bir"; "ve"; "bu"; "o"; "da"; "de"; "ile"; "için"; "var";
           "olan"]%string in
  let lowerContent := toLowerCase content in
  let foundTurkishWords :=
    filter (fun word => String_includes lowerContent word)
           commonTurkishWords in
  (if negb (RegExp_test turkishCharPattern content)
   then [ValidationError.mk (u "content")
           (u "İçerik Türkçe karakterler içermiyor") NO_TURKISH_CHARACTERS]
   else [])
  ++ (if Nat.ltb (length foundTurkishWords) 3
      then [ValidationError.mk (u "content")
              (u "İçerik Türkçe dilinde görünmüyor") NOT_TURKISH_LANGUAGE]
      else []).

Module ValidationResult.
Record t : Type := mk {
  valid : bool;
  data : option ValidatedStoryResponse.t;
  errors : list ValidationError.t
}.
End ValidationResult.

(** The ValidationError made from a schema issue:
    [field: err.path.join('.') || 'unknown'] *)
Definition schemaError (err : ZodIssue.t) : ValidationError.t :=
  ValidationError.mk
    (match Array_join (u ".") (ZodIssue.path err) with
     | [] => u "unknown"
     | (_ :: _) as joined => joined
     end)
    (ZodIssue.message err)
    SCHEMA_VALIDATION_ERROR.

(** Steps 3 to 6 of [validateStoryResponse], on data that passed the
    schema. *)
Definition contentErrors (data : ValidatedStoryResponse.t)
  (expectedLength : StoryLength) (config : ValidationConfig.t)
  : list ValidationError.t :=
  let content := ValidatedStoryResponse.content data in
  (* Step 3: Content safety check *)
  let safetyResult := Guard.checkContentSafety content Guard.DEFAULT_CONFIG in
  (* Step 4: Word count validation *)
  let actualWordCount := countWords content in
  let expectedRange := getExpectedWordCountRange expectedLength in
  (if negb (SafetyCheckResult.safe safetyResult)
   then [ValidationError.mk (u "content")
           (u "İçerik güvenlik kontrolünden geçemedi: "
            ++ Array_join (u ", ") (SafetyCheckResult.categories safetyResult))
           CONTENT_SAFETY_FAILED]
   else [])
  ++ (if Nat.ltb actualWordCount (fst expectedRange)
         || Nat.ltb (snd expectedRange) actualWordCount
      then [ValidationError.mk (u "wordCount")
              (u "Kelime sayısı beklenen aralıkta değil. Beklenen: "
               ++ Number_toString (Number_of_nat (fst expectedRange)) ++ u "-"
               ++ Number_toString (Number_of_nat (snd expectedRange))
               ++ u ", Gerçek: "
               ++ Number_toString (Number_of_nat actualWordCount))
              WORD_COUNT_MISMATCH]
      else [])
  (* Step 5: Content quality checks *)
  ++ validateContentQuality content config
  (* Step 6: Turkish language validation *)
  ++ validateTurkishContent content.

(** Main validation function for AI responses *)
Definition validateStoryResponse (rawResponse : jsstring)
  (expectedLength : StoryLength) (config : ValidationConfig.t)
  : ValidationResult.t :=
  (* Step 1: Try to parse JSON *)
  match JSON_parse rawResponse with
  | None =>
      ValidationResult.mk false None
        [ValidationError.mk (u "response") (u "Geçersiz JSON formatı")
           INVALID_JSON]
  | Some parsedData =>
      (* Step 2: Validate against Zod schema *)
      match safeParse parsedData with
      | inr issues => ValidationResult.mk false None (map schemaError issues)
      | inl data =>
          let errors := contentErrors data expectedLength config in
          ValidationResult.mk
            (Nat.eqb (length errors) 0)
            (if Nat.eqb (length errors) 0 then Some data else None)
            errors
      end
  end.

(** Quick JSON validation without full content checks:
    [{ valid, data, error }] *)
Definition quickValidateJSON (rawResponse : jsstring)
  : bool * option ValidatedStoryResponse.t * option jsstring :=
  match JSON_parse rawResponse with
  | Some data =>
      match safeParse data with
      | inl d => (true, Some d, None)
      | inr issues => (false, None, option_map ZodIssue.message (hd_error issues))
      end
  | None => (false, None, Some (u "Invalid JSON format"))
  end.

(** Creates validation error for retry scenarios *)
Definition createRetryValidationError (errors : list ValidationError.t)
  : jsstring :=
  let errorMessages :=
    map (fun err => ValidationError.field err ++ u ": "
                    ++ ValidationError.message err) errors in
  u "Validation failed with " ++ Guard.len_text errors ++ u " error(s):"
  ++ LF ++ Array_join LF errorMessages.

(** Checks if error is recoverable for retry *)
Definition isRecoverableError (errors : list ValidationError.t) : bool :=
  let recoverableCodes :=
    [INVALID_JSON; WORD_COUNT_MISMATCH; INSUFFICIENT_STRUCTURE;
     NOT_STORY_FORMAT] in
  existsb (fun error => Array_includes recoverableCodes
                          (ValidationError.code error)) errors.

(** [!v]: is the value falsy? *)
Definition falsy (v : option json) : bool :=
  match v with
  | None | Some JNull => true
  | Some (JBool b) => negb b
  | Some (JNumber x) => is_zero x || is_nan x
  | Some (JString s) => Nat.eqb (length s) 0
  | Some (JArray _) | Some (JObject _) => false
  end.

(** The reads [request.childName], [request.age], [request.theme] and
    [request.length] on a request body: the outer [None] is the TypeError
    of a read on [null]. *)
Definition property (request : json) (key : jsstring)
  : option (option json) :=
  match request with
  | JNull => None
  | JObject members => Some (lookup key members)
  | JString s =>
      Some (if String_eqb key (u "length")
            then Some (JNumber (Guard.len s)) else None)
  | JArray items =>
      Some (if String_eqb key (u "length")
            then Some (JNumber (Guard.len items)) else None)
  | JBool _ | JNumber _ => Some None
  end.

(** [typeof v] *)
Definition typeof (v : option json) : jsstring :=
  match v with
  | None => u "undefined"
  | Some (JBool _) => u "boolean"
  | Some (JNumber _) => u "number"
  | Some (JString _) => u "string"
  | Some JNull | Some (JArray _) | Some (JObject _) => u "object"
  end.

(** [values.includes(v)] for an array of strings and any value *)
Definition includes_value (values : list jsstring) (v : option json) : bool :=
  match v with
  | Some (JString s) => Array_includes values s
  | _ => false
  end.

(** The four conditions of [validateUserRequest]; the last disjunct of the
    first two is evaluated only on a string, respectively on a number. *)
Definition childName_rejected (v : option json) : bool :=
  falsy v
  || negb (String_eqb (typeof v) (u "string"))
  || match v with
     | Some (JString s) => Nat.eqb (length (String_trim s)) 0
     | _ => false
     end.

Definition age_rejected (v : option json) : bool :=
  falsy v
  || negb (String_eqb (typeof v) (u "number"))
  || match v with
     | Some (JNumber x) => PrimFloat.ltb x 3 || PrimFloat.ltb 18 x
     | _ => false
     end.

Definition theme_rejected (v : option json) : bool :=
  negb (includes_value (map StoryTheme_value StoryTheme_members) v).

Definition length_rejected (v : option json) : bool :=
  negb (includes_value (map StoryLength_value StoryLength_members) v).

(** Pre-validates user request before processing.  [None]: the reads throw
    (the request is [null]). *)
Definition validateUserRequest (request : json)
  : option (bool * list ValidationError.t) :=
  match property request (u "childName"), property request (u "age"),
        property request (u "theme"), property request (u "length") with
  | Some childName, Some age, Some theme, Some length_ =>
      let errors :=
        (if childName_rejected childName
         then [ValidationError.mk (u "childName") (u "Çocuk adı gerekli")
                 MISSING_CHILD_NAME]
         else [])
        ++ (if age_rejected age
            then [ValidationError.mk (u "age") (u "Yaş 3-18 arasında olmalı")
                    INVALID_AGE]
            else [])
        ++ (if theme_rejected theme
            then [ValidationError.mk (u "theme") (u "Geçersiz hikaye teması")
                    INVALID_THEME]
            else [])
        ++ (if length_rejected length_
            then [ValidationError.mk (u "length")
                    (u "Geçersiz hikaye uzunluğu") INVALID_LENGTH]
            else []) in
      Some (Nat.eqb (length errors) 0, errors)
  | _, _, _, _ => None
  end.

End Validation.

(* ================================================================== *)
(** * apps/api: the story endpoint                                     *)
(* ================================================================== *)

Module StoryApi.

Import Validation.

Module SafetyRating.
Record t : Type := mk {
  category : jsstring;
  probability : jsstring
}.
End SafetyRating.

Module GeminiResponse.
Record t : Type := mk {
  content : jsstring;
  finishReason : jsstring;
  safetyRatings : list SafetyRating.t
}.
End GeminiResponse.

(** The outcome of awaiting [gemini.generateStory(prompt, attempt)]: the
    response, or the message of the error it threw. *)
Inductive Outcome : Type :=
| Resolved (response : GeminiResponse.t)
| Rejected (message : jsstring).

(** The generation collaborator.  One run calls it at most once with a given
    attempt number, so a function of the call is as general as an external
    service. *)
Definition Gemini : Type := jsstring -> nat -> Outcome.

(** Calculates safety score from Gemini safety ratings *)
Definition calculateSafetyScore (safetyRatings : list SafetyRating.t)
  : float :=
  match safetyRatings with
  | [] => 0.8%float
  | _ :: _ =>
      let safeCategories :=
        filter (fun rating =>
                  String_eqb (SafetyRating.probability rating) (u "NEGLIGIBLE")
                  || String_eqb (SafetyRating.probability rating) (u "LOW"))
               safetyRatings in
      (Guard.len safeCategories / Guard.len safetyRatings)%float
  end.

Module Generation.
Record t : Type := mk {
  success : bool;
  story : option Story.t;
  metadata : option StoryMetadata.t;
  error : option jsstring
}.
End Generation.

(** A call of the generator: the prompt and the attempt number. *)
Definition Call : Type := (jsstring * nat)%type.

(** What is returned after the loop. *)
Definition failed (lastError : jsstring) : Generation.t :=
  Generation.mk false None None
    (Some (u "Story generation failed after 2 attempts: " ++ lastError)).

(** Puts a call in front of the calls of the rest of a run. *)
Definition after (call : Call) (run : Generation.t * list Call)
  : Generation.t * list Call :=
  (fst run, call :: snd run).

(** The loop [for (let attempt = 0; attempt < 2; attempt++)] from the given
    attempt on, with [remaining = 2 - attempt] iterations left.  The state
    threaded through is [lastError]; the calls of the generator are
    recorded in order. *)
Fixpoint attempts (gemini : Gemini) (request : StoryRequest.t)
  (remaining attempt : nat) (lastError : jsstring) {struct remaining}
  : Generation.t * list Call :=
  match remaining with
  | O => (failed lastError, [])
  | S remaining' =>
      let prompt :=
        if Nat.eqb attempt 0
        then StoryPrompt.buildStoryPrompt request StoryPrompt.DEFAULT_TEMPLATE
        else StoryPrompt.buildRetryPrompt request lastError in
      match gemini prompt attempt with
      | Rejected message =>
          after (prompt, attempt)
            (attempts gemini request remaining' (S attempt) message)
      | Resolved geminiResponse =>
          (* Validate AI response *)
          let validation :=
            validateStoryResponse (GeminiResponse.content geminiResponse)
              (StoryRequest.length request) DEFAULT_VALIDATION_CONFIG in
          match ValidationResult.valid validation,
                ValidationResult.data validation with
          | true, Some data =>
              let story :=
                Story.mk [] (* Will be set later *)
                  (ValidatedStoryResponse.title data)
                  (ValidatedStoryResponse.content data)
                  (StoryRequest.childName request)
                  (StoryRequest.theme request)
                  (StoryRequest.length request)
                  (ValidatedStoryResponse.wordCount data)
                  [] (* Will be set later *) in
              let metadata :=
                StoryMetadata.mk 0 (* Will be calculated later *)
                  (u "gemini-pro")
                  (calculateSafetyScore
                     (GeminiResponse.safetyRatings geminiResponse))
                  (ValidatedStoryResponse.language data)
                  (u "1.0.0") in
              (Generation.mk true (Some story) (Some metadata) None,
               [(prompt, attempt)])
          | _, _ =>
              let lastError' :=
                Array_join (u ", ")
                  (map ValidationError.message
                       (ValidationResult.errors validation)) in
              if negb (isRecoverableError (ValidationResult.errors validation))
              then (* Don't retry if error is not recoverable *)
                (failed lastError', [(prompt, attempt)])
              else
                after (prompt, attempt)
                  (attempts gemini request remaining' (S attempt) lastError')
          end
      end
  end.

(** Generates story with retry logic.  [gemini] is the client that
    [createGeminiClient()] returned. *)
Definition generateStoryWithRetry (gemini : Gemini) (request : StoryRequest.t)
  : Generation.t * list Call :=
  attempts gemini request 2 0 [].

End StoryApi.

(* ================================================================== *)
(** * The services of the API                                          *)
(* ================================================================== *)

(** The variables of [process.env] that the sources read: [None] is a
    variable that is not set. *)
Module Env.
Record t : Type := mk {
  GEMINI_API_KEY : option jsstring;
  SUPABASE_URL : option jsstring;
  SUPABASE_ANON_KEY : option jsstring;
  JWT_SECRET : option jsstring
}.

(** [Boolean(v)] on a variable: set and not empty. *)
Definition truthy (v : option jsstring) : bool :=
  match v with
  | Some (_ :: _) => true
  | _ => false
  end.
End Env.

(** ** apps/api/src/lib/gemini.ts *)

Module GeminiClient.

Import StoryApi.

Module GeminiConfig.
Record t : Type := mk {
  apiKey : jsstring;
  model : jsstring;
  temperature : float;
  maxOutputTokens : float
}.
End GeminiConfig.

Module GenerationConfig.
Record t : Type := mk {
  temperature : float;
  maxOutputTokens : float
}.
End GenerationConfig.

(** The argument of [getGenerativeModel]. *)
Module ModelParams.
Record t : Type := mk {
  model : jsstring;
  generationConfig : option GenerationConfig.t;
  safetySettings : list (jsstring * jsstring)
}.
End ModelParams.

Module Candidate.
Record t : Type := mk {
  finishReason : option jsstring;
  safetyRatings : option (list SafetyRating.t)
}.
End Candidate.

(** What [generateContent] and the reading of its response come to: the
    text and the candidates of the response, or an error thrown on the way,
    with its [message] when it has one. *)
Inductive Generated : Type :=
| Answered (text : jsstring) (candidates : option (list Candidate.t))
| Threw (message : option jsstring).

(** The generative model of the library, a collaborator. *)
Definition Sdk : Type := ModelParams.t -> jsstring -> Generated.

Definition safetySettings : list (jsstring * jsstring) :=
  map (fun category => (u category, u "BLOCK_MEDIUM_AND_ABOVE"))
      ["HARM_CATEGORY_HARASSMENT"; "HARM_CATEGORY_HATE_SPEECH";
       "HARM_CATEGORY_SEXUALLY_EXPLICIT";
       "HARM_CATEGORY_DANGEROUS_CONTENT"]%string.

(** [message?.includes(word)] *)
Definition mentions (message : option jsstring) (word : jsstring) : bool :=
  match message with
  | Some text => String_includes text word
  | None => false
  end.

(** Generates story content from prompt *)
Definition generateStory (config : GeminiConfig.t) (sdk : Sdk)
  (prompt : jsstring) (retryCount : nat) : Outcome :=
  let model :=
    ModelParams.mk (GeminiConfig.model config)
      (Some (GenerationConfig.mk
               (if Nat.ltb 0 retryCount then 0.7%float (* Lower temp for retry *)
                else GeminiConfig.temperature config)
               (GeminiConfig.maxOutputTokens config)))
      safetySettings in
  match sdk model prompt with
  | Answered text candidates =>
      let first :=
        match candidates with
        | Some (candidate :: _) => Some candidate
        | _ => None
        end in
      Resolved
        (GeminiResponse.mk text
           (match first with
            | Some candidate =>
                match Candidate.finishReason candidate with
                | Some ((_ :: _) as reason) => reason
                | _ => u "STOP"
                end
            | None => u "STOP"
            end)
           (match first with
            | Some candidate =>
                match Candidate.safetyRatings candidate with
                | Some ratings => ratings
                | None => []
                end
            | None => []
            end))
  | Threw message =>
      (* Handle specific error cases *)
      if mentions message (u "SAFETY")
      then Rejected (u "Content was blocked by safety filters")
      else if mentions message (u "QUOTA")
      then Rejected (u "API quota exceeded")
      else Rejected (u "AI generation failed: "
                     ++ match message with
                        | Some text => text
                        | None => u "undefined"
                        end)
  end.

(** [toUpperCase], exact on Basic Latin, Latin-1 Supplement and Latin
    Extended-A; every other code unit is left unchanged. *)
Local Open Scope N_scope.

Definition upperUnit (c : N) : list N :=
  if (0x61 <=? c) && (c <=? 0x7A) then [c - 0x20]
  else if c =? 0xB5 then [0x39C]
  else if c =? 0xDF then [0x53; 0x53]
  else if (0xE0 <=? c) && (c <=? 0xFE) && negb (c =? 0xF7) then [c - 0x20]
  else if c =? 0xFF then [0x178]
  else if (0x100 <=? c) && (c <=? 0x12F) && N.odd c then [c - 1]
  else if c =? 0x131 then [0x49]
  else if (0x132 <=? c) && (c <=? 0x137) && N.odd c then [c - 1]
  else if (0x139 <=? c) && (c <=? 0x148) && N.even c then [c - 1]
  else if c =? 0x149 then [0x2BC; 0x4E]
  else if (0x14A <=? c) && (c <=? 0x177) && N.odd c then [c - 1]
  else if (0x179 <=? c) && (c <=? 0x17E) && N.even c then [c - 1]
  else if c =? 0x17F then [0x53]
  else [c].

Local Close Scope N_scope.

Definition toUpperCase (s : jsstring) : jsstring := flat_map upperUnit s.

(** The [prompt] of [checkContentSafety]. *)
Definition safetyPrompt (content : jsstring) : jsstring :=
  q "Bu içerik çocuklar için güvenli mi? Sadece 'GÜVENLI' veya 'GÜVENLI DEĞİL' yanıtı ver: '"
  ++ content ++ q "'".

(** Pre-checks content with safety filters *)
Definition checkContentSafety (sdk : Sdk) (content : jsstring) : bool :=
  let model := ModelParams.mk (u "gemini-pro") None [] in
  let prompt := safetyPrompt content in
  match sdk model prompt with
  | Answered response _ =>
      let text := toUpperCase response in
      String_includes text (u "GÜVENLI")
      && negb (String_includes text (u "GÜVENLI DEĞİL"))
  | Threw _ => false (* Conservative approach *)
  end.

(** Creates Gemini client from environment variables: [None] when it
    throws.  [construct apiKey] tells whether [new GoogleGenerativeAI(apiKey)]
    of the library, called by the constructor of the client, returns. *)
Definition createGeminiClient (construct : jsstring -> bool) (env : Env.t)
  : option GeminiConfig.t :=
  match Env.GEMINI_API_KEY env with
  | Some ((_ :: _) as apiKey) =>
      if construct apiKey
      then Some (GeminiConfig.mk apiKey (u "gemini-pro") 0.9 1024)
      else None
  | _ => None
  end.

(** Validates Gemini API configuration *)
Definition validateGeminiConfig (env : Env.t) : bool :=
  Env.truthy (Env.GEMINI_API_KEY env).

End GeminiClient.

(** ** apps/api/src/lib/auth.ts *)

Module Auth.

Module AuthPayload.
Record t : Type := mk {
  userId : jsstring;
  email : jsstring;
  iat : float;
  exp : float
}.
End AuthPayload.

(** [s.split(' ')]: the pieces between the spaces. *)
Fixpoint split_at_spaces (piece : list N) (s : jsstring) : list jsstring :=
  match s with
  | [] => [rev piece]
  | c :: t =>
      if (c =? 0x20)%N then rev piece :: split_at_spaces [] t
      else split_at_spaces (c :: piece) t
  end.

(** [jwt.verify(token, secret)], a collaborator: [None] when it throws. *)
Definition Verifier : Type := jsstring -> jsstring -> option AuthPayload.t.

(** JWT Authentication Middleware *)
Definition authenticateToken (verify : Verifier) (env : Env.t)
  (authorization : option jsstring) : option AuthPayload.t :=
  let token :=
    match authorization with
    | Some ((_ :: _) as authHeader) =>
        nth_error (split_at_spaces [] authHeader) 1 (* Bearer TOKEN *)
    | _ => None
    end in
  match token with
  | Some ((_ :: _) as token) =>
      match Env.JWT_SECRET env with
      | Some ((_ :: _) as jwtSecret) => verify token jwtSecret
      | _ => None
      end
  | _ => None
  end.

End Auth.

(** ** apps/api/src/lib/supabase.ts *)

Module Supabase.

(** What the counting query comes to: the [count] of the answer, which may
    be [null]; the [error] of the answer; or an exception. *)
Inductive CountOutcome : Type :=
| CountAnswer (count : option nat)
| CountError
| CountThrew.

(** Gets user story count for rate limiting *)
Definition getUserStoryCount (answer : CountOutcome) : nat :=
  match answer with
  | CountAnswer (Some count) => count
  | CountAnswer None => 0
  | CountError => 0
  | CountThrew => 0
  end.

(** Creates Supabase client from environment variables: does it return?
    [createClient url key] tells whether [createClient] of the library,
    called by the constructor of the service, returns. *)
Definition createSupabaseService (createClient : jsstring -> jsstring -> bool)
  (env : Env.t) : bool :=
  match Env.SUPABASE_URL env, Env.SUPABASE_ANON_KEY env with
  | Some ((_ :: _) as supabaseUrl), Some ((_ :: _) as supabaseKey) =>
      createClient supabaseUrl supabaseKey
  | _, _ => false
  end.

(** Validates Supabase configuration *)
Definition validateSupabaseConfig (env : Env.t) : bool :=
  Env.truthy (Env.SUPABASE_URL env) && Env.truthy (Env.SUPABASE_ANON_KEY env).

End Supabase.

(** ** apps/api/src/api/health.ts *)

Module Health.

(** The reply: the status, [success] and, on a GET, [status]. *)
Definition handler (env : Env.t) (method : jsstring)
  : nat * bool * option jsstring :=
  if negb (String_eqb method (u "GET")) then (405, false, None)
  else
    (* the third check, the timestamp, is a string and counts as healthy *)
    let allHealthy :=
      forallb (fun check => check)
        [GeminiClient.validateGeminiConfig env;
         Supabase.validateSupabaseConfig env; true] in
    (if allHealthy then 200 else 503, allHealthy,
     Some (if allHealthy then u "healthy" else u "degraded")).

End Health.

(** ** apps/api/src/api/story.ts: the endpoint *)

Module StoryHandler.

Import Validation StoryApi.

(** All the texts, when every item has one. *)
Fixpoint all_texts (items : list (option jsstring))
  : option (list jsstring) :=
  match items with
  | [] => Some []
  | Some text :: more => option_map (cons text) (all_texts more)
  | None :: _ => None
  end.

(** The text that [join] makes of an item of an array; [None] is a
    TypeError.  [null] gives the empty text.  An array is joined with
    commas by its own [toString].  An object is [[object Object]] by the
    [toString] it inherits; when it has a member [toString] of its own,
    which in parsed JSON is never a function, the conversion finds no
    method that gives a primitive value and throws. *)
Fixpoint item_text (v : json) : option jsstring :=
  match v with
  | JNull => Some []
  | JBool true => Some (u "true")
  | JBool false => Some (u "false")
  | JNumber x => Some (Number_toString x)
  | JString s => Some s
  | JArray items =>
      option_map (Array_join (u ",")) (all_texts (map item_text items))
  | JObject members =>
      match lookup (u "toString") members with
      | Some _ => None
      | None => Some (u "[object Object]")
      end
  end.

(** [storyRequest.elements] as the handler and the prompt use it: the texts
    of the items of an array; nothing for [undefined] and [null]; the outer
    [None] is the TypeError of [elements?.join], on a value that is not an
    array or on an item that has no text. *)
Definition elements_of (v : option json)
  : option (option (list jsstring)) :=
  match v with
  | None | Some JNull => Some None
  | Some (JArray items) => option_map Some (all_texts (map item_text items))
  | Some _ => None
  end.

(** The body as a StoryRequest, for a body that [validateUserRequest]
    accepts. *)
Definition storyRequest_of (body : json) : option StoryRequest.t :=
  match get (u "childName") body, get (u "age") body,
        get (u "theme") body, get (u "length") body,
        elements_of (get (u "elements") body) with
  | Some (JString childName), Some (JNumber age), Some theme, Some length_,
    Some elements =>
      match StoryTheme_of theme, StoryLength_of length_ with
      | Some theme, Some length_ =>
          Some (StoryRequest.mk childName age theme length_ elements
                  (match get (u "token") body with
                   | Some (JString token) => token
                   | _ => []
                   end))
      | _, _ => None
      end
  | _, _, _, _, _ => None
  end.

(** The services and the clock of one request. *)
Module World.
Record t : Type := mk {
  env : Env.t;
  verify : Auth.Verifier;
  countStories : jsstring -> Supabase.CountOutcome;
  sdk : GeminiClient.Sdk;
  (* do createClient(url, key) and new GoogleGenerativeAI(apiKey) return? *)
  createClient : jsstring -> jsstring -> bool;
  newGenerativeAI : jsstring -> bool;
  (* does the insert of [storeStory] succeed? *)
  insert : Story.t -> jsstring -> StoryMetadata.t -> bool;
  (* generateStoryId(), new Date().toISOString(), Date.now() - startTime *)
  storyId : jsstring;
  createdAt : jsstring;
  elapsed : float
}.
End World.

Inductive Details : Type :=
| NoDetails
| ValidationErrors (errors : list ValidationError.t)
| Categories (categories : list jsstring).

(** The replies: [res.status(200).end()]; a reply with [success: false];
    the reply with the story. *)
Inductive Reply : Type :=
| Ended (status : nat)
| Failed (status : nat) (error : option jsstring) (details : Details)
| Succeeded (story : Story.t) (metadata : StoryMetadata.t).

(** A row stored by [storeStory]. *)
Definition Row : Type := (Story.t * jsstring * StoryMetadata.t)%type.

Module Handled.
Record t : Type := mk {
  reply : Reply;
  calls : list Call;      (* the calls of the generator *)
  stored : list Row       (* the rows stored *)
}.
End Handled.

(** The reply of the [catch] of the handler; its [details], the message of
    the error in development, is not represented. *)
Definition internalError : Reply :=
  Failed 500 (Some (u "Internal server error")) NoDetails.

(** Main Story Generation API Endpoint, POST /api/story.  An absent body
    behaves as [null]; the three CORS headers, set on every reply, are not
    represented. *)
Definition handler (world : World.t) (method : jsstring)
  (authorization : option jsstring) (body : json) : Handled.t :=
  if String_eqb method (u "OPTIONS") then Handled.mk (Ended 200) [] []
  else if negb (String_eqb method (u "POST"))
  then Handled.mk (Failed 405 (Some (u "Method not allowed")) NoDetails) [] []
  else
    (* Step 1: Authenticate user *)
    match Auth.authenticateToken (World.verify world) (World.env world)
            authorization with
    | None =>
        Handled.mk
          (Failed 401 (Some (u "Authentication required")) NoDetails) [] []
    | Some authPayload =>
        (* Step 2: Validate request body *)
        match validateUserRequest body with
        | None => Handled.mk internalError [] []
        | Some (false, errors) =>
            Handled.mk
              (Failed 400 (Some (u "Invalid request"))
                 (ValidationErrors errors)) [] []
        | Some (true, _) =>
            match storyRequest_of body with
            | None => Handled.mk internalError [] []
            | Some storyRequest =>
                (* Step 3: Pre-check user input for safety *)
                let inputSafetyCheck :=
                  Guard.preCheckUserInput
                    (StoryRequest.childName storyRequest ++ u " "
                     ++ match StoryRequest.elements storyRequest with
                        | Some elements => Array_join (u " ") elements
                        | None => []
                        end) in
                if negb (SafetyCheckResult.safe inputSafetyCheck)
                then
                  Handled.mk
                    (Failed 400
                       (Some (u "Input contains inappropriate content"))
                       (Categories
                          (SafetyCheckResult.categories inputSafetyCheck)))
                    [] []
                else
                  (* Step 4: Check rate limiting *)
                  if negb (Supabase.createSupabaseService
                             (World.createClient world) (World.env world))
                  then Handled.mk internalError [] []
                  else
                    let storyCount :=
                      Supabase.getUserStoryCount
                        (World.countStories world
                           (Auth.AuthPayload.userId authPayload)) in
                    if Nat.leb 10 storyCount (* 10 stories per day limit *)
                    then
                      Handled.mk
                        (Failed 429 (Some (u "Daily story limit reached"))
                           NoDetails) [] []
                    else
                      (* Step 5: Generate story *)
                      match GeminiClient.createGeminiClient
                              (World.newGenerativeAI world)
                              (World.env world) with
                      | None => Handled.mk internalError [] []
                      | Some config =>
                          let run :=
                            generateStoryWithRetry
                              (GeminiClient.generateStory config
                                 (World.sdk world))
                              storyRequest in
                          let storyResult := fst run in
                          if negb (Generation.success storyResult)
                          then
                            Handled.mk
                              (Failed 500 (Generation.error storyResult)
                                 NoDetails) (snd run) []
                          else
                            (* Step 6: Store in database *)
                            match Generation.story storyResult,
                                  Generation.metadata storyResult with
                            | Some story, Some metadata =>
                                let story :=
                                  Story.mk (World.storyId world)
                                    (Story.title story) (Story.content story)
                                    (Story.childName story)
                                    (Story.theme story) (Story.length story)
                                    (Story.wordCount story)
                                    (World.createdAt world) in
                                if World.insert world story
                                     (Auth.AuthPayload.userId authPayload)
                                     metadata
                                then
                                  (* Step 7: Return response *)
                                  Handled.mk
                                    (Succeeded story
                                       (StoryMetadata.mk
                                          (World.elapsed world)
                                          (StoryMetadata.model metadata)
                                          (StoryMetadata.safetyScore metadata)
                                          (StoryMetadata.language metadata)
                                          (StoryMetadata.promptVersion
                                             metadata)))
                                    (snd run)
                                    [(story,
                                      Auth.AuthPayload.userId authPayload,
                                      metadata)]
                                else Handled.mk internalError (snd run) []
                            | _, _ => Handled.mk internalError (snd run) []
                            end
                      end
            end
        end
    end.

End StoryHandler.

(* ================================================================== *)
(** * Properties of the guard                                          *)
(* ================================================================== *)

Module GuardFacts.

Import Guard.

Lemma String_eqb_eq (s t : jsstring) : String_eqb s t = true <-> s = t.
Proof.
  revert t; induction s as [|c s IH]; intros [|d t]; simpl; split; try easy.
  - rewrite andb_true_iff, N.eqb_eq, IH. now intros [-> ->].
  - intros [= -> ->]. rewrite N.eqb_refl. simpl. now apply IH.
Qed.

Lemma String_eqb_refl (s : jsstring) : String_eqb s s = true.
Proof. now apply String_eqb_eq. Qed.

Lemma Array_includes_In (arr : list jsstring) (x : jsstring) :
  Array_includes arr x = true <-> In x arr.
Proof.
  unfold Array_includes. rewrite existsb_exists. split.
  - intros (y & Hy & E). apply String_eqb_eq in E. now subst.
  - intros H. exists x. split; [assumption | apply String_eqb_refl].
Qed.

(** With the default configuration all four sub-checks run, in this
    order. *)
Lemma runGuards_default (content : jsstring) :
  runGuards content DEFAULT_CONFIG =
  [checkBlockedTerms content DEFAULT_BLOCKED_TERMS;
   checkRegexPatterns content DEFAULT_GUARD_RULES;
   checkContentLength content;
   checkRepetition content].
Proof. reflexivity. Qed.

(** The terms found by the loop of [checkBlockedTerms] are the terms that
    [extractBlockedTerms] returns. *)
Lemma checkBlockedTerms_safe (content : jsstring) (terms : list jsstring) :
  Sub.safe (checkBlockedTerms content terms)
  = Nat.eqb (length (extractBlockedTerms content terms)) 0.
Proof. reflexivity. Qed.

Lemma found_term (content term : jsstring) (terms : list jsstring) :
  In term terms ->
  String_includes (toLowerCase content) (toLowerCase term) = true ->
  In term (extractBlockedTerms content terms).
Proof.
  intros Hin Hinc. unfold extractBlockedTerms.
  apply filter_In. now split.
Qed.

(** Every term of the default block list is in lower case already. *)
Lemma DEFAULT_BLOCKED_TERMS_lower (term : jsstring) :
  In term DEFAULT_BLOCKED_TERMS -> toLowerCase term = term.
Proof.
  assert (H : forallb (fun t => String_eqb (toLowerCase t) t)
                      DEFAULT_BLOCKED_TERMS = true) by (vm_compute; reflexivity).
  rewrite forallb_forall in H. intros Hin.
  now apply String_eqb_eq, H.
Qed.

Lemma checkBlockedTerms_confidence (content : jsstring)
  (terms : list jsstring) :
  Sub.confidence (checkBlockedTerms content terms)
  = (if Nat.eqb (length (extractBlockedTerms content terms)) 0 then 1
     else Math_max 0.1
            (1 - Number_of_nat (length (extractBlockedTerms content terms))
                 * 0.3))%float.
Proof. reflexivity. Qed.

(** The four sub-checks of the default configuration. *)
Definition defaultResults (content : jsstring) : list Sub.t :=
  [checkBlockedTerms content DEFAULT_BLOCKED_TERMS;
   checkRegexPatterns content DEFAULT_GUARD_RULES;
   checkContentLength content;
   checkRepetition content].

Lemma checkContentSafety_default (content : jsstring) :
  checkContentSafety content DEFAULT_CONFIG
  = SafetyCheckResult.mk
      (forallb Sub.safe (defaultResults content))
      (fold_left (fun sum r => sum + Sub.confidence r)
                 (defaultResults content) 0
       / len (defaultResults content))%float
      (extractCategories (flat_map Sub.issues (defaultResults content)))
      (extractBlockedTerms content DEFAULT_BLOCKED_TERMS).
Proof. reflexivity. Qed.

Lemma aggregate4 (a b c d : Sub.t) :
  (fold_left (fun sum r => sum + Sub.confidence r) [a; b; c; d] 0
   / len [a; b; c; d])%float
  = (fold_left PrimFloat.add
       [Sub.confidence a; Sub.confidence b; Sub.confidence c;
        Sub.confidence d] 0
     / Number_of_nat 4)%float.
Proof. reflexivity. Qed.

Lemma safe_default (content : jsstring) :
  SafetyCheckResult.safe (checkContentSafety content DEFAULT_CONFIG)
  = Sub.safe (checkBlockedTerms content DEFAULT_BLOCKED_TERMS)
    && Sub.safe (checkRegexPatterns content DEFAULT_GUARD_RULES)
    && Sub.safe (checkContentLength content)
    && Sub.safe (checkRepetition content).
Proof.
  rewrite checkContentSafety_default. unfold defaultResults.
  cbn [SafetyCheckResult.safe forallb].
  now rewrite andb_true_r, !andb_assoc.
Qed.

Lemma confidence_default (content : jsstring) :
  SafetyCheckResult.confidence (checkContentSafety content DEFAULT_CONFIG)
  = (fold_left PrimFloat.add
       [Sub.confidence (checkBlockedTerms content DEFAULT_BLOCKED_TERMS);
        Sub.confidence (checkRegexPatterns content DEFAULT_GUARD_RULES);
        Sub.confidence (checkContentLength content);
        Sub.confidence (checkRepetition content)] 0
     / Number_of_nat 4)%float.
Proof.
  rewrite checkContentSafety_default. unfold defaultResults.
  cbn [SafetyCheckResult.confidence]. apply aggregate4.
Qed.

Lemma blockedTerms_default (content : jsstring) :
  SafetyCheckResult.blockedTerms (checkContentSafety content DEFAULT_CONFIG)
  = extractBlockedTerms content DEFAULT_BLOCKED_TERMS.
Proof. reflexivity. Qed.

(** The arithmetic mean of a list of Numbers: their sum, taken from the
    left starting at 0, divided by their count. *)
Definition mean (xs : list float) : float :=
  (fold_left PrimFloat.add xs 0 / Number_of_nat (length xs))%float.

(** What the guard does catch: a text whose lower case holds the lower
    case of a term of the default block list is unsafe under the default
    configuration, and the term is in the returned blockedTerms, in the
    lower-case form in which the list has it. *)
Theorem blocked_term_makes_unsafe (text term : jsstring) :
  In term DEFAULT_BLOCKED_TERMS ->
  String_includes (toLowerCase text) (toLowerCase term) = true ->
  SafetyCheckResult.safe (checkContentSafety text DEFAULT_CONFIG) = false
  /\ In term
        (SafetyCheckResult.blockedTerms (checkContentSafety text DEFAULT_CONFIG))
  /\ toLowerCase term = term.
Proof.
  intros Hin Hinc.
  pose proof (found_term text term DEFAULT_BLOCKED_TERMS Hin Hinc) as Hfound.
  split; [| split].
  - rewrite safe_default, checkBlockedTerms_safe.
    destruct (extractBlockedTerms text DEFAULT_BLOCKED_TERMS) as [|t ts].
    + destruct Hfound.
    + reflexivity.
  - rewrite blockedTerms_default. exact Hfound.
  - now apply DEFAULT_BLOCKED_TERMS_lower.
Qed.

Lemma kavga_listed : In (u "kavga") DEFAULT_BLOCKED_TERMS.
Proof. vm_compute. tauto. Qed.

Lemma kavga_included :
  String_includes (toLowerCase (u "ŞİDDET ve KAVGA")) (toLowerCase (u "kavga"))
  = true.
Proof. vm_compute. reflexivity. Qed.

(** A text in capitals that contains a blocked term (from the test suite). *)
Lemma blocked_term_makes_unsafe_witness :
  SafetyCheckResult.safe
    (checkContentSafety (u "ŞİDDET ve KAVGA") DEFAULT_CONFIG) = false
  /\ In (u "kavga")
        (SafetyCheckResult.blockedTerms
           (checkContentSafety (u "ŞİDDET ve KAVGA") DEFAULT_CONFIG))
  /\ toLowerCase (u "kavga") = u "kavga".
Proof.
  exact (blocked_term_makes_unsafe (u "ŞİDDET ve KAVGA") (u "kavga")
           kavga_listed kavga_included).
Defined.

(** The safe content of the test suite of the guard, with its line breaks
    and indentation. *)
Definition safe_story : jsstring :=
  u "Bir varmış bir yokmuş, güzel bir prenses varmış. Prenses bir günde ormanda geziniyordu ve çiçekler topluyordu. "
  ++ (0x0A :: u "            Birden karşısına sevimli bir tavşan çıktı ve ona merhaba dedi. Prenses tavşanla arkadaş oldu ve birlikte güzel vakit geçirdiler. ")%N
  ++ (0x0A :: u "            Akşam olduğunda prenses eve döndü ve ailesine bu güzel gününü anlattı. Herkes çok mutlu oldu ve prenses o geceyı güzel rüyalarla geçirdi.")%N
  ++ (0x0A :: u "            Ertesi gün tekrar ormana gitti ve yeni maceralar yaşadı. Bu böyle devam etti ve prenses her gün mutlu oldu.")%N.

(** The same content with a sentence that names two blocked terms in
    capitals, as a Turkish keyboard writes them. *)
Definition story_in_capitals : jsstring :=
  safe_story ++ u " Prenses BIÇAK ve ŞİDDET görmedi.".

(** C1: the guard misses blocked terms written in capitals.  The term
    bıçak is on the default block list and the text holds it in capitals
    (the upper case of the text holds the upper case of the term: the two
    are equal up to case), and it holds ŞİDDET, the word of the test of
    case insensitivity; yet the default configuration finds the text safe
    and returns no blocked term.  The lower case of I is i, not ı, and the
    lower case of İ is i followed by a combining dot. *)
Theorem capital_terms_are_missed :
  In (u "bıçak") DEFAULT_BLOCKED_TERMS
  /\ In (u "şiddet") DEFAULT_BLOCKED_TERMS
  /\ String_includes (GeminiClient.toUpperCase story_in_capitals)
       (GeminiClient.toUpperCase (u "bıçak")) = true
  /\ String_includes story_in_capitals (u "BIÇAK") = true
  /\ String_includes story_in_capitals (u "ŞİDDET") = true
  /\ toLowerCase (u "BIÇAK") = u "biçak"
  /\ toLowerCase (u "ŞİDDET") = u "şi" ++ (0x307 :: u "ddet")%N
  /\ SafetyCheckResult.safe
       (checkContentSafety story_in_capitals DEFAULT_CONFIG) = true
  /\ SafetyCheckResult.blockedTerms
       (checkContentSafety story_in_capitals DEFAULT_CONFIG) = [].
Proof.
  assert (H : forall term : jsstring,
             Array_includes DEFAULT_BLOCKED_TERMS term = true ->
             In term DEFAULT_BLOCKED_TERMS)
    by (intros term; apply Array_includes_In).
  split; [apply H; vm_compute; reflexivity|].
  split; [apply H; vm_compute; reflexivity|].
  repeat split; vm_compute; reflexivity.
Qed.

(** C7: under the default configuration the verdict is safe exactly when
    all four sub-checks are, its confidence is the mean of their four
    confidences, and the confidence of the blocked-term sub-check is 1 when
    no term is found and max(0.1, 1 - n * 0.3) for n > 0 terms found. *)
Theorem verdict_aggregates_four_checks (text : jsstring) :
  let verdict := checkContentSafety text DEFAULT_CONFIG in
  let terms := checkBlockedTerms text DEFAULT_BLOCKED_TERMS in
  let rules := checkRegexPatterns text DEFAULT_GUARD_RULES in
  let size := checkContentLength text in
  let repetition := checkRepetition text in
  let foundCount := length (SafetyCheckResult.blockedTerms verdict) in
  SafetyCheckResult.safe verdict
  = Sub.safe terms && Sub.safe rules && Sub.safe size && Sub.safe repetition
  /\ SafetyCheckResult.confidence verdict
     = mean [Sub.confidence terms; Sub.confidence rules;
             Sub.confidence size; Sub.confidence repetition]
  /\ Sub.confidence terms
     = (if Nat.eqb foundCount 0 then 1
        else Math_max 0.1 (1 - Number_of_nat foundCount * 0.3))%float.
Proof.
  cbv zeta. split; [| split].
  - apply safe_default.
  - apply confidence_default.
  - rewrite blockedTerms_default. apply checkBlockedTerms_confidence.
Qed.

(** No rule matches: the loop of [checkRegexPatterns] leaves the issues and
    the count of blocking rules as they are. *)
Lemma scanRules_no_match (content : jsstring) (rules : list GuardRule.t) :
  (forall rule, In rule rules ->
                String_match content (GuardRule.pattern rule) = None) ->
  forall issues n, scanRules content rules issues n = (issues, n).
Proof.
  induction rules as [|rule rules IH]; intros H issues n; simpl.
  - reflexivity.
  - rewrite (H rule (or_introl eq_refl)). apply IH.
    intros r Hr. apply H. now right.
Qed.

(** Fewer than 50 words: the length check fails. *)
Lemma checkContentLength_short (content : jsstring) :
  Nat.ltb (length (String_split content whitespace_run)) 50 = true ->
  Sub.safe (checkContentLength content) = false.
Proof.
  intros H. unfold checkContentLength. rewrite H. reflexivity.
Qed.

(** C10: an input with no blocked term that matches no blocking rule
    passes the pre-check, however short it is; with fewer than 50 words (the
    empty string has one, the empty word) the same input fails the full
    check of the default configuration. *)
Theorem preCheck_ignores_length (input : jsstring) :
  (forall term, In term DEFAULT_BLOCKED_TERMS ->
     String_includes (toLowerCase input) (toLowerCase term) = false) ->
  (forall rule, In rule DEFAULT_GUARD_RULES ->
     GuardRule.severity rule = block ->
     String_match input (GuardRule.pattern rule) = None) ->
  SafetyCheckResult.safe (preCheckUserInput input) = true
  /\ (Nat.ltb (length (String_split input whitespace_run)) 50 = true ->
      SafetyCheckResult.safe (checkContentSafety input DEFAULT_CONFIG) = false).
Proof.
  intros Hterms Hrules. split.
  - unfold preCheckUserInput, checkContentSafety.
    change (runGuards input _)
      with [checkBlockedTerms input DEFAULT_BLOCKED_TERMS;
            checkRegexPatterns input
              (filter (fun rule => Severity_eqb (GuardRule.severity rule) block)
                      DEFAULT_GUARD_RULES)].
    cbn [SafetyCheckResult.safe forallb].
    rewrite checkBlockedTerms_safe.
    assert (Hnone : extractBlockedTerms input DEFAULT_BLOCKED_TERMS = []).
    { unfold extractBlockedTerms.
      induction DEFAULT_BLOCKED_TERMS as [|t ts IH]; simpl; [reflexivity|].
      rewrite (Hterms t (or_introl eq_refl)). apply IH.
      intros t' Ht'. apply Hterms. now right. }
    rewrite Hnone. unfold checkRegexPatterns.
    rewrite scanRules_no_match; [reflexivity|].
    intros rule Hin. apply filter_In in Hin. destruct Hin as [Hin Hsev].
    apply Hrules; [assumption|].
    destruct (GuardRule.severity rule); simpl in Hsev; congruence.
  - intros Hshort. rewrite safe_default.
    rewrite (checkContentLength_short input Hshort).
    now rewrite andb_false_r.
Qed.

Lemma empty_has_no_blocked_term (term : jsstring) :
  In term DEFAULT_BLOCKED_TERMS ->
  String_includes (toLowerCase []) (toLowerCase term) = false.
Proof.
  assert (H : forallb (fun t => negb (String_includes (toLowerCase [])
                                                       (toLowerCase t)))
                      DEFAULT_BLOCKED_TERMS = true) by (vm_compute; reflexivity).
  rewrite forallb_forall in H. intros Ht.
  apply negb_true_iff. now apply H.
Qed.

Lemma empty_matches_no_rule (rule : GuardRule.t) :
  In rule DEFAULT_GUARD_RULES ->
  GuardRule.severity rule = block ->
  String_match [] (GuardRule.pattern rule) = None.
Proof.
  intros Hin _. unfold DEFAULT_GUARD_RULES in Hin.
  repeat (destruct Hin as [<- | Hin]; [vm_compute; reflexivity|]).
  destruct Hin.
Qed.

Lemma empty_is_short :
  Nat.ltb (length (String_split [] whitespace_run)) 50 = true.
Proof. vm_compute. reflexivity. Qed.

(** The empty string: safe for the pre-check, unsafe for the full check. *)
Lemma preCheck_ignores_length_witness :
  SafetyCheckResult.safe (preCheckUserInput []) = true
  /\ SafetyCheckResult.safe (checkContentSafety [] DEFAULT_CONFIG) = false.
Proof.
  exact (conj
           (proj1 (preCheck_ignores_length []
                     empty_has_no_blocked_term empty_matches_no_rule))
           (proj2 (preCheck_ignores_length []
                     empty_has_no_blocked_term empty_matches_no_rule)
                  empty_is_short)).
Defined.

End GuardFacts.

(* ================================================================== *)
(** * Comparisons of Numbers                                           *)
(* ================================================================== *)

Module NumFacts.

Lemma SFcompare_antisym (f g : spec_float) :
  SFcompare g f = option_map CompOpp (SFcompare f g).
Proof.
  destruct f as [s | s | | s m e], g as [s' | s' | | s' m' e']; simpl;
    try reflexivity;
    try (destruct s; reflexivity);
    try (destruct s'; reflexivity);
    try (destruct s, s'; reflexivity).
  f_equal. destruct s, s'; try reflexivity.
  - rewrite (Z.compare_antisym e e').
    destruct (e ?= e')%Z; simpl; try reflexivity.
    now rewrite (Pos.compare_cont_antisym m m' Eq).
  - rewrite (Z.compare_antisym e e').
    destruct (e ?= e')%Z; simpl; try reflexivity.
    now rewrite (Pos.compare_cont_antisym m m' Eq).
Qed.

Lemma SFcompare_refl (f : spec_float) :
  f <> S754_nan -> SFcompare f f = Some Eq.
Proof.
  destruct f as [s | s | | s m e]; simpl; intros H;
    try (destruct s; reflexivity); try congruence.
  f_equal. destruct s; rewrite Z.compare_refl, Pos.compare_cont_refl;
    reflexivity.
Qed.

(** A Number is NaN exactly when its specification value is. *)
Lemma is_nan_spec (x : float) :
  is_nan x = true <-> Prim2SF x = S754_nan.
Proof.
  unfold is_nan. rewrite FloatAxioms.eqb_spec. unfold SFeqb. split.
  - intros H. destruct (Prim2SF x) eqn:E; try reflexivity;
      rewrite SFcompare_refl in H by discriminate; discriminate.
  - intros ->. reflexivity.
Qed.

Lemma is_nan_false (x : float) :
  is_nan x = false <-> Prim2SF x <> S754_nan.
Proof.
  rewrite <- is_nan_spec. destruct (is_nan x); split; congruence.
Qed.

(** Among Numbers that are not NaN, [x < y] is the negation of [y <= x]. *)
Lemma ltb_negb_leb (x y : float) :
  is_nan x = false -> is_nan y = false ->
  PrimFloat.ltb x y = negb (PrimFloat.leb y x).
Proof.
  rewrite !is_nan_false, ltb_spec, leb_spec. unfold SFltb, SFleb.
  intros Hx Hy. rewrite (SFcompare_antisym (Prim2SF x) (Prim2SF y)).
  destruct (SFcompare (Prim2SF x) (Prim2SF y)) as [[| |]|] eqn:E;
    try reflexivity.
  destruct (Prim2SF x), (Prim2SF y); simpl in E; congruence.
Qed.

(** A comparison that holds has no NaN operand. *)
Lemma leb_not_nan (x y : float) :
  PrimFloat.leb x y = true -> is_nan x = false /\ is_nan y = false.
Proof.
  rewrite leb_spec, !is_nan_false. unfold SFleb.
  destruct (Prim2SF x), (Prim2SF y); simpl; intros H; split; congruence.
Qed.

(** Zero (of either sign) is below 3. *)
Lemma zero_below_3 (x : float) :
  is_zero x = true -> PrimFloat.leb 3 x = false.
Proof.
  unfold is_zero. rewrite FloatAxioms.eqb_spec, leb_spec.
  change (Prim2SF 3) with (S754_finite false 6755399441055744 (-51)).
  change (Prim2SF zero) with (S754_zero false).
  unfold SFeqb, SFleb.
  destruct (Prim2SF x) as [s | s | | s m e]; simpl; try congruence.
  - destruct s; congruence.
  - destruct s; congruence.
Qed.

End NumFacts.

(* ================================================================== *)
(** * Properties of the validation                                     *)
(* ================================================================== *)

Module ValidationFacts.

Import Zod Validation GuardFacts NumFacts.

(** The codes that [isRecoverableError] accepts. *)
Definition recoverableCodes : list jsstring :=
  [INVALID_JSON; WORD_COUNT_MISMATCH; INSUFFICIENT_STRUCTURE;
   NOT_STORY_FORMAT].

(** The codes of the schema, safety, repetition and language errors. *)
Definition terminalCodes : list jsstring :=
  [SCHEMA_VALIDATION_ERROR; CONTENT_SAFETY_FAILED; EXCESSIVE_REPETITION;
   NO_TURKISH_CHARACTERS; NOT_TURKISH_LANGUAGE].

Lemma terminal_not_recoverable (c : jsstring) :
  In c terminalCodes -> Array_includes recoverableCodes c = false.
Proof.
  unfold terminalCodes. intros H.
  repeat (destruct H as [<- | H]; [vm_compute; reflexivity|]).
  destruct H.
Qed.

(** C3: the errors are recoverable exactly when one of them has a code
    among INVALID_JSON, WORD_COUNT_MISMATCH, INSUFFICIENT_STRUCTURE and
    NOT_STORY_FORMAT; errors that carry only schema, safety, repetition or
    language codes are not. *)
Theorem isRecoverableError_iff (errors : list ValidationError.t) :
  (isRecoverableError errors = true <->
   exists e, In e errors /\ In (ValidationError.code e) recoverableCodes)
  /\ ((forall e, In e errors -> In (ValidationError.code e) terminalCodes) ->
      isRecoverableError errors = false).
Proof.
  assert (E : forall es, isRecoverableError es
              = existsb (fun error => Array_includes recoverableCodes
                                        (ValidationError.code error)) es)
    by reflexivity.
  rewrite !E. clear E. split.
  - rewrite existsb_exists. split.
    + intros (e & He & Hc). exists e. split; [assumption|].
      now apply Array_includes_In.
    + intros (e & He & Hc). exists e. split; [assumption|].
      now apply Array_includes_In.
  - intros H. induction errors as [|e es IH]; cbn [existsb]; [reflexivity|].
    rewrite (terminal_not_recoverable _ (H e (or_introl eq_refl))).
    apply IH. intros e' He'. apply H. now right.
Qed.

(** C4: a text that does not parse as JSON gives an invalid result without
    data and with exactly one error, on the field response with the code
    INVALID_JSON. *)
Theorem invalid_json_single_error (rawResponse : jsstring)
  (expectedLength : StoryLength) (config : ValidationConfig.t) :
  JSON_parse rawResponse = None ->
  let result := validateStoryResponse rawResponse expectedLength config in
  ValidationResult.valid result = false
  /\ ValidationResult.data result = None
  /\ exists message,
       ValidationResult.errors result
       = [ValidationError.mk (u "response") message INVALID_JSON].
Proof.
  intros H. cbv zeta. unfold validateStoryResponse. rewrite H.
  repeat split. eexists. reflexivity.
Qed.

Lemma broken_json_does_not_parse :
  JSON_parse (q "{ invalid json format") = None.
Proof. vm_compute. reflexivity. Qed.

(** The malformed text of the test suite. *)
Lemma invalid_json_single_error_witness :
  let result :=
    validateStoryResponse (q "{ invalid json format") SHORT
      DEFAULT_VALIDATION_CONFIG in
  ValidationResult.valid result = false
  /\ ValidationResult.data result = None
  /\ exists message,
       ValidationResult.errors result
       = [ValidationError.mk (u "response") message INVALID_JSON].
Proof.
  exact (invalid_json_single_error (q "{ invalid json format") SHORT
           DEFAULT_VALIDATION_CONFIG broken_json_does_not_parse).
Defined.

(** ** The request *)

(** The conditions on a request, after the words of the specification:
    childName is a string that is not empty after trimming; age is a number
    within the bound 3..18; theme and length are members of their enums. *)
Definition spec_childName_ok (v : option json) : bool :=
  match v with
  | Some (JString s) => negb (Nat.eqb (length (String_trim s)) 0)
  | _ => false
  end.

Definition spec_age_in_bound (v : option json) : bool :=
  match v with
  | Some (JNumber x) => PrimFloat.leb 3 x && PrimFloat.leb x 18
  | _ => false
  end.

(** ... and the condition on age as the claim has it: an integer within
    the bound. *)
Definition spec_age_integer_in_bound (v : option json) : bool :=
  match v with
  | Some (JNumber x) =>
      Number_isInteger x && PrimFloat.leb 3 x && PrimFloat.leb x 18
  | _ => false
  end.

Definition spec_theme_ok (v : option json) : bool :=
  match v with
  | Some (JString s) =>
      existsb (fun t => String_eqb (StoryTheme_value t) s) StoryTheme_members
  | _ => false
  end.

Definition spec_length_ok (v : option json) : bool :=
  match v with
  | Some (JString s) =>
      existsb (fun l => String_eqb (StoryLength_value l) s)
              StoryLength_members
  | _ => false
  end.

Lemma typeof_string (v : option json) :
  String_eqb (typeof v) (u "string")
  = match v with Some (JString _) => true | _ => false end.
Proof. destruct v as [[| | | | |]|]; vm_compute; reflexivity. Qed.

Lemma typeof_number (v : option json) :
  String_eqb (typeof v) (u "number")
  = match v with Some (JNumber _) => true | _ => false end.
Proof. destruct v as [[| | | | |]|]; vm_compute; reflexivity. Qed.

Lemma childName_rejected_spec (v : option json) :
  childName_rejected v = negb (spec_childName_ok v).
Proof.
  unfold childName_rejected. rewrite typeof_string.
  destruct v as [[| b | x | s | l | m]|]; simpl;
    try reflexivity; try (destruct b; reflexivity);
    try (now rewrite orb_true_r).
  rewrite negb_involutive.
  destruct s as [|c s]; [reflexivity|]. reflexivity.
Qed.

Lemma age_rejected_spec (v : option json) :
  age_rejected v = negb (spec_age_in_bound v).
Proof.
  unfold age_rejected. rewrite typeof_number.
  destruct v as [[| b | x | s | l | m]|]; simpl;
    try reflexivity; try (destruct b; reflexivity);
    try (now rewrite orb_true_r).
  destruct (is_nan x) eqn:Enan.
  - rewrite orb_true_r. simpl.
    destruct (PrimFloat.leb 3 x) eqn:E; [|reflexivity].
    apply leb_not_nan in E. destruct E; congruence.
  - rewrite orb_false_r.
    assert (H3 : is_nan 3 = false) by reflexivity.
    assert (H18 : is_nan 18 = false) by reflexivity.
    rewrite (ltb_negb_leb x 3 Enan H3), (ltb_negb_leb 18 x H18 Enan).
    destruct (is_zero x) eqn:Ez.
    + now rewrite (zero_below_3 x Ez).
    + simpl. now rewrite negb_andb.
Qed.

Lemma String_eqb_sym (s t : jsstring) : String_eqb s t = String_eqb t s.
Proof.
  destruct (String_eqb s t) eqn:E.
  - apply String_eqb_eq in E. subst. symmetry. apply String_eqb_refl.
  - destruct (String_eqb t s) eqn:E'; [|reflexivity].
    apply String_eqb_eq in E'. subst. now rewrite String_eqb_refl in E.
Qed.

Lemma includes_member {E} (value : E -> jsstring) (members : list E)
  (s : jsstring) :
  Array_includes (map value members) s
  = existsb (fun t => String_eqb (value t) s) members.
Proof.
  unfold Array_includes.
  induction members as [|t ts IH]; [reflexivity|].
  cbn [map existsb]. now rewrite IH, String_eqb_sym.
Qed.

Lemma includes_value_theme (v : option json) :
  includes_value (map StoryTheme_value StoryTheme_members) v = spec_theme_ok v.
Proof.
  destruct v as [[| b | x | s | l | m]|]; try reflexivity.
  apply includes_member.
Qed.

Lemma includes_value_length (v : option json) :
  includes_value (map StoryLength_value StoryLength_members) v
  = spec_length_ok v.
Proof.
  destruct v as [[| b | x | s | l | m]|]; try reflexivity.
  apply includes_member.
Qed.

(** The request of the test suite with the age 7.5. *)
Definition request_7_5 : json :=
  JObject [(u "childName", JString (u "Ahmet"));
           (u "age", JNumber 7.5);
           (u "theme", JString (u "adventure"));
           (u "length", JString (u "short"))].

(** C9, as stated, fails: a request whose age is 7.5 is valid, although
    7.5 is not an integer. *)
Lemma fractional_age_is_valid :
  validateUserRequest request_7_5 = Some (true, [])
  /\ spec_childName_ok (get (u "childName") request_7_5) = true
  /\ spec_age_integer_in_bound (get (u "age") request_7_5) = false
  /\ spec_theme_ok (get (u "theme") request_7_5) = true
  /\ spec_length_ok (get (u "length") request_7_5) = true.
Proof. vm_compute. repeat split; reflexivity. Qed.

(** C9, amended: a request object is valid exactly when childName is a
    string that is not empty after trimming, age is a number from 3 to 18
    (an integer or not), theme is one of the 8 themes and length one of the
    3 lengths; the errors are, in this order, one MISSING_CHILD_NAME,
    INVALID_AGE, INVALID_THEME, INVALID_LENGTH for each condition that
    fails. *)
Theorem validateUserRequest_spec (members : list (jsstring * json)) :
  let request := JObject members in
  let name_ok := spec_childName_ok (get (u "childName") request) in
  let age_ok := spec_age_in_bound (get (u "age") request) in
  let theme_ok := spec_theme_ok (get (u "theme") request) in
  let length_ok := spec_length_ok (get (u "length") request) in
  exists m1 m2 m3 m4,
    validateUserRequest request
    = Some (name_ok && age_ok && theme_ok && length_ok,
            (if name_ok then []
             else [ValidationError.mk (u "childName") m1 MISSING_CHILD_NAME])
            ++ (if age_ok then []
                else [ValidationError.mk (u "age") m2 INVALID_AGE])
            ++ (if theme_ok then []
                else [ValidationError.mk (u "theme") m3 INVALID_THEME])
            ++ (if length_ok then []
                else [ValidationError.mk (u "length") m4 INVALID_LENGTH])).
Proof.
  cbv zeta. unfold validateUserRequest, property, get.
  unfold theme_rejected, length_rejected.
  rewrite childName_rejected_spec, age_rejected_spec,
    includes_value_theme, includes_value_length.
  generalize (spec_childName_ok (lookup (u "childName") members))
             (spec_age_in_bound (lookup (u "age") members))
             (spec_theme_ok (lookup (u "theme") members))
             (spec_length_ok (lookup (u "length") members)).
  intros a b c d. do 4 eexists.
  destruct a, b, c, d; reflexivity.
Qed.

End ValidationFacts.

(* ================================================================== *)
(** * Properties of the schema check                                   *)
(* ================================================================== *)

Module SchemaFacts.

Import Zod Validation GuardFacts NumFacts ValidationFacts.

(** The schema, after the words of the specification: title is a string of
    5 to 100 units that is not blank, content a string of 50 to 3000 units
    that is not blank, wordCount an integer from 50 to 800, theme a member
    of the theme enum, language one of the two values tr and en. *)
Definition spec_text_ok (lo hi : nat) (v : option json) : bool :=
  match v with
  | Some (JString s) =>
      Nat.leb lo (length s) && Nat.leb (length s) hi
      && negb (Nat.eqb (length (String_trim s)) 0)
  | _ => false
  end.

Definition spec_wordCount_ok (v : option json) : bool :=
  match v with
  | Some (JNumber x) =>
      Number_isInteger x && PrimFloat.leb 50 x && PrimFloat.leb x 800
  | _ => false
  end.

Definition spec_language_ok (v : option json) : bool :=
  match v with
  | Some (JString s) => String_eqb s (u "tr") || String_eqb s (u "en")
  | _ => false
  end.

Definition spec_fields : list (jsstring * (option json -> bool)) :=
  [(u "title", spec_text_ok 5 100);
   (u "content", spec_text_ok 50 3000);
   (u "wordCount", spec_wordCount_ok);
   (u "theme", spec_theme_ok);
   (u "language", spec_language_ok)].

Definition spec_conforms (data : json) : bool :=
  match data with
  | JObject members =>
      forallb (fun f => snd f (lookup (fst f) members)) spec_fields
  | _ => false
  end.



(** What the issues of one field of the shape satisfy: none exactly when
    the field conforms, at most two, all on the path of the field. *)
Definition field_issues (f : jsstring) (ok : bool) (issues : list ZodIssue.t)
  : Prop :=
  (issues = [] <-> ok = true)
  /\ length issues <= 2
  /\ Forall (fun i => ZodIssue.path i = [f]) issues.

Lemma field_issues_wrong_type (f : jsstring) (i : ZodIssue.t) :
  ZodIssue.path i = [f] -> field_issues f false [i].
Proof.
  intros H. split; [split; discriminate|].
  split; [simpl; lia | now constructor].
Qed.

Lemma spec_text_ok_iff (lo hi : nat) (s : jsstring) :
  spec_text_ok lo hi (Some (JString s)) = true
  <-> lo <= length s /\ length s <= hi /\ 0 < length (String_trim s).
Proof.
  unfold spec_text_ok.
  rewrite !andb_true_iff, !Nat.leb_le, negb_true_iff, Nat.eqb_neq. lia.
Qed.

Lemma parseString_issues (f : jsstring) (lo hi : nat)
  (m1 m2 m3 : jsstring) (v : option json) :
  lo <= hi ->
  field_issues f (spec_text_ok lo hi v)
               (snd (parseString [f] lo hi m1 m2 m3 v)).
Proof.
  intros Hle.
  destruct v as [[| b | x | s | l | m]|];
    try (apply field_issues_wrong_type; reflexivity).
  unfold field_issues. rewrite spec_text_ok_iff.
  unfold parseString. cbn [snd].
  destruct (Nat.ltb_spec (length s) lo) as [H1|H1],
           (Nat.ltb_spec hi (length s)) as [H2|H2],
           (Nat.ltb_spec 0 (length (String_trim s))) as [H3|H3];
    cbn [app length]; try lia.
  all: split; [split; [intros H; try discriminate H; lia
                      | intros H; try reflexivity; lia]
              | split; [lia | repeat (constructor; try reflexivity)]].
Qed.

Lemma parseString_value (path : list jsstring) (lo hi : nat)
  (m1 m2 m3 : jsstring) (v : option json) :
  snd (parseString path lo hi m1 m2 m3 v) = [] ->
  exists s, fst (parseString path lo hi m1 m2 m3 v) = Some s.
Proof.
  unfold parseString.
  destruct v as [[| b | x | s | l | m]|]; cbn [fst snd]; try discriminate.
  intros _. now exists s.
Qed.

(** No Number is below 50 and above 800 at once. *)
Lemma not_below_50_and_above_800 (x : float) :
  PrimFloat.leb 50 x = false -> PrimFloat.leb x 800 = false ->
  is_nan x = true.
Proof.
  intros E1 E2. apply is_nan_spec.
  rewrite leb_spec in E1, E2. unfold SFleb in E1, E2.
  rewrite (SFcompare_antisym (Prim2SF x) (Prim2SF 50)) in E1.
  change (Prim2SF 50) with (S754_finite false 7036874417766400 (-47)) in *.
  change (Prim2SF 800) with (S754_finite false 7036874417766400 (-43)) in *.
  destruct (Prim2SF x) as [s | s | | s m e]; try reflexivity; exfalso.
  - destruct s; discriminate.
  - destruct s; discriminate.
  - destruct s; try discriminate.
    unfold SFcompare, option_map in E1, E2.
    destruct (Z.compare_spec e (-47)) as [Ha|Ha|Ha],
             (Z.compare_spec e (-43)) as [Hb|Hb|Hb];
      cbv beta iota delta [CompOpp] in E1, E2; try discriminate; lia.
Qed.

Lemma parseNumber_issues (f : jsstring) (m1 m2 m3 : jsstring)
  (v : option json) :
  field_issues f (spec_wordCount_ok v)
               (snd (parseNumber [f] 50 800 m1 m2 m3 v)).
Proof.
  destruct v as [[| b | x | s | l | m]|];
    try (apply field_issues_wrong_type; reflexivity).
  unfold parseNumber, spec_wordCount_ok.
  destruct (is_nan x) eqn:Enan; cbn [snd].
  - replace (Number_isInteger x && PrimFloat.leb 50 x && PrimFloat.leb x 800)
      with false; [apply field_issues_wrong_type; reflexivity|].
    destruct (PrimFloat.leb 50 x) eqn:E; [|now rewrite andb_false_r].
    apply leb_not_nan in E. destruct E; congruence.
  - assert (H50 : is_nan 50 = false) by reflexivity.
    assert (H800 : is_nan 800 = false) by reflexivity.
    rewrite (ltb_negb_leb x 50 Enan H50), (ltb_negb_leb 800 x H800 Enan).
    unfold field_issues.
    destruct (PrimFloat.leb 50 x) eqn:E1, (PrimFloat.leb x 800) eqn:E2,
             (Number_isInteger x) eqn:E3; cbn [negb app length andb].
    all: try (pose proof (not_below_50_and_above_800 x E1 E2); congruence).
    all: split; [split; [intros H; try discriminate H; reflexivity
                        | intros H; try discriminate H; reflexivity]
                | split; [lia | repeat (constructor; try reflexivity)]].
Qed.

Lemma parseNumber_value (path : list jsstring) (lo hi : float)
  (m1 m2 m3 : jsstring) (v : option json) :
  snd (parseNumber path lo hi m1 m2 m3 v) = [] ->
  exists x, fst (parseNumber path lo hi m1 m2 m3 v) = Some x.
Proof.
  unfold parseNumber.
  destruct v as [[| b | x | s | l | m]|]; cbn [fst snd]; try discriminate.
  destruct (is_nan x); cbn [fst snd]; try discriminate.
  intros _. now exists x.
Qed.

Lemma parseEnum_issues {E} (f : jsstring) (member : json -> option E)
  (m : jsstring) (ok : option json -> bool) (v : option json) :
  (forall w, ok (Some w) = match member w with
                           | Some _ => true
                           | None => false
                           end) ->
  ok None = false ->
  field_issues f (ok v) (snd (parseEnum [f] member m v)).
Proof.
  intros Hok Hnone. unfold parseEnum. destruct v as [w|].
  - rewrite Hok. destruct (member w); cbn [snd].
    + split; [tauto | split; [simpl; lia | constructor]].
    + apply field_issues_wrong_type. reflexivity.
  - rewrite Hnone. apply field_issues_wrong_type. reflexivity.
Qed.

Lemma parseEnum_value {E} (path : list jsstring) (member : json -> option E)
  (m : jsstring) (v : option json) :
  snd (parseEnum path member m v) = [] ->
  exists e, fst (parseEnum path member m v) = Some e.
Proof.
  unfold parseEnum. destruct v as [w|]; [|discriminate].
  destruct (member w) as [e|]; [|discriminate].
  intros _. now exists e.
Qed.

Lemma spec_theme_ok_member (w : json) :
  spec_theme_ok (Some w)
  = match StoryTheme_of w with Some _ => true | None => false end.
Proof.
  destruct w as [| b | x | s | l | m]; try reflexivity.
  unfold spec_theme_ok, StoryTheme_of.
  destruct (find (fun t => String_eqb (StoryTheme_value t) s)
                 StoryTheme_members) as [t|] eqn:E.
  - apply find_some in E. apply existsb_exists. now exists t.
  - destruct (existsb _ StoryTheme_members) eqn:E'; [|reflexivity].
    apply existsb_exists in E'. destruct E' as (t & Hin & Ht).
    now rewrite (find_none _ _ E t Hin) in Ht.
Qed.

Lemma spec_language_ok_member (w : json) :
  spec_language_ok (Some w)
  = match Language_of w with Some _ => true | None => false end.
Proof.
  destruct w as [| b | x | s | l | m]; try reflexivity.
  unfold spec_language_ok, Language_of.
  destruct (String_eqb s (u "tr")); [reflexivity|].
  destruct (String_eqb s (u "en")); reflexivity.
Qed.

(** The issues of the five fields of the shape, in its order. *)
Definition schemaIssues (members : list (jsstring * json)) : list ZodIssue.t :=
  snd (schema_title (lookup (u "title") members))
  ++ snd (schema_content (lookup (u "content") members))
  ++ snd (schema_wordCount (lookup (u "wordCount") members))
  ++ snd (schema_theme (lookup (u "theme") members))
  ++ snd (schema_language (lookup (u "language") members)).

Lemma title_issues (v : option json) :
  field_issues (u "title") (spec_text_ok 5 100 v) (snd (schema_title v)).
Proof. apply parseString_issues. lia. Qed.

Lemma content_issues (v : option json) :
  field_issues (u "content") (spec_text_ok 50 3000 v) (snd (schema_content v)).
Proof. apply parseString_issues. lia. Qed.

Lemma wordCount_issues (v : option json) :
  field_issues (u "wordCount") (spec_wordCount_ok v) (snd (schema_wordCount v)).
Proof. apply parseNumber_issues. Qed.

Lemma theme_issues (v : option json) :
  field_issues (u "theme") (spec_theme_ok v) (snd (schema_theme v)).
Proof.
  apply parseEnum_issues; [apply spec_theme_ok_member | reflexivity].
Qed.

Lemma language_issues (v : option json) :
  field_issues (u "language") (spec_language_ok v) (snd (schema_language v)).
Proof.
  apply parseEnum_issues; [apply spec_language_ok_member | reflexivity].
Qed.

(** The schema accepts an object exactly when no field has an issue, and
    otherwise reports the issues of all fields. *)
Lemma safeParse_object (members : list (jsstring * json)) :
  match schemaIssues members with
  | [] => exists data, safeParse (JObject members) = inl data
  | _ :: _ => safeParse (JObject members) = inr (schemaIssues members)
  end.
Proof.
  unfold schemaIssues, safeParse, get.
  pose proof (parseString_value [u "title"] 5 100 (u "Başlık çok kısa")
                (u "Başlık çok uzun") (u "Başlık boş olamaz")
                (lookup (u "title") members)) as V1.
  pose proof (parseString_value [u "content"] 50 3000
                (u "İçerik çok kısa (minimum 50 karakter)")
                (u "İçerik çok uzun (maksimum 3000 karakter)")
                (u "İçerik boş olamaz")
                (lookup (u "content") members)) as V2.
  pose proof (parseNumber_value [u "wordCount"] 50 800
                (u "Kelime sayısı çok az") (u "Kelime sayısı çok fazla")
                (u "Kelime sayısı tam sayı olmalı")
                (lookup (u "wordCount") members)) as V3.
  pose proof (parseEnum_value [u "theme"] StoryTheme_of (u "Geçersiz tema")
                (lookup (u "theme") members)) as V4.
  pose proof (parseEnum_value [u "language"] Language_of
                (u "Dil Türkçe (tr) veya İngilizce (en) olmalı")
                (lookup (u "language") members)) as V5.
  fold (schema_title (lookup (u "title") members)) in V1.
  fold (schema_content (lookup (u "content") members)) in V2.
  fold (schema_wordCount (lookup (u "wordCount") members)) in V3.
  fold (schema_theme (lookup (u "theme") members)) in V4.
  fold (schema_language (lookup (u "language") members)) in V5.
  destruct (schema_title (lookup (u "title") members)) as [t i1].
  destruct (schema_content (lookup (u "content") members)) as [c i2].
  destruct (schema_wordCount (lookup (u "wordCount") members)) as [w i3].
  destruct (schema_theme (lookup (u "theme") members)) as [th i4].
  destruct (schema_language (lookup (u "language") members)) as [l i5].
  cbn [fst snd] in *.
  destruct (i1 ++ i2 ++ i3 ++ i4 ++ i5) as [|i more] eqn:E; [|reflexivity].
  apply app_eq_nil in E. destruct E as [-> E].
  apply app_eq_nil in E. destruct E as [-> E].
  apply app_eq_nil in E. destruct E as [-> E].
  apply app_eq_nil in E. destruct E as [-> ->].
  destruct (V1 eq_refl) as [v1 E1], (V2 eq_refl) as [v2 E2],
           (V3 eq_refl) as [v3 E3], (V4 eq_refl) as [v4 E4],
           (V5 eq_refl) as [v5 E5].
  subst. eexists. reflexivity.
Qed.

Lemma spec_conforms_object (members : list (jsstring * json)) :
  spec_conforms (JObject members)
  = spec_text_ok 5 100 (lookup (u "title") members)
    && (spec_text_ok 50 3000 (lookup (u "content") members)
    && (spec_wordCount_ok (lookup (u "wordCount") members)
    && (spec_theme_ok (lookup (u "theme") members)
    && (spec_language_ok (lookup (u "language") members) && true)))).
Proof. reflexivity. Qed.

Lemma schemaIssues_nil (members : list (jsstring * json)) :
  schemaIssues members = [] <-> spec_conforms (JObject members) = true.
Proof.
  rewrite spec_conforms_object. unfold schemaIssues.
  destruct (title_issues (lookup (u "title") members)) as [H1 _].
  destruct (content_issues (lookup (u "content") members)) as [H2 _].
  destruct (wordCount_issues (lookup (u "wordCount") members)) as [H3 _].
  destruct (theme_issues (lookup (u "theme") members)) as [H4 _].
  destruct (language_issues (lookup (u "language") members)) as [H5 _].
  rewrite !andb_true_iff, <- H1, <- H2, <- H3, <- H4, <- H5.
  split.
  - intros E.
    apply app_eq_nil in E. destruct E as [-> E].
    apply app_eq_nil in E. destruct E as [-> E].
    apply app_eq_nil in E. destruct E as [-> E].
    apply app_eq_nil in E. destruct E as [-> ->]. tauto.
  - intros (-> & -> & -> & -> & -> & _). reflexivity.
Qed.

















End SchemaFacts.

(* ================================================================== *)
(** * Properties of the word-count check                               *)
(* ================================================================== *)

Module WordCountFacts.

Import Zod Validation GuardFacts ValidationFacts.

(** Two literal codes are different. *)
Ltac distinct_codes :=
  let H := fresh in
  intro H; apply String_eqb_eq in H; vm_compute in H; discriminate H.

Lemma quality_codes (content : jsstring) (config : ValidationConfig.t)
  (e : ValidationError.t) :
  In e (validateContentQuality content config) ->
  ValidationError.code e <> WORD_COUNT_MISMATCH.
Proof.
  unfold validateContentQuality. cbv zeta. intros H.
  apply in_app_or in H. destruct H as [H | H].
  - destruct (Nat.ltb (length (Guard.sentencesOf content)) 3);
      [destruct H as [<- | []]; distinct_codes | destruct H].
  - apply in_app_or in H. destruct H as [H | H].
    + destruct (PrimFloat.ltb _ _);
        [destruct H as [<- | []]; distinct_codes | destruct H].
    + destruct (negb _ && negb _);
        [destruct H as [<- | []]; distinct_codes | destruct H].
Qed.

Lemma language_codes (content : jsstring) (e : ValidationError.t) :
  In e (validateTurkishContent content) ->
  ValidationError.code e <> WORD_COUNT_MISMATCH.
Proof.
  unfold validateTurkishContent. cbv zeta. intros H.
  apply in_app_or in H. destruct H as [H | H].
  - destruct (negb _);
      [destruct H as [<- | []]; distinct_codes | destruct H].
  - destruct (Nat.ltb _ 3);
      [destruct H as [<- | []]; distinct_codes | destruct H].
Qed.

(** The errors of steps 3 to 6, split at the word-count step. *)
Lemma contentErrors_split (data : ValidatedStoryResponse.t)
  (expectedLength : StoryLength) (config : ValidationConfig.t) :
  exists safety message,
    (forall e, In e safety -> ValidationError.code e <> WORD_COUNT_MISMATCH)
    /\ contentErrors data expectedLength config
       = safety
         ++ (if Nat.ltb (countWords (ValidatedStoryResponse.content data))
                        (fst (getExpectedWordCountRange expectedLength))
                || Nat.ltb (snd (getExpectedWordCountRange expectedLength))
                           (countWords (ValidatedStoryResponse.content data))
             then [ValidationError.mk (u "wordCount") message
                     WORD_COUNT_MISMATCH]
             else [])
         ++ validateContentQuality (ValidatedStoryResponse.content data) config
         ++ validateTurkishContent (ValidatedStoryResponse.content data).
Proof.
  unfold contentErrors. cbv zeta.
  eexists. eexists. split; [|reflexivity].
  intros e H.
  destruct (negb _); [destruct H as [<- | []]; distinct_codes | destruct H].
Qed.

(** On a response that passes the schema, an error with the code
    WORD_COUNT_MISMATCH is reported exactly when [countWords] of the content
    lies outside the range of [getExpectedWordCountRange], and that error is
    on the field wordCount. *)
Lemma mismatch_iff_countWords (rawResponse : jsstring)
  (expectedLength : StoryLength) (config : ValidationConfig.t)
  (parsed : json) (data : ValidatedStoryResponse.t) :
  JSON_parse rawResponse = Some parsed ->
  safeParse parsed = inl data ->
  let result := validateStoryResponse rawResponse expectedLength config in
  let actual := countWords (ValidatedStoryResponse.content data) in
  let range := getExpectedWordCountRange expectedLength in
  ((exists e, In e (ValidationResult.errors result)
              /\ ValidationError.code e = WORD_COUNT_MISMATCH)
   <-> actual < fst range \/ snd range < actual)
  /\ (forall e, In e (ValidationResult.errors result) ->
        ValidationError.code e = WORD_COUNT_MISMATCH ->
        ValidationError.field e = u "wordCount")
  /\ getExpectedWordCountRange SHORT = (80, 220)
  /\ getExpectedWordCountRange MEDIUM = (180, 420)
  /\ getExpectedWordCountRange LONG = (350, 650).
Proof.
  intros Hp Hs. cbv zeta.
  assert (E : ValidationResult.errors
                (validateStoryResponse rawResponse expectedLength config)
              = contentErrors data expectedLength config).
  { unfold validateStoryResponse. now rewrite Hp, Hs. }
  rewrite E. clear E.
  destruct (contentErrors_split data expectedLength config)
    as (safety & message & Hsafety & ->).
  set (actual := countWords (ValidatedStoryResponse.content data)).
  set (range := getExpectedWordCountRange expectedLength).
  assert (Hother : forall e,
             In e (safety ++
                   validateContentQuality (ValidatedStoryResponse.content data)
                     config
                   ++ validateTurkishContent
                        (ValidatedStoryResponse.content data)) ->
             ValidationError.code e <> WORD_COUNT_MISMATCH).
  { intros e H. apply in_app_or in H. destruct H as [H | H];
      [now apply Hsafety|].
    apply in_app_or in H. destruct H as [H | H];
      [now apply quality_codes in H | now apply language_codes in H]. }
  destruct (Nat.ltb actual (fst range) || Nat.ltb (snd range) actual) eqn:Eout.
  - apply orb_true_iff in Eout. rewrite !Nat.ltb_lt in Eout.
    split; [split; [tauto|] | split; [|repeat split]].
    + intros _.
      exists (ValidationError.mk (u "wordCount") message WORD_COUNT_MISMATCH).
      split; [|reflexivity].
      apply in_or_app. right. now left.
    + intros e H Hc.
      apply in_app_or in H. destruct H as [H | H];
        [now apply Hsafety in H|].
      cbn [app] in H. destruct H as [<- | H]; [reflexivity|].
      apply in_app_or in H. destruct H as [H | H];
        [now apply quality_codes in H | now apply language_codes in H].
  - apply orb_false_iff in Eout. rewrite !Nat.ltb_ge in Eout.
    cbn [app].
    split; [split | split; [|repeat split]].
    + intros (e & H & Hc). now apply Hother in H.
    + lia.
    + intros e H Hc. now apply Hother in H.
Qed.

(** A response whose content has the given number of words. *)
Definition response_of_words (n : nat) : jsstring :=
  q "{'title':'Kelime sayısı','content':'"
  ++ Array_join (u " ") (repeat (u "bir") n)
  ++ q "','wordCount':100,'theme':'fantasy','language':'tr'}".

Definition data_of_words (n : nat) : ValidatedStoryResponse.t :=
  ValidatedStoryResponse.mk (u "Kelime sayısı")
    (Array_join (u " ") (repeat (u "bir") n)) 100 FANTASY TR.

Definition parsed_of_words (n : nat) : json :=
  JObject [(u "title", JString (u "Kelime sayısı"));
           (u "content", JString (Array_join (u " ") (repeat (u "bir") n)));
           (u "wordCount", JNumber 100);
           (u "theme", JString (u "fantasy"));
           (u "language", JString (u "tr"))].

Lemma response_219_parses :
  JSON_parse (response_of_words 219) = Some (parsed_of_words 219).
Proof. vm_compute. reflexivity. Qed.

Lemma response_219_conforms :
  safeParse (parsed_of_words 219) = inl (data_of_words 219).
Proof. vm_compute. reflexivity. Qed.

(** The boundary under the expected length short: contents of 219 and of
    220 words pass the word-count check, contents of 79 and of 221 words
    fail it. *)
Lemma short_boundaries :
  map (fun n =>
         (countWords (ValidatedStoryResponse.content (data_of_words n)),
          existsb (fun e => String_eqb (ValidationError.code e)
                                       WORD_COUNT_MISMATCH)
                  (ValidationResult.errors
                     (validateStoryResponse (response_of_words n) SHORT
                        DEFAULT_VALIDATION_CONFIG))))
      [79; 80; 219; 220; 221]
  = [(79, true); (80, false); (219, false); (220, false); (221, true)].
Proof. vm_compute. reflexivity. Qed.

End WordCountFacts.

(* ================================================================== *)
(** * Properties of the prompt builder and of the retry loop           *)
(* ================================================================== *)

Module PromptFacts.

Import StoryPrompt.

(** The request of the scenario. *)
Definition scenarioRequest (token : jsstring) : StoryRequest.t :=
  StoryRequest.mk (u "Ahmet") 7 ADVENTURE SHORT
    (Some [u "köpek"; u "orman"]) token.

(** C8: for the request Ahmet, 7, adventure, short, elements köpek and
    orman, the prompt of the default template contains the name, the age,
    the description of the adventure theme, the elements joined by a comma
    and a space, and the word JSON. *)
Theorem scenario_prompt_contains (token : jsstring) :
  let prompt := buildStoryPrompt (scenarioRequest token) DEFAULT_TEMPLATE in
  String_includes prompt (u "Ahmet") = true
  /\ String_includes prompt (u "7") = true
  /\ String_includes prompt
       (PromptTemplate.themePrompts DEFAULT_TEMPLATE ADVENTURE) = true
  /\ String_includes prompt (u "köpek, orman") = true
  /\ String_includes prompt (u "JSON") = true.
Proof. vm_compute. repeat split; reflexivity. Qed.

End PromptFacts.

Module RetryFacts.

Import Validation StoryApi.

Section Run.

Variable gemini : Gemini.
Variable request : StoryRequest.t.

(** One iteration of the loop. *)
Lemma attempts_step (remaining attempt : nat) (lastError : jsstring) :
  attempts gemini request (S remaining) attempt lastError
  = let prompt :=
      if Nat.eqb attempt 0
      then StoryPrompt.buildStoryPrompt request StoryPrompt.DEFAULT_TEMPLATE
      else StoryPrompt.buildRetryPrompt request lastError in
    match gemini prompt attempt with
    | Rejected message =>
        after (prompt, attempt)
          (attempts gemini request remaining (S attempt) message)
    | Resolved geminiResponse =>
        let validation :=
          validateStoryResponse (GeminiResponse.content geminiResponse)
            (StoryRequest.length request) DEFAULT_VALIDATION_CONFIG in
        match ValidationResult.valid validation,
              ValidationResult.data validation with
        | true, Some data =>
            (Generation.mk true
               (Some (Story.mk [] (ValidatedStoryResponse.title data)
                        (ValidatedStoryResponse.content data)
                        (StoryRequest.childName request)
                        (StoryRequest.theme request)
                        (StoryRequest.length request)
                        (ValidatedStoryResponse.wordCount data) []))
               (Some (StoryMetadata.mk 0 (u "gemini-pro")
                        (calculateSafetyScore
                           (GeminiResponse.safetyRatings geminiResponse))
                        (ValidatedStoryResponse.language data) (u "1.0.0")))
               None,
             [(prompt, attempt)])
        | _, _ =>
            let lastError' :=
              Array_join (u ", ")
                (map ValidationError.message
                     (ValidationResult.errors validation)) in
            if negb (isRecoverableError (ValidationResult.errors validation))
            then (failed lastError', [(prompt, attempt)])
            else after (prompt, attempt)
                   (attempts gemini request remaining (S attempt) lastError')
        end
    end.
Proof. reflexivity. Qed.

(** A valid result carries its data. *)
Lemma valid_has_data (rawResponse : jsstring) (expectedLength : StoryLength)
  (config : ValidationConfig.t) :
  ValidationResult.valid
    (validateStoryResponse rawResponse expectedLength config) = true ->
  exists data,
    ValidationResult.data
      (validateStoryResponse rawResponse expectedLength config) = Some data.
Proof.
  unfold validateStoryResponse.
  destruct (JSON_parse rawResponse) as [parsed|];
    [|cbn [ValidationResult.valid]; discriminate].
  destruct (safeParse parsed) as [data|issues];
    [|cbn [ValidationResult.valid]; discriminate].
  cbn [ValidationResult.valid ValidationResult.data].
  intros ->. now exists data.
Qed.

(** The last iteration calls the generator once, with the retry prompt. *)
Lemma last_attempt_calls (lastError : jsstring) :
  snd (attempts gemini request 1 1 lastError)
  = [(StoryPrompt.buildRetryPrompt request lastError, 1)].
Proof.
  rewrite attempts_step. cbn [Nat.eqb]. cbv zeta.
  generalize (StoryPrompt.buildRetryPrompt request lastError). intros prompt.
  destruct (gemini prompt 1) as [response|message]; [|reflexivity].
  generalize (validateStoryResponse (GeminiResponse.content response)
                (StoryRequest.length request) DEFAULT_VALIDATION_CONFIG).
  intros validation.
  destruct (ValidationResult.valid validation),
           (ValidationResult.data validation),
           (isRecoverableError (ValidationResult.errors validation));
    reflexivity.
Qed.

(** C2: a run calls the generator at most twice.  The first call has
    attempt number 0 and the prompt of [buildStoryPrompt].  A second call
    is made exactly when the first call threw or its response failed
    validation with recoverable errors; it has attempt number 1 and the
    prompt of [buildRetryPrompt] with the error text of the first attempt
    (the message thrown, or the messages of the validation errors joined).
    When the first response is valid the run succeeds after one call; when
    its errors are not recoverable the run fails after one call. *)
Theorem retry_policy :
  let first :=
    StoryPrompt.buildStoryPrompt request StoryPrompt.DEFAULT_TEMPLATE in
  let run := generateStoryWithRetry gemini request in
  length (snd run) <= 2
  /\ hd_error (snd run) = Some (first, 0)
  /\ match gemini first 0 with
     | Rejected message =>
         tl (snd run) = [(StoryPrompt.buildRetryPrompt request message, 1)]
     | Resolved response =>
         let validation :=
           validateStoryResponse (GeminiResponse.content response)
             (StoryRequest.length request) DEFAULT_VALIDATION_CONFIG in
         let errorText :=
           Array_join (u ", ")
             (map ValidationError.message
                  (ValidationResult.errors validation)) in
         if ValidationResult.valid validation
         then snd run = [(first, 0)] /\ Generation.success (fst run) = true
         else if isRecoverableError (ValidationResult.errors validation)
         then tl (snd run)
              = [(StoryPrompt.buildRetryPrompt request errorText, 1)]
         else snd run = [(first, 0)] /\ Generation.success (fst run) = false
     end.
Proof.
  cbv zeta. unfold generateStoryWithRetry. rewrite attempts_step.
  cbn [Nat.eqb]. cbv zeta.
  generalize (StoryPrompt.buildStoryPrompt request
                StoryPrompt.DEFAULT_TEMPLATE). intros first.
  destruct (gemini first 0) as [response|message].
  - pose proof (valid_has_data (GeminiResponse.content response)
                  (StoryRequest.length request) DEFAULT_VALIDATION_CONFIG)
      as Hdata.
    destruct (ValidationResult.valid
                (validateStoryResponse (GeminiResponse.content response)
                   (StoryRequest.length request) DEFAULT_VALIDATION_CONFIG))
      eqn:Hvalid.
    + destruct (Hdata eq_refl) as [data ->].
      cbn [fst snd length hd_error Generation.success]. repeat split. lia.
    + cbv beta iota.
      destruct (isRecoverableError _) eqn:Hrec; cbn [negb].
      * unfold after. cbn [fst snd length hd_error tl].
        rewrite last_attempt_calls. cbn [length]. repeat split. lia.
      * cbn [fst snd length hd_error failed Generation.success].
        repeat split. lia.
  - unfold after. cbn [fst snd length hd_error tl].
    rewrite last_attempt_calls. cbn [length]. repeat split. lia.
Qed.

End Run.

(** A response that conforms to the schema and whose content names a
    blocked term and is much too short, and a generator that gives it at
    every call. *)
Definition unsafe_response : jsstring :=
  q "{'title':'Kavga Masalı','content':'Bir gün ormanda büyük bir kavga çıktı ve bütün hayvanlar çok şaşırdı.','wordCount':60,'theme':'adventure','language':'tr'}".

Definition unsafe_generator : Gemini :=
  fun _ _ => Resolved (GeminiResponse.mk unsafe_response (u "STOP") []).

(** C2, counterexample: the first response fails the content safety
    check, with an error that is not recoverable, and the generator is
    called a second time all the same, because the same validation also
    reports a recoverable error (the word count). *)
Lemma safety_failure_is_retried :
  let errors :=
    ValidationResult.errors
      (validateStoryResponse unsafe_response SHORT
         DEFAULT_VALIDATION_CONFIG) in
  let run :=
    generateStoryWithRetry unsafe_generator
      (StoryRequest.mk (u "Ahmet") 7 ADVENTURE SHORT None []) in
  (exists e, hd_error errors = Some e
             /\ ValidationError.code e = CONTENT_SAFETY_FAILED
             /\ isRecoverableError [e] = false)
  /\ map snd (snd run) = [0; 1]
  /\ Generation.success (fst run) = false.
Proof.
  vm_compute. split; [|split; reflexivity].
  eexists. split; [reflexivity|]. split; reflexivity.
Qed.

End RetryFacts.

(* ================================================================== *)
(** * More properties of the guard                                     *)
(* ================================================================== *)

Module GuardMore.

Import Guard GuardFacts.

(** Does the rule match the content? *)
Definition ruleMatches (content : jsstring) (rule : GuardRule.t) : bool :=
  match String_match content (GuardRule.pattern rule) with
  | Some (_ :: _) => true
  | _ => false
  end.

Definition isBlocking (rule : GuardRule.t) : bool :=
  Severity_eqb (GuardRule.severity rule) block.

(** [match] never returns an empty array. *)
Lemma String_match_not_empty (s : jsstring) (re : RegExp) :
  String_match s re <> Some [].
Proof.
  unfold String_match. destruct (global re).
  - destruct (match_all re (S (length s)) None s); discriminate.
  - destruct (find_first re None s); discriminate.
Qed.

Lemma ruleMatches_false (content : jsstring) (rule : GuardRule.t) :
  ruleMatches content rule = false
  <-> String_match content (GuardRule.pattern rule) = None.
Proof.
  unfold ruleMatches.
  pose proof (String_match_not_empty content (GuardRule.pattern rule)) as H.
  destruct (String_match content (GuardRule.pattern rule)) as [[|m ms]|];
    split; congruence.
Qed.

(** The loop of [checkRegexPatterns] adds one issue for each rule that
    matches and counts the blocking ones among them. *)
Lemma scanRules_counts (content : jsstring) (rules : list GuardRule.t) :
  forall issues n,
    length (fst (scanRules content rules issues n))
    = length issues + length (filter (ruleMatches content) rules)
    /\ snd (scanRules content rules issues n)
       = n + length (filter (fun r => ruleMatches content r && isBlocking r)
                            rules).
Proof.
  induction rules as [|rule rules IH]; intros issues n; cbn [scanRules filter].
  - cbn [fst snd length]. lia.
  - destruct (ruleMatches content rule) eqn:Em; unfold ruleMatches in Em;
      destruct (String_match content (GuardRule.pattern rule)) as [[|m ms]|];
      try discriminate Em; cbn [andb]; try apply IH.
    destruct (IH (issues ++
                  [GuardRule.description rule ++ u ": "
                   ++ len_text (m :: ms) ++ u " matches found"])
                 (if Severity_eqb (GuardRule.severity rule) block
                  then S n else n)) as [H1 H2].
    rewrite H1, H2, length_app. unfold isBlocking.
    destruct (Severity_eqb (GuardRule.severity rule) block);
      cbn [length]; lia.
Qed.

Lemma Severity_eqb_eq (a b : Severity) : Severity_eqb a b = true <-> a = b.
Proof. destruct a, b; simpl; split; congruence. Qed.

(** The regex sub-check is safe exactly when no rule of severity block
    matches. *)
Lemma regex_safe_iff (content : jsstring) (rules : list GuardRule.t) :
  Sub.safe (checkRegexPatterns content rules) = true
  <-> forall rule, In rule rules -> GuardRule.severity rule = block ->
        String_match content (GuardRule.pattern rule) = None.
Proof.
  unfold checkRegexPatterns.
  destruct (scanRules_counts content rules [] 0) as [H1 H2].
  destruct (scanRules content rules [] 0) as [issues blocking].
  cbn [fst snd length Sub.safe Sub.issues] in *.
  rewrite Nat.eqb_eq. subst blocking. cbn [plus].
  rewrite length_zero_iff_nil. split.
  - intros Hnil rule Hin Hsev. apply ruleMatches_false.
    destruct (ruleMatches content rule) eqn:E; [|reflexivity].
    assert (Hf : In rule (filter (fun r => ruleMatches content r && isBlocking r)
                                 rules)).
    { apply filter_In. split; [assumption|]. rewrite E. unfold isBlocking.
      rewrite Hsev. reflexivity. }
    rewrite Hnil in Hf. destruct Hf.
  - intros H.
    destruct (filter (fun r => ruleMatches content r && isBlocking r) rules)
      as [|r rs] eqn:E; [reflexivity|].
    assert (Hr : In r (r :: rs)) by now left.
    rewrite <- E in Hr. apply filter_In in Hr. destruct Hr as [Hin Hb].
    apply andb_true_iff in Hb. destruct Hb as [Hm Hbl].
    apply Severity_eqb_eq in Hbl.
    pose proof (proj2 (ruleMatches_false content r) (H r Hin Hbl)).
    congruence.
Qed.

(** X1: for any list of rules, the regex sub-check is safe exactly when no
    rule of severity block matches; rules of severity warn or flag only add
    issues, one for each rule that matches. *)
Theorem checkRegexPatterns_safe_iff (content : jsstring)
  (rules : list GuardRule.t) :
  (Sub.safe (checkRegexPatterns content rules) = true
   <-> forall rule, In rule rules -> GuardRule.severity rule = block ->
         String_match content (GuardRule.pattern rule) = None)
  /\ length (Sub.issues (checkRegexPatterns content rules))
     = length (filter (ruleMatches content) rules).
Proof.
  split; [apply regex_safe_iff|].
  unfold checkRegexPatterns.
  destruct (scanRules_counts content rules [] 0) as [H1 H2].
  destruct (scanRules content rules [] 0) as [issues blocking].
  cbn [fst snd length Sub.safe Sub.issues] in *. lia.
Qed.

(** X2: the pre-check of user input is safe exactly when the input
    contains no term of the default block list and matches no default rule
    of severity block. *)
Theorem preCheckUserInput_safe_iff (input : jsstring) :
  SafetyCheckResult.safe (preCheckUserInput input) = true
  <-> (forall term, In term DEFAULT_BLOCKED_TERMS ->
         String_includes (toLowerCase input) (toLowerCase term) = false)
      /\ (forall rule, In rule DEFAULT_GUARD_RULES ->
            GuardRule.severity rule = block ->
            String_match input (GuardRule.pattern rule) = None).
Proof.
  unfold preCheckUserInput, checkContentSafety.
  change (runGuards input _)
    with [checkBlockedTerms input DEFAULT_BLOCKED_TERMS;
          checkRegexPatterns input (filter isBlocking DEFAULT_GUARD_RULES)].
  cbn [SafetyCheckResult.safe forallb].
  rewrite andb_true_r, andb_true_iff, checkBlockedTerms_safe, Nat.eqb_eq,
    length_zero_iff_nil.
  rewrite (regex_safe_iff input (filter isBlocking DEFAULT_GUARD_RULES)).
  unfold extractBlockedTerms.
  split; intros [Ht Hr]; split.
  - intros term Hin.
    destruct (String_includes (toLowerCase input) (toLowerCase term)) eqn:E;
      [|reflexivity].
    assert (Hf : In term (filter (fun t => String_includes (toLowerCase input)
                                             (toLowerCase t))
                                 DEFAULT_BLOCKED_TERMS))
      by (apply filter_In; now split).
    rewrite Ht in Hf. destruct Hf.
  - intros rule Hin Hsev. apply Hr; [|assumption].
    apply filter_In. split; [assumption|]. unfold isBlocking.
    now rewrite Hsev.
  - destruct (filter _ DEFAULT_BLOCKED_TERMS) as [|t ts] eqn:E; [reflexivity|].
    assert (Hin : In t (t :: ts)) by now left.
    rewrite <- E in Hin. apply filter_In in Hin. destruct Hin as [Hin Hinc].
    rewrite (Ht t Hin) in Hinc. discriminate.
  - intros rule Hin Hsev. apply filter_In in Hin. now apply Hr.
Qed.

(** ** The length and repetition sub-checks *)











(** X4: with none of the four guards enabled every content is safe, the
    confidence is NaN (0 divided by 0) and no category is reported, while
    blockedTerms still lists the terms found. *)
Theorem no_guard_enabled (content : jsstring) (config : Config.t) :
  (forall guard,
     In guard (map u ["blocked_terms"; "regex_patterns"; "length_check";
                      "repetition_check"]%string) ->
     Array_includes (Config.enabledGuards config) guard = false) ->
  let verdict := checkContentSafety content config in
  SafetyCheckResult.safe verdict = true
  /\ is_nan (SafetyCheckResult.confidence verdict) = true
  /\ SafetyCheckResult.categories verdict = []
  /\ SafetyCheckResult.blockedTerms verdict
     = extractBlockedTerms content (Config.blockedTerms config).
Proof.
  intros H. cbv zeta.
  assert (H1 := H (u "blocked_terms") (or_introl eq_refl)).
  assert (H2 := H (u "regex_patterns") (or_intror (or_introl eq_refl))).
  assert (H3 := H (u "length_check")
                  (or_intror (or_intror (or_introl eq_refl)))).
  assert (H4 := H (u "repetition_check")
                  (or_intror (or_intror (or_intror (or_introl eq_refl))))).
  unfold checkContentSafety, runGuards.
  rewrite H1, H2, H3, H4. repeat split.
Qed.

Definition noGuards : Config.t :=
  Config.mk DEFAULT_BLOCKED_TERMS DEFAULT_GUARD_RULES 1%float [].

Lemma noGuards_enables_nothing (guard : jsstring) :
  In guard (map u ["blocked_terms"; "regex_patterns"; "length_check";
                   "repetition_check"]%string) ->
  Array_includes (Config.enabledGuards noGuards) guard = false.
Proof. reflexivity. Qed.

Lemma no_guard_enabled_witness :
  let verdict := checkContentSafety (u "şiddet") noGuards in
  SafetyCheckResult.safe verdict = true
  /\ is_nan (SafetyCheckResult.confidence verdict) = true
  /\ SafetyCheckResult.categories verdict = []
  /\ SafetyCheckResult.blockedTerms verdict
     = extractBlockedTerms (u "şiddet") (Config.blockedTerms noGuards).
Proof.
  exact (no_guard_enabled (u "şiddet") noGuards noGuards_enables_nothing).
Defined.

(** ** Categories *)

(** The category tags and the keywords that select them. *)
Definition tagRules : list (jsstring * list jsstring) :=
  [(u "inappropriate_content", [u "Blocked term"]);
   (u "violence", [u "violence"]);
   (u "fear", [u "fear"; u "scary"]);
   (u "quality_issues", [u "repetition"]);
   (u "format_issues", [u "length"; u "structure"])].

(** An issue selects a tag when it contains one of the keywords of the
    tag. *)
Definition selects (issue tag : jsstring) : Prop :=
  exists keywords keyword,
    In (tag, keywords) tagRules /\ In keyword keywords
    /\ String_includes issue keyword = true.

(** The body of the loop of [extractCategories]. *)
Definition addCategories (categories : list jsstring) (issue : jsstring)
  : list jsstring :=
  let c1 := if String_includes issue (u "Blocked term")
            then Set_add (u "inappropriate_content") categories
            else categories in
  let c2 := if String_includes issue (u "violence")
            then Set_add (u "violence") c1 else c1 in
  let c3 := if String_includes issue (u "fear")
               || String_includes issue (u "scary")
            then Set_add (u "fear") c2 else c2 in
  let c4 := if String_includes issue (u "repetition")
            then Set_add (u "quality_issues") c3 else c3 in
  if String_includes issue (u "length")
     || String_includes issue (u "structure")
  then Set_add (u "format_issues") c4 else c4.

Lemma extractCategories_fold (issues : list jsstring) :
  extractCategories issues = fold_left addCategories issues [].
Proof. reflexivity. Qed.

Lemma In_Set_add (x y : jsstring) (set : list jsstring) :
  In y (Set_add x set) <-> y = x \/ In y set.
Proof.
  unfold Set_add. destruct (Array_includes set x) eqn:E.
  - apply Array_includes_In in E. split; [tauto|].
    intros [-> | H]; assumption.
  - rewrite in_app_iff. cbn [In]. intuition.
Qed.

Lemma NoDup_Set_add (x : jsstring) (set : list jsstring) :
  NoDup set -> NoDup (Set_add x set).
Proof.
  intros H. unfold Set_add. destruct (Array_includes set x) eqn:E.
  - assumption.
  - apply NoDup_app; [assumption | repeat constructor; intros [] |].
    intros y Hy [<- | []]. apply Array_includes_In in Hy. congruence.
Qed.

Lemma In_cond_add (b : bool) (x y : jsstring) (set : list jsstring) :
  In y (if b then Set_add x set else set) <-> (b = true /\ y = x) \/ In y set.
Proof.
  destruct b; [rewrite In_Set_add|]; intuition congruence.
Qed.

Lemma NoDup_cond_add (b : bool) (x : jsstring) (set : list jsstring) :
  NoDup set -> NoDup (if b then Set_add x set else set).
Proof. destruct b; [apply NoDup_Set_add | trivial]. Qed.

Lemma selects_iff (issue tag : jsstring) :
  selects issue tag
  <-> (String_includes issue (u "Blocked term") = true
       /\ tag = u "inappropriate_content")
      \/ (String_includes issue (u "violence") = true /\ tag = u "violence")
      \/ (String_includes issue (u "fear") || String_includes issue (u "scary")
          = true /\ tag = u "fear")
      \/ (String_includes issue (u "repetition") = true
          /\ tag = u "quality_issues")
      \/ (String_includes issue (u "length")
          || String_includes issue (u "structure") = true
          /\ tag = u "format_issues").
Proof.
  unfold selects, tagRules. rewrite !orb_true_iff. split.
  - intros (keywords & keyword & Hin & Hk & Hinc). cbn [In] in Hin.
    destruct Hin as [E | [E | [E | [E | [E | []]]]]];
      inversion E; subst; cbn [In] in Hk;
      intuition (subst; auto).
  - intros [[H ->] | [[H ->] | [[[H | H] ->] | [[H ->] | [[H | H] ->]]]]];
      do 2 eexists; cbn [In];
      (split; [eauto 10 | split; [| exact H]; cbn [In]; auto]).
Qed.

Lemma In_addCategories (categories : list jsstring) (issue tag : jsstring) :
  In tag (addCategories categories issue)
  <-> In tag categories \/ selects issue tag.
Proof.
  unfold addCategories. cbv zeta.
  rewrite !In_cond_add, selects_iff. tauto.
Qed.

Lemma NoDup_addCategories (categories : list jsstring) (issue : jsstring) :
  NoDup categories -> NoDup (addCategories categories issue).
Proof.
  intros H. unfold addCategories. cbv zeta.
  now repeat apply NoDup_cond_add.
Qed.

Lemma fold_addCategories (issues : list jsstring) :
  forall categories,
    NoDup categories ->
    NoDup (fold_left addCategories issues categories)
    /\ forall tag,
         In tag (fold_left addCategories issues categories)
         <-> In tag categories
             \/ exists issue, In issue issues /\ selects issue tag.
Proof.
  induction issues as [|issue issues IH]; intros categories Hnd;
    cbn [fold_left].
  - split; [assumption|]. intros tag. split; [tauto|].
    intros [H | (i & [] & _)]. assumption.
  - destruct (IH (addCategories categories issue)
                 (NoDup_addCategories _ _ Hnd)) as [H1 H2].
    split; [assumption|]. intros tag. rewrite H2, In_addCategories.
    cbn [In]. split.
    + intros [[H | H] | (i & Hi & Hs)]; eauto.
    + intros [H | (i & [<- | Hi] & Hs)]; eauto.
Qed.

(** A tag is among the categories exactly when an issue selects it. *)
Lemma In_extractCategories (issues : list jsstring) (tag : jsstring) :
  In tag (extractCategories issues)
  <-> exists issue, In issue issues /\ selects issue tag.
Proof.
  rewrite extractCategories_fold.
  destruct (fold_addCategories issues [] (NoDup_nil _)) as [_ H2].
  rewrite H2. cbn [In]. tauto.
Qed.

(** X5: the categories of a list of issues have no duplicates, and a tag
    is among them exactly when some issue contains one of its keywords
    (compared case-sensitively): Blocked term for inappropriate_content,
    violence for violence, fear or scary for fear, repetition for
    quality_issues, length or structure for format_issues. *)
Theorem extractCategories_spec (issues : list jsstring) :
  NoDup (extractCategories issues)
  /\ forall tag,
       In tag (extractCategories issues)
       <-> exists issue, In issue issues /\ selects issue tag.
Proof.
  split; [|intros tag; apply In_extractCategories].
  rewrite extractCategories_fold.
  apply (fold_addCategories issues [] (NoDup_nil _)).
Qed.

Lemma blocked_issue_selects (term : jsstring) :
  selects (u "Blocked term found: " ++ term) (u "inappropriate_content").
Proof.
  exists [u "Blocked term"], (u "Blocked term").
  split; [now left | split; [now left | reflexivity]].
Qed.

Lemma categories_default (content : jsstring) :
  SafetyCheckResult.categories (checkContentSafety content DEFAULT_CONFIG)
  = extractCategories (flat_map Sub.issues (defaultResults content)).
Proof. reflexivity. Qed.

Lemma checkBlockedTerms_issues (content : jsstring) (terms : list jsstring) :
  Sub.issues (checkBlockedTerms content terms)
  = map (fun term => u "Blocked term found: " ++ term)
        (extractBlockedTerms content terms).
Proof. reflexivity. Qed.

Lemma blocked_issue_reported (content term : jsstring) :
  In term (extractBlockedTerms content DEFAULT_BLOCKED_TERMS) ->
  In (u "Blocked term found: " ++ term)
     (flat_map Sub.issues (defaultResults content)).
Proof.
  intros H. unfold defaultResults. cbn [flat_map]. apply in_or_app. left.
  rewrite checkBlockedTerms_issues.
  apply (in_map (fun term => u "Blocked term found: " ++ term)). exact H.
Qed.

(** X6: under the default configuration, whenever a blocked term is found
    the verdict carries the category inappropriate_content. *)
Theorem blocked_term_is_categorised (content : jsstring) :
  SafetyCheckResult.blockedTerms (checkContentSafety content DEFAULT_CONFIG)
  <> [] ->
  In (u "inappropriate_content")
     (SafetyCheckResult.categories (checkContentSafety content DEFAULT_CONFIG)).
Proof.
  rewrite blockedTerms_default, categories_default. intros Hne.
  apply In_extractCategories.
  destruct (extractBlockedTerms content DEFAULT_BLOCKED_TERMS) as [|t ts] eqn:E;
    [congruence|].
  exists (u "Blocked term found: " ++ t).
  split; [|apply blocked_issue_selects].
  apply blocked_issue_reported. rewrite E. now left.
Qed.

Lemma kavga_found :
  SafetyCheckResult.blockedTerms
    (checkContentSafety (u "ŞİDDET ve KAVGA") DEFAULT_CONFIG) <> [].
Proof. vm_compute. discriminate. Qed.

Lemma blocked_term_is_categorised_witness :
  In (u "inappropriate_content")
     (SafetyCheckResult.categories
        (checkContentSafety (u "ŞİDDET ve KAVGA") DEFAULT_CONFIG)).
Proof.
  exact (blocked_term_is_categorised (u "ŞİDDET ve KAVGA") kavga_found).
Defined.

End GuardMore.

(* ================================================================== *)
(** * More properties of the validation                                *)
(* ================================================================== *)

Module ValidationMore.

Import Zod Validation GuardFacts ValidationFacts SchemaFacts.

(** The schema accepts exactly the values that conform to it. *)
Lemma safeParse_conforms (parsed : json) :
  (exists data, safeParse parsed = inl data) <-> spec_conforms parsed = true.
Proof.
  destruct parsed as [| b | x | s | l | members];
    try (split; [intros [d H]; discriminate H | discriminate]).
  pose proof (safeParse_object members) as H.
  pose proof (schemaIssues_nil members) as Hn.
  destruct (schemaIssues members) as [|i more].
  - split; [intros _; now apply Hn | intros _; exact H].
  - split.
    + intros [d Hd]. rewrite H in Hd. discriminate.
    + intros Hc. apply Hn in Hc. discriminate.
Qed.

(** A rejection by the schema carries at least one issue. *)
Lemma safeParse_issues_not_empty (parsed : json) (issues : list ZodIssue.t) :
  safeParse parsed = inr issues -> issues <> [].
Proof.
  destruct parsed as [| b | x | s | l | members];
    try (intros [= <-]; discriminate).
  pose proof (safeParse_object members) as H.
  destruct (schemaIssues members) as [|i more].
  - destruct H as [d ->]. discriminate.
  - rewrite H. intros [= <-]. discriminate.
Qed.

(** X7: whatever the text, the result is valid exactly when it has no
    error, and exactly when it carries data: there is no valid result
    without data and no data beside errors. *)
Theorem valid_iff_no_error_iff_data (rawResponse : jsstring)
  (expectedLength : StoryLength) (config : ValidationConfig.t) :
  let result := validateStoryResponse rawResponse expectedLength config in
  (ValidationResult.valid result = true
   <-> ValidationResult.errors result = [])
  /\ (ValidationResult.valid result = true
      <-> exists data, ValidationResult.data result = Some data).
Proof.
  cbv zeta. unfold validateStoryResponse.
  destruct (JSON_parse rawResponse) as [parsed|].
  - destruct (safeParse parsed) as [data|issues] eqn:Hs.
    + cbn [ValidationResult.valid ValidationResult.data
           ValidationResult.errors].
      rewrite Nat.eqb_eq, length_zero_iff_nil.
      destruct (contentErrors data expectedLength config) as [|e es].
      * split; [tauto|]. split; [intros _; now exists data | reflexivity].
      * split; [tauto|]. cbn [length Nat.eqb].
        split; [discriminate | intros [d H]; discriminate H].
    + cbn [ValidationResult.valid ValidationResult.data
           ValidationResult.errors].
      apply safeParse_issues_not_empty in Hs.
      destruct issues as [|i more]; [congruence|].
      split; split; try discriminate. intros [d H]. discriminate H.
  - cbn [ValidationResult.valid ValidationResult.data ValidationResult.errors].
    split; split; try discriminate. intros [d H]. discriminate H.
Qed.

Lemma parseString_Some (path : list jsstring) (lo hi : nat)
  (m1 m2 m3 : jsstring) (v : option json) (s : jsstring) :
  fst (parseString path lo hi m1 m2 m3 v) = Some s -> v = Some (JString s).
Proof.
  unfold parseString.
  destruct v as [[| b | x | t | l | m]|]; cbn [fst]; congruence.
Qed.

Lemma parseNumber_Some (path : list jsstring) (lo hi : float)
  (m1 m2 m3 : jsstring) (v : option json) (x : float) :
  fst (parseNumber path lo hi m1 m2 m3 v) = Some x -> v = Some (JNumber x).
Proof.
  unfold parseNumber.
  destruct v as [[| b | y | t | l | m]|]; cbn [fst]; try congruence.
  destruct (is_nan y); cbn [fst]; congruence.
Qed.

Lemma parseEnum_Some {E} (path : list jsstring) (member : json -> option E)
  (m : jsstring) (v : option json) (e : E) :
  fst (parseEnum path member m v) = Some e ->
  exists w, v = Some w /\ member w = Some e.
Proof.
  unfold parseEnum. destruct v as [w|]; cbn [fst]; [|discriminate].
  destruct (member w) as [e'|] eqn:E'; cbn [fst]; [|discriminate].
  intros [= <-]. now exists w.
Qed.

(** The data that the schema returns holds the five fields of the object. *)
Lemma safeParse_data (members : list (jsstring * json))
  (data : ValidatedStoryResponse.t) :
  safeParse (JObject members) = inl data ->
  lookup (u "title") members
  = Some (JString (ValidatedStoryResponse.title data))
  /\ lookup (u "content") members
     = Some (JString (ValidatedStoryResponse.content data))
  /\ lookup (u "wordCount") members
     = Some (JNumber (ValidatedStoryResponse.wordCount data))
  /\ (exists v, lookup (u "theme") members = Some v
                /\ StoryTheme_of v = Some (ValidatedStoryResponse.theme data))
  /\ (exists v, lookup (u "language") members = Some v
                /\ Language_of v
                   = Some (ValidatedStoryResponse.language data)).
Proof.
  unfold safeParse, get.
  pose proof (parseString_Some [u "title"] 5 100 (u "Başlık çok kısa")
                (u "Başlık çok uzun") (u "Başlık boş olamaz")
                (lookup (u "title") members)) as V1.
  pose proof (parseString_Some [u "content"] 50 3000
                (u "İçerik çok kısa (minimum 50 karakter)")
                (u "İçerik çok uzun (maksimum 3000 karakter)")
                (u "İçerik boş olamaz")
                (lookup (u "content") members)) as V2.
  pose proof (parseNumber_Some [u "wordCount"] 50 800
                (u "Kelime sayısı çok az") (u "Kelime sayısı çok fazla")
                (u "Kelime sayısı tam sayı olmalı")
                (lookup (u "wordCount") members)) as V3.
  pose proof (parseEnum_Some [u "theme"] StoryTheme_of (u "Geçersiz tema")
                (lookup (u "theme") members)) as V4.
  pose proof (parseEnum_Some [u "language"] Language_of
                (u "Dil Türkçe (tr) veya İngilizce (en) olmalı")
                (lookup (u "language") members)) as V5.
  fold (schema_title (lookup (u "title") members)) in V1.
  fold (schema_content (lookup (u "content") members)) in V2.
  fold (schema_wordCount (lookup (u "wordCount") members)) in V3.
  fold (schema_theme (lookup (u "theme") members)) in V4.
  fold (schema_language (lookup (u "language") members)) in V5.
  destruct (schema_title (lookup (u "title") members)) as [t i1].
  destruct (schema_content (lookup (u "content") members)) as [c i2].
  destruct (schema_wordCount (lookup (u "wordCount") members)) as [w i3].
  destruct (schema_theme (lookup (u "theme") members)) as [th i4].
  destruct (schema_language (lookup (u "language") members)) as [l i5].
  cbn [fst] in *.
  destruct (i1 ++ i2 ++ i3 ++ i4 ++ i5); [|discriminate].
  destruct t as [t|]; [|discriminate].
  destruct c as [c|]; [|discriminate].
  destruct w as [w|]; [|discriminate].
  destruct th as [th|]; [|discriminate].
  destruct l as [l|]; [|discriminate].
  intros [= <-]. cbn [ValidatedStoryResponse.title
    ValidatedStoryResponse.content ValidatedStoryResponse.wordCount
    ValidatedStoryResponse.theme ValidatedStoryResponse.language].
  rewrite (V1 t eq_refl), (V2 c eq_refl), (V3 w eq_refl).
  repeat split; [apply (V4 th eq_refl) | apply (V5 l eq_refl)].
Qed.

(** A valid result comes from a text that parsed, passed the schema and
    raised no error in steps 3 to 6. *)
Lemma valid_content_checked (rawResponse : jsstring)
  (expectedLength : StoryLength) (config : ValidationConfig.t) :
  ValidationResult.valid
    (validateStoryResponse rawResponse expectedLength config) = true ->
  exists parsed data,
    JSON_parse rawResponse = Some parsed
    /\ safeParse parsed = inl data
    /\ contentErrors data expectedLength config = []
    /\ ValidationResult.data
         (validateStoryResponse rawResponse expectedLength config) = Some data.
Proof.
  unfold validateStoryResponse.
  destruct (JSON_parse rawResponse) as [parsed|];
    [|cbn [ValidationResult.valid]; discriminate].
  destruct (safeParse parsed) as [data|issues] eqn:Hs;
    [|cbn [ValidationResult.valid]; discriminate].
  cbn [ValidationResult.valid ValidationResult.data].
  rewrite Nat.eqb_eq, length_zero_iff_nil. intros Hnil.
  exists parsed, data. rewrite Hnil. now cbn [length Nat.eqb].
Qed.

(** What the absence of errors in steps 3 to 6 means. *)
Lemma contentErrors_nil (data : ValidatedStoryResponse.t)
  (expectedLength : StoryLength) (config : ValidationConfig.t) :
  contentErrors data expectedLength config = [] ->
  SafetyCheckResult.safe
    (Guard.checkContentSafety (ValidatedStoryResponse.content data)
       Guard.DEFAULT_CONFIG) = true
  /\ fst (getExpectedWordCountRange expectedLength)
     <= countWords (ValidatedStoryResponse.content data)
     <= snd (getExpectedWordCountRange expectedLength)
  /\ validateContentQuality (ValidatedStoryResponse.content data) config = []
  /\ validateTurkishContent (ValidatedStoryResponse.content data) = [].
Proof.
  unfold contentErrors. cbv zeta. intros Hnil.
  apply app_eq_nil in Hnil. destruct Hnil as [Hsafe Hnil].
  apply app_eq_nil in Hnil. destruct Hnil as [Hcount Hnil].
  apply app_eq_nil in Hnil. destruct Hnil as [Hq Hl].
  repeat split; try assumption.
  - destruct (SafetyCheckResult.safe _); [reflexivity | discriminate Hsafe].
  - destruct (Nat.ltb_spec
                (countWords (ValidatedStoryResponse.content data))
                (fst (getExpectedWordCountRange expectedLength)));
      [discriminate Hcount | assumption].
  - destruct (Nat.ltb_spec
                (snd (getExpectedWordCountRange expectedLength))
                (countWords (ValidatedStoryResponse.content data)));
      [|assumption].
    rewrite orb_true_r in Hcount. discriminate Hcount.
Qed.

(** X8: a valid result is sound.  The text parsed to an object that
    conforms to the schema; the data are the five fields of that object;
    the guard of the default configuration finds the content safe; the
    number of words lies in the range of the expected length; the quality
    and language checks report nothing. *)
Theorem valid_response_is_sound (rawResponse : jsstring)
  (expectedLength : StoryLength) (config : ValidationConfig.t) :
  ValidationResult.valid
    (validateStoryResponse rawResponse expectedLength config) = true ->
  exists members data,
    JSON_parse rawResponse = Some (JObject members)
    /\ spec_conforms (JObject members) = true
    /\ ValidationResult.data
         (validateStoryResponse rawResponse expectedLength config) = Some data
    /\ lookup (u "title") members
       = Some (JString (ValidatedStoryResponse.title data))
    /\ lookup (u "content") members
       = Some (JString (ValidatedStoryResponse.content data))
    /\ lookup (u "wordCount") members
       = Some (JNumber (ValidatedStoryResponse.wordCount data))
    /\ SafetyCheckResult.safe
         (Guard.checkContentSafety (ValidatedStoryResponse.content data)
            Guard.DEFAULT_CONFIG) = true
    /\ fst (getExpectedWordCountRange expectedLength)
       <= countWords (ValidatedStoryResponse.content data)
       <= snd (getExpectedWordCountRange expectedLength)
    /\ validateContentQuality (ValidatedStoryResponse.content data) config = []
    /\ validateTurkishContent (ValidatedStoryResponse.content data) = [].
Proof.
  intros Hvalid.
  destruct (valid_content_checked _ _ _ Hvalid)
    as (parsed & data & Hp & Hs & Hnil & Hdata).
  assert (Hc : spec_conforms parsed = true)
    by (apply safeParse_conforms; now exists data).
  destruct parsed as [| b | x | s | l | members]; try discriminate Hc.
  exists members, data.
  destruct (safeParse_data members data Hs) as (H1 & H2 & H3 & _).
  destruct (contentErrors_nil _ _ _ Hnil) as (H4 & H5 & H6 & H7).
  repeat split; try assumption; apply H5.
Qed.

(** The well-formed story of the test suite. *)
Definition story_of_test_suite : jsstring :=
  q "{'title':'Ahmet ve Renkli Orman','content':'Bir varmış bir yokmuş, Ahmet adında cesur bir çocuk varmış. Bir gün ormanda gezerken renkli bir kapı keşfetmiş. \n                Bu kapıyı açtığında karşısına muhteşem güzel bir dünya çıkmış ve orada konuşan hayvanlarla tanışmış. \n                \'Merhaba Ahmet!\' demiş sevimli bir tavşan ona. \'Burada çok güzel maceralar yaşayabilirsin\' diye eklemiş.\n                Ahmet hayvanlarla dostluk kurmuş ve onlarla birlikte ormanda gezmiş. Renkli çiçekler toplamış ve güzel kelebeklerle dans etmiş.\n                Akşam olduğunda eve dönme zamanı gelmiş. Hayvan dostları ona veda etmiş ve \'Her zaman burada olacağız\' demişler.\n                Ahmet eve döndüğünde ailesine bu muhteşem macerasını anlatmış. Annesi ve babası çok şaşırmış ve gurur duymuşlar.\n                O geceden sonra Ahmet her gün güzel ormanı düşünmüş ve yeni maceralar hayal etmiş. Sonunda mutlu mesut yaşamışlar.','wordCount':115,'theme':'adventure','language':'tr'}".

Lemma story_of_test_suite_valid :
  ValidationResult.valid
    (validateStoryResponse story_of_test_suite SHORT
       DEFAULT_VALIDATION_CONFIG) = true.
Proof. vm_compute. reflexivity. Qed.

Lemma valid_response_is_sound_witness :
  exists members data,
    JSON_parse story_of_test_suite = Some (JObject members)
    /\ spec_conforms (JObject members) = true
    /\ ValidationResult.data
         (validateStoryResponse story_of_test_suite SHORT
            DEFAULT_VALIDATION_CONFIG) = Some data
    /\ lookup (u "title") members
       = Some (JString (ValidatedStoryResponse.title data))
    /\ lookup (u "content") members
       = Some (JString (ValidatedStoryResponse.content data))
    /\ lookup (u "wordCount") members
       = Some (JNumber (ValidatedStoryResponse.wordCount data))
    /\ SafetyCheckResult.safe
         (Guard.checkContentSafety (ValidatedStoryResponse.content data)
            Guard.DEFAULT_CONFIG) = true
    /\ fst (getExpectedWordCountRange SHORT)
       <= countWords (ValidatedStoryResponse.content data)
       <= snd (getExpectedWordCountRange SHORT)
    /\ validateContentQuality (ValidatedStoryResponse.content data)
         DEFAULT_VALIDATION_CONFIG = []
    /\ validateTurkishContent (ValidatedStoryResponse.content data) = [].
Proof.
  exact (valid_response_is_sound story_of_test_suite SHORT
           DEFAULT_VALIDATION_CONFIG story_of_test_suite_valid).
Defined.

(** X9: the quick validation accepts exactly the texts that parse to a
    value conforming to the schema; a rejection always carries an error
    message (Invalid JSON format when the text does not parse); and what the
    full validation accepts the quick one accepts, with the same data. *)
Theorem quickValidateJSON_spec (rawResponse : jsstring) :
  let quick := quickValidateJSON rawResponse in
  (fst (fst quick) = true
   <-> exists parsed, JSON_parse rawResponse = Some parsed
                      /\ spec_conforms parsed = true)
  /\ (fst (fst quick) = false -> exists message, snd quick = Some message)
  /\ (JSON_parse rawResponse = None ->
      quick = (false, None, Some (u "Invalid JSON format")))
  /\ (forall expectedLength config,
        ValidationResult.valid
          (validateStoryResponse rawResponse expectedLength config) = true ->
        quick = (true,
                 ValidationResult.data
                   (validateStoryResponse rawResponse expectedLength config),
                 None)).
Proof.
  cbv zeta. unfold quickValidateJSON, validateStoryResponse.
  destruct (JSON_parse rawResponse) as [parsed|].
  - pose proof (safeParse_conforms parsed) as Hc.
    destruct (safeParse parsed) as [data|issues] eqn:Hs; cbn [fst snd].
    + split; [|split; [discriminate | split; [discriminate|]]].
      * split; [|reflexivity]. intros _. exists parsed.
        split; [reflexivity|]. apply Hc. now exists data.
      * intros expectedLength config.
        cbn [ValidationResult.valid ValidationResult.data].
        now intros ->.
    + split; [|split; [|split; [discriminate|]]].
      * split; [discriminate|]. intros (p & [= <-] & Hp).
        apply Hc in Hp. destruct Hp as [d Hd]. discriminate Hd.
      * intros _. apply safeParse_issues_not_empty in Hs.
        destruct issues as [|i more]; [congruence|].
        now exists (ZodIssue.message i).
      * intros expectedLength config.
        cbn [ValidationResult.valid]. discriminate.
  - cbn [fst snd]. split; [|split; [|split; [reflexivity|]]].
    + split; [discriminate|]. intros (p & H & _). discriminate H.
    + intros _. now eexists.
    + intros expectedLength config. cbn [ValidationResult.valid].
      discriminate.
Qed.

End ValidationMore.

(* ================================================================== *)
(** * More properties of the generation with retry                     *)
(* ================================================================== *)

Module RetryMore.

Import Guard Validation StoryApi GuardFacts ValidationMore.

(** A code of [recoverableCodes]. *)
Definition recoverable (code : jsstring) : bool :=
  Array_includes
    [INVALID_JSON; WORD_COUNT_MISMATCH; INSUFFICIENT_STRUCTURE;
     NOT_STORY_FORMAT] code.

Lemma isRecoverableError_app (xs ys : list ValidationError.t) :
  isRecoverableError (xs ++ ys)
  = isRecoverableError xs || isRecoverableError ys.
Proof. unfold isRecoverableError. cbv zeta. apply existsb_app. Qed.

Lemma isRecoverableError_cond (c : bool) (field message code : jsstring) :
  isRecoverableError
    (if c then [ValidationError.mk field message code] else [])
  = c && recoverable code.
Proof.
  destruct c; [|reflexivity].
  unfold isRecoverableError, recoverable. cbv zeta.
  cbn [existsb ValidationError.code andb]. apply orb_false_r.
Qed.

Lemma schema_errors_not_recoverable (issues : list Zod.ZodIssue.t) :
  isRecoverableError (map schemaError issues) = false.
Proof.
  induction issues as [|i more IH]; [reflexivity|].
  change (map schemaError (i :: more))
    with ([schemaError i] ++ map schemaError more).
  rewrite isRecoverableError_app, IH, orb_false_r.
  unfold schemaError.
  generalize (match Array_join (u ".") (Zod.ZodIssue.path i) with
              | [] => u "unknown"
              | (_ :: _) as joined => joined
              end) (Zod.ZodIssue.message i).
  intros field message.
  apply (isRecoverableError_cond true field message SCHEMA_VALIDATION_ERROR).
Qed.

(** The story elements that the quality check looks for. *)
Definition hasDialogue (content : jsstring) : bool :=
  RegExp_test quote_marks content
  || RegExp_test reporting_verbs (toLowerCase content).

Definition hasNarrative (content : jsstring) : bool :=
  Nat.ltb 5 (length (String_split content sentence_end)).

Lemma recoverable_quality (content : jsstring) (config : ValidationConfig.t) :
  isRecoverableError (validateContentQuality content config)
  = Nat.ltb (length (sentencesOf content)) 3
    || negb (hasDialogue content) && negb (hasNarrative content).
Proof.
  unfold validateContentQuality. cbv zeta.
  fold (hasDialogue content). fold (hasNarrative content).
  rewrite !isRecoverableError_app, !isRecoverableError_cond.
  change (recoverable INSUFFICIENT_STRUCTURE) with true.
  change (recoverable EXCESSIVE_REPETITION) with false.
  change (recoverable NOT_STORY_FORMAT) with true.
  now rewrite !andb_true_r, andb_false_r, orb_false_l.
Qed.

Lemma recoverable_language (content : jsstring) :
  isRecoverableError (validateTurkishContent content) = false.
Proof.
  unfold validateTurkishContent. cbv zeta.
  rewrite !isRecoverableError_app, !isRecoverableError_cond.
  change (recoverable NO_TURKISH_CHARACTERS) with false.
  change (recoverable NOT_TURKISH_LANGUAGE) with false.
  now rewrite !andb_false_r.
Qed.

Lemma recoverable_content (data : ValidatedStoryResponse.t)
  (expectedLength : StoryLength) (config : ValidationConfig.t) :
  let content := ValidatedStoryResponse.content data in
  isRecoverableError (contentErrors data expectedLength config)
  = Nat.ltb (countWords content) (fst (getExpectedWordCountRange expectedLength))
    || Nat.ltb (snd (getExpectedWordCountRange expectedLength))
               (countWords content)
    || (Nat.ltb (length (sentencesOf content)) 3
        || negb (hasDialogue content) && negb (hasNarrative content)).
Proof.
  cbv zeta. unfold contentErrors. cbv zeta.
  rewrite !isRecoverableError_app, !isRecoverableError_cond.
  rewrite recoverable_quality, recoverable_language.
  change (recoverable CONTENT_SAFETY_FAILED) with false.
  change (recoverable WORD_COUNT_MISMATCH) with true.
  now rewrite andb_false_r, andb_true_r, orb_false_l, orb_false_r.
Qed.

(** X10: which responses are worth a retry.  The errors of a response are
    recoverable exactly when the text is not JSON, or it conforms to the
    schema and its content has a number of words outside the expected
    range, fewer than three sentences, or neither dialogue nor narrative.
    A violation of the schema is never recoverable, and the safety,
    repetition and language checks have no influence. *)
Theorem recoverable_iff (rawResponse : jsstring)
  (expectedLength : StoryLength) (config : ValidationConfig.t) :
  isRecoverableError
    (ValidationResult.errors
       (validateStoryResponse rawResponse expectedLength config)) = true
  <-> JSON_parse rawResponse = None
      \/ exists parsed data,
           JSON_parse rawResponse = Some parsed
           /\ safeParse parsed = inl data
           /\ (countWords (ValidatedStoryResponse.content data)
               < fst (getExpectedWordCountRange expectedLength)
               \/ snd (getExpectedWordCountRange expectedLength)
                  < countWords (ValidatedStoryResponse.content data)
               \/ length (sentencesOf (ValidatedStoryResponse.content data))
                  < 3
               \/ (hasDialogue (ValidatedStoryResponse.content data) = false
                   /\ hasNarrative (ValidatedStoryResponse.content data)
                      = false)).
Proof.
  unfold validateStoryResponse.
  destruct (JSON_parse rawResponse) as [parsed|].
  - destruct (safeParse parsed) as [data|issues] eqn:Hs;
      cbn [ValidationResult.errors].
    + rewrite recoverable_content.
      rewrite !orb_true_iff, andb_true_iff, !negb_true_iff, !Nat.ltb_lt.
      split.
      * intros H. right. exists parsed, data. tauto.
      * intros [H | (p & d & [= <-] & Hd & H)]; [discriminate H|].
        rewrite Hs in Hd. injection Hd as <-. tauto.
    + rewrite schema_errors_not_recoverable. split; [discriminate|].
      intros [H | (p & d & [= <-] & Hd & _)]; [discriminate H|].
      rewrite Hs in Hd. discriminate Hd.
  - cbn [ValidationResult.errors]. split; [now left|]. intros _.
    apply (isRecoverableError_cond true (u "response")
             (u "Geçersiz JSON formatı") INVALID_JSON).
Qed.

(** The error text that an outcome of the generator leaves in [lastError]. *)
Definition errorText (request : StoryRequest.t) (outcome : Outcome)
  : jsstring :=
  match outcome with
  | Rejected message => message
  | Resolved response =>
      Array_join (u ", ")
        (map ValidationError.message
           (ValidationResult.errors
              (validateStoryResponse (GeminiResponse.content response)
                 (StoryRequest.length request) DEFAULT_VALIDATION_CONFIG)))
  end.

(** The result that the loop returns when an outcome of the generator is
    the last one of the run. *)
Definition resultOf (request : StoryRequest.t) (outcome : Outcome)
  : Generation.t :=
  match outcome with
  | Rejected message => failed message
  | Resolved response =>
      match ValidationResult.data
              (validateStoryResponse (GeminiResponse.content response)
                 (StoryRequest.length request) DEFAULT_VALIDATION_CONFIG) with
      | Some data =>
          Generation.mk true
            (Some (Story.mk [] (ValidatedStoryResponse.title data)
                     (ValidatedStoryResponse.content data)
                     (StoryRequest.childName request)
                     (StoryRequest.theme request)
                     (StoryRequest.length request)
                     (ValidatedStoryResponse.wordCount data) []))
            (Some (StoryMetadata.mk 0 (u "gemini-pro")
                     (calculateSafetyScore
                        (GeminiResponse.safetyRatings response))
                     (ValidatedStoryResponse.language data) (u "1.0.0")))
            None
      | None => failed (errorText request outcome)
      end
  end.

(** Data are returned only with a valid result. *)
Lemma data_only_if_valid (rawResponse : jsstring)
  (expectedLength : StoryLength) (config : ValidationConfig.t) :
  ValidationResult.valid
    (validateStoryResponse rawResponse expectedLength config) = false ->
  ValidationResult.data
    (validateStoryResponse rawResponse expectedLength config) = None.
Proof.
  unfold validateStoryResponse.
  destruct (JSON_parse rawResponse) as [parsed|]; [|reflexivity].
  destruct (safeParse parsed) as [data|issues]; [|reflexivity].
  cbn [ValidationResult.valid ValidationResult.data]. now intros ->.
Qed.

(** Content that the guard of the default configuration finds safe holds
    no blocked term. *)
Lemma safe_has_no_blocked_term (content : jsstring) :
  SafetyCheckResult.safe (checkContentSafety content DEFAULT_CONFIG) = true ->
  extractBlockedTerms content DEFAULT_BLOCKED_TERMS = [].
Proof.
  rewrite safe_default, !andb_true_iff. intros [[[Hb _] _] _].
  rewrite checkBlockedTerms_safe, Nat.eqb_eq in Hb.
  now apply length_zero_iff_nil.
Qed.

Section Run.

Variable gemini : Gemini.
Variable request : StoryRequest.t.

(** The loop ends with the result of its last call. *)
Lemma attempts_last (remaining attempt : nat) (lastError : jsstring) :
  exists calls prompt n,
    snd (attempts gemini request (S remaining) attempt lastError)
    = calls ++ [(prompt, n)]
    /\ fst (attempts gemini request (S remaining) attempt lastError)
       = resultOf request (gemini prompt n).
Proof.
  revert attempt lastError.
  induction remaining as [|remaining IH]; intros attempt lastError;
    rewrite RetryFacts.attempts_step; cbv zeta;
    generalize (if Nat.eqb attempt 0
                then StoryPrompt.buildStoryPrompt request
                       StoryPrompt.DEFAULT_TEMPLATE
                else StoryPrompt.buildRetryPrompt request lastError);
    intros prompt.
  - exists [], prompt, attempt. cbn [app].
    destruct (gemini prompt attempt) as [response|message] eqn:Hg;
      [|split; reflexivity].
    unfold resultOf, errorText.
    pose proof (RetryFacts.valid_has_data (GeminiResponse.content response)
                  (StoryRequest.length request) DEFAULT_VALIDATION_CONFIG)
      as Hsome.
    pose proof (data_only_if_valid (GeminiResponse.content response)
                  (StoryRequest.length request) DEFAULT_VALIDATION_CONFIG)
      as Hnone.
    destruct (ValidationResult.valid _).
    + destruct (Hsome eq_refl) as [data ->]. split; reflexivity.
    + rewrite (Hnone eq_refl). cbv beta iota.
      destruct (isRecoverableError _); split; reflexivity.
  - destruct (gemini prompt attempt) as [response|message] eqn:Hg.
    + pose proof (RetryFacts.valid_has_data (GeminiResponse.content response)
                    (StoryRequest.length request) DEFAULT_VALIDATION_CONFIG)
        as Hsome.
      pose proof (data_only_if_valid (GeminiResponse.content response)
                    (StoryRequest.length request) DEFAULT_VALIDATION_CONFIG)
        as Hnone.
      destruct (ValidationResult.valid _).
      * destruct (Hsome eq_refl) as [data Hdata]. rewrite Hdata.
        exists [], prompt, attempt. rewrite Hg. unfold resultOf.
        rewrite Hdata. split; reflexivity.
      * cbv beta iota.
        destruct (isRecoverableError _); cbn [negb].
        -- destruct (IH (S attempt)
                       (Array_join (u ", ")
                          (map ValidationError.message
                             (ValidationResult.errors
                                (validateStoryResponse
                                   (GeminiResponse.content response)
                                   (StoryRequest.length request)
                                   DEFAULT_VALIDATION_CONFIG)))))
             as (calls & p & n & Hcalls & Hres).
           exists ((prompt, attempt) :: calls), p, n.
           unfold after. cbn [fst snd]. rewrite Hcalls, Hres.
           split; reflexivity.
        -- exists [], prompt, attempt. rewrite Hg. unfold resultOf.
           rewrite (Hnone eq_refl). split; reflexivity.
    + destruct (IH (S attempt) message) as (calls & p & n & Hcalls & Hres).
      exists ((prompt, attempt) :: calls), p, n.
      unfold after. cbn [fst snd]. rewrite Hcalls, Hres.
      split; reflexivity.
Qed.

(** X11: the result of a run is decided by its last call alone.  When that
    call threw, the run fails with the message thrown; when its response is
    valid the run succeeds with a story made of the validated title,
    content and word count and of the name, theme and length of the
    request, with an empty id and date; otherwise the run fails with the
    messages of the validation errors of that response, joined by a comma.
    Nothing of an earlier attempt is in the result, and a failure says
    after 2 attempts whatever the number of calls. *)
Theorem result_of_last_call :
  exists calls prompt attempt,
    snd (generateStoryWithRetry gemini request) = calls ++ [(prompt, attempt)]
    /\ fst (generateStoryWithRetry gemini request)
       = match gemini prompt attempt with
         | Rejected message =>
             Generation.mk false None None
               (Some (u "Story generation failed after 2 attempts: "
                      ++ message))
         | Resolved response =>
             let validation :=
               validateStoryResponse (GeminiResponse.content response)
                 (StoryRequest.length request) DEFAULT_VALIDATION_CONFIG in
             match ValidationResult.data validation with
             | Some data =>
                 Generation.mk true
                   (Some (Story.mk [] (ValidatedStoryResponse.title data)
                            (ValidatedStoryResponse.content data)
                            (StoryRequest.childName request)
                            (StoryRequest.theme request)
                            (StoryRequest.length request)
                            (ValidatedStoryResponse.wordCount data) []))
                   (Some (StoryMetadata.mk 0 (u "gemini-pro")
                            (calculateSafetyScore
                               (GeminiResponse.safetyRatings response))
                            (ValidatedStoryResponse.language data)
                            (u "1.0.0")))
                   None
             | None =>
                 Generation.mk false None None
                   (Some (u "Story generation failed after 2 attempts: "
                          ++ Array_join (u ", ")
                               (map ValidationError.message
                                  (ValidationResult.errors validation))))
             end
         end.
Proof.
  unfold generateStoryWithRetry.
  destruct (attempts_last 1 0 []) as (calls & prompt & n & Hcalls & Hres).
  exists calls, prompt, n. split; [assumption|].
  rewrite Hres. unfold resultOf, errorText, failed.
  destruct (gemini prompt n); reflexivity.
Qed.

(** A run that succeeds ends with a valid response, and returns the story
    made of it. *)
Lemma successful_run :
  Generation.success (fst (generateStoryWithRetry gemini request)) = true ->
  exists calls prompt attempt response data,
    snd (generateStoryWithRetry gemini request) = calls ++ [(prompt, attempt)]
    /\ gemini prompt attempt = Resolved response
    /\ ValidationResult.valid
         (validateStoryResponse (GeminiResponse.content response)
            (StoryRequest.length request) DEFAULT_VALIDATION_CONFIG) = true
    /\ contentErrors data (StoryRequest.length request)
         DEFAULT_VALIDATION_CONFIG = []
    /\ fst (generateStoryWithRetry gemini request)
       = Generation.mk true
           (Some (Story.mk [] (ValidatedStoryResponse.title data)
                    (ValidatedStoryResponse.content data)
                    (StoryRequest.childName request)
                    (StoryRequest.theme request)
                    (StoryRequest.length request)
                    (ValidatedStoryResponse.wordCount data) []))
           (Some (StoryMetadata.mk 0 (u "gemini-pro")
                    (calculateSafetyScore
                       (GeminiResponse.safetyRatings response))
                    (ValidatedStoryResponse.language data) (u "1.0.0")))
           None.
Proof.
  unfold generateStoryWithRetry.
  destruct (attempts_last 1 0 []) as (calls & prompt & n & Hcalls & Hres).
  rewrite Hres, Hcalls. unfold resultOf.
  destruct (gemini prompt n) as [response|message] eqn:Hg;
    [|cbn [failed Generation.success]; discriminate].
  destruct (ValidationResult.valid
              (validateStoryResponse (GeminiResponse.content response)
                 (StoryRequest.length request) DEFAULT_VALIDATION_CONFIG))
    eqn:Hvalid.
  - destruct (valid_content_checked _ _ _ Hvalid)
      as (parsed & data & _ & _ & Hnil & ->).
    intros _. exists calls, prompt, n, response, data.
    repeat split; assumption.
  - rewrite (data_only_if_valid _ _ _ Hvalid).
    cbn [failed Generation.success]. discriminate.
Qed.

(** A run that fails returns the failure of some error text. *)
Lemma failed_run :
  Generation.success (fst (generateStoryWithRetry gemini request)) = false ->
  exists lastError,
    fst (generateStoryWithRetry gemini request) = failed lastError.
Proof.
  unfold generateStoryWithRetry.
  destruct (attempts_last 1 0 []) as (calls & prompt & n & _ & Hres).
  rewrite Hres. unfold resultOf.
  destruct (gemini prompt n) as [response|message];
    [|intros _; now exists message].
  destruct (ValidationResult.data _) as [data|];
    [cbn [Generation.success]; discriminate|].
  intros _. eexists. reflexivity.
Qed.

(** X12: a story that a run returns has been checked.  It comes from a
    response that the generator gave in this run and that is valid; the
    guard of the default configuration finds its content safe and finds no
    blocked term in it; the number of its words is in the range of the
    requested length; name, theme and length are those of the request. *)
Theorem returned_story_is_checked :
  Generation.success (fst (generateStoryWithRetry gemini request)) = true ->
  exists story metadata prompt attempt response,
    fst (generateStoryWithRetry gemini request)
    = Generation.mk true (Some story) (Some metadata) None
    /\ In (prompt, attempt) (snd (generateStoryWithRetry gemini request))
    /\ gemini prompt attempt = Resolved response
    /\ ValidationResult.valid
         (validateStoryResponse (GeminiResponse.content response)
            (StoryRequest.length request) DEFAULT_VALIDATION_CONFIG) = true
    /\ Story.childName story = StoryRequest.childName request
    /\ Story.theme story = StoryRequest.theme request
    /\ Story.length story = StoryRequest.length request
    /\ SafetyCheckResult.safe
         (checkContentSafety (Story.content story) DEFAULT_CONFIG) = true
    /\ extractBlockedTerms (Story.content story) DEFAULT_BLOCKED_TERMS = []
    /\ fst (getExpectedWordCountRange (StoryRequest.length request))
       <= countWords (Story.content story)
       <= snd (getExpectedWordCountRange (StoryRequest.length request)).
Proof.
  intros Hsuccess.
  destruct (successful_run Hsuccess)
    as (calls & prompt & n & response & data & Hcalls & Hg & Hvalid & Hnil
        & Hres).
  destruct (contentErrors_nil _ _ _ Hnil) as (Hsafe & Hrange & _).
  rewrite Hres, Hcalls.
  do 2 eexists. exists prompt, n, response.
  split; [reflexivity|].
  cbn [Story.childName Story.theme Story.length Story.content].
  split; [apply in_or_app; right; now left|].
  split; [exact Hg|]. split; [exact Hvalid|].
  do 3 (split; [reflexivity|]). split; [assumption|].
  split; [|assumption]. now apply safe_has_no_blocked_term.
Qed.

End Run.

(** A generator that always answers with the story of the test suite. *)
Definition storyteller : Gemini :=
  fun _ _ =>
    Resolved (GeminiResponse.mk story_of_test_suite (u "STOP") []).

Lemma storyteller_succeeds :
  Generation.success
    (fst (generateStoryWithRetry storyteller (PromptFacts.scenarioRequest [])))
  = true.
Proof. vm_compute. reflexivity. Qed.

Lemma returned_story_is_checked_witness :
  exists story metadata prompt attempt response,
    fst (generateStoryWithRetry storyteller (PromptFacts.scenarioRequest []))
    = Generation.mk true (Some story) (Some metadata) None
    /\ In (prompt, attempt)
          (snd (generateStoryWithRetry storyteller
                  (PromptFacts.scenarioRequest [])))
    /\ storyteller prompt attempt = Resolved response
    /\ ValidationResult.valid
         (validateStoryResponse (GeminiResponse.content response)
            (StoryRequest.length (PromptFacts.scenarioRequest []))
            DEFAULT_VALIDATION_CONFIG) = true
    /\ Story.childName story
       = StoryRequest.childName (PromptFacts.scenarioRequest [])
    /\ Story.theme story = StoryRequest.theme (PromptFacts.scenarioRequest [])
    /\ Story.length story
       = StoryRequest.length (PromptFacts.scenarioRequest [])
    /\ SafetyCheckResult.safe
         (checkContentSafety (Story.content story) DEFAULT_CONFIG) = true
    /\ extractBlockedTerms (Story.content story) DEFAULT_BLOCKED_TERMS = []
    /\ fst (getExpectedWordCountRange
              (StoryRequest.length (PromptFacts.scenarioRequest [])))
       <= countWords (Story.content story)
       <= snd (getExpectedWordCountRange
                 (StoryRequest.length (PromptFacts.scenarioRequest []))).
Proof.
  exact (returned_story_is_checked storyteller
           (PromptFacts.scenarioRequest []) storyteller_succeeds).
Defined.

End RetryMore.

(* ================================================================== *)
(** * More properties of the prompts                                   *)
(* ================================================================== *)

Module PromptMore.

Import StoryPrompt.

Lemma startsWith_nil (s : jsstring) : startsWith s [] = true.
Proof. destruct s; reflexivity. Qed.

Lemma startsWith_app (p s : jsstring) : startsWith (p ++ s) p = true.
Proof.
  induction p as [|c p IH]; [apply startsWith_nil|].
  cbn [app startsWith]. now rewrite N.eqb_refl.
Qed.

Lemma startsWith_app_l (s t p : jsstring) :
  startsWith s p = true -> startsWith (s ++ t) p = true.
Proof.
  revert s. induction p as [|c p IH]; intros s H; [apply startsWith_nil|].
  destruct s as [|d s]; [discriminate H|].
  cbn [app startsWith] in *. apply andb_true_iff in H. destruct H as [-> H].
  now apply IH.
Qed.

Lemma String_includes_app_l (s t sub : jsstring) :
  String_includes s sub = true -> String_includes (s ++ t) sub = true.
Proof.
  induction s as [|c s IH]; intros H.
  - cbn [String_includes] in H. rewrite orb_false_r in H.
    destruct sub as [|d sub]; [|discriminate H].
    destruct t; reflexivity.
  - cbn [app String_includes] in *. apply orb_true_iff in H.
    apply orb_true_iff. destruct H as [H | H].
    + left. now apply (startsWith_app_l (c :: s) t sub).
    + right. now apply IH.
Qed.

Lemma String_includes_app_r (s t sub : jsstring) :
  String_includes t sub = true -> String_includes (s ++ t) sub = true.
Proof.
  intros H. induction s as [|c s IH]; [assumption|].
  cbn [app String_includes]. rewrite IH. apply orb_true_r.
Qed.

Lemma String_includes_here (sub t : jsstring) :
  String_includes (sub ++ t) sub = true.
Proof.
  destruct sub as [|c sub]; [destruct t; reflexivity|].
  cbn [app String_includes].
  change (c :: sub ++ t) with ((c :: sub) ++ t).
  now rewrite startsWith_app.
Qed.

Lemma String_includes_refl (s : jsstring) : String_includes s s = true.
Proof.
  pose proof (String_includes_here s []) as H. now rewrite app_nil_r in H.
Qed.

(** The code unit does not occur in the text. *)
Definition absent (c : N) (s : jsstring) : bool :=
  forallb (fun d => negb (c =? d)%N) s.

Lemma absent_app (c : N) (s t : jsstring) :
  absent c (s ++ t) = absent c s && absent c t.
Proof. apply forallb_app. Qed.

Lemma find_split_skip (c : N) (pat p s acc : jsstring) :
  absent c p = true ->
  find_split (p ++ s) (c :: pat) acc
  = find_split s (c :: pat) (rev p ++ acc).
Proof.
  revert acc. induction p as [|d p IH]; intros acc H; [reflexivity|].
  cbn [absent forallb] in H. apply andb_true_iff in H.
  destruct H as [Hd Hp]. apply negb_true_iff in Hd.
  cbn [app find_split startsWith]. rewrite Hd. cbn [andb].
  rewrite (IH (d :: acc) Hp). cbn [rev]. now rewrite <- app_assoc.
Qed.

Lemma find_split_before (s pat acc before after : jsstring) :
  find_split s pat acc = Some (before, after) ->
  exists rest, before = rev acc ++ rest.
Proof.
  revert acc. induction s as [|c s IH]; intros acc; cbn [find_split].
  - destruct (startsWith [] pat); [|discriminate].
    intros [= <- _]. exists []. now rewrite app_nil_r.
  - destruct (startsWith (c :: s) pat).
    + intros [= <- _]. exists []. now rewrite app_nil_r.
    + intros H. apply IH in H. destruct H as [rest ->].
      exists (c :: rest). cbn [rev]. now rewrite <- app_assoc.
Qed.

(** A replacement leaves alone what stands before the first place where
    the pattern can begin. *)
Lemma String_replace_keeps_prefix (c : N)
  (pat p s replacement : jsstring) :
  absent c p = true ->
  exists s', String_replace (p ++ s) (c :: pat) replacement = p ++ s'.
Proof.
  intros H. unfold String_replace. rewrite (find_split_skip c pat p s [] H).
  destruct (find_split s (c :: pat) (rev p ++ [])) as [[before after]|] eqn:E.
  - apply find_split_before in E. destruct E as [rest ->].
    rewrite app_nil_r, rev_involutive.
    exists (rest ++ GetSubstitution (c :: pat) (p ++ rest) after replacement
            ++ after).
    now rewrite <- app_assoc.
  - now exists s.
Qed.

(** The replacement of a pattern that stands right after such a prefix. *)
Lemma String_replace_at (c : N) (pat p s replacement : jsstring) :
  absent c p = true ->
  String_replace (p ++ (c :: pat) ++ s) (c :: pat) replacement
  = p ++ GetSubstitution (c :: pat) p s replacement ++ s.
Proof.
  intros H. unfold String_replace.
  rewrite (find_split_skip c pat p ((c :: pat) ++ s) [] H).
  assert (E : find_split ((c :: pat) ++ s) (c :: pat) (rev p ++ [])
              = Some (p, s)).
  { pose proof (startsWith_app (c :: pat) s) as Hs.
    cbn [app] in Hs |- *. cbn [find_split]. rewrite Hs.
    rewrite app_nil_r, rev_involutive. f_equal. f_equal.
    change (c :: pat ++ s) with ((c :: pat) ++ s).
    rewrite skipn_app, skipn_all, Nat.sub_diag. reflexivity. }
  now rewrite E.
Qed.

(** A replacement text without dollar sign is inserted as it is. *)
Lemma GetSubstitution_cons (matched before after : jsstring) (c : N)
  (t : jsstring) :
  (c =? 0x24)%N = false ->
  GetSubstitution matched before after (c :: t)
  = c :: GetSubstitution matched before after t.
Proof.
  intros H. destruct c as [|p]; [reflexivity|].
  do 6 (destruct p as [p|p|]; try reflexivity); discriminate H.
Qed.

Lemma GetSubstitution_plain (matched before after replacement : jsstring) :
  absent 0x24 replacement = true ->
  GetSubstitution matched before after replacement = replacement.
Proof.
  induction replacement as [|c t IH]; [reflexivity|].
  cbn [absent forallb]. intros H. apply andb_true_iff in H.
  destruct H as [Hc Ht]. apply negb_true_iff in Hc.
  rewrite N.eqb_sym in Hc.
  rewrite GetSubstitution_cons by assumption. now rewrite (IH Ht).
Qed.

(** The parts of a prompt. *)
Definition replaced (request : StoryRequest.t) (template : PromptTemplate.t)
  : jsstring :=
  String_replace
    (String_replace
       (String_replace
          (String_replace (PromptTemplate.basePrompt template)
             (u "{childName}") (StoryRequest.childName request))
          (u "{age}") (Number_toString (StoryRequest.age request)))
       (u "{length}")
       (getLengthDescription (StoryRequest.length request)
          (PromptTemplate.lengthSpecs template (StoryRequest.length request))))
    (u "{theme}")
    (PromptTemplate.themePrompts template (StoryRequest.theme request)).

Definition ageLines (request : StoryRequest.t) (template : PromptTemplate.t)
  : jsstring :=
  match Record_get (getAgeGroup (StoryRequest.age request))
          (PromptTemplate.ageModifiers template) with
  | Some ((_ :: _) as modifier) =>
      LF ++ LF ++ u "Yaş grubu özel talimatları: " ++ modifier
  | _ => []
  end.

Definition elementLines (request : StoryRequest.t) : jsstring :=
  match StoryRequest.elements request with
  | Some ((_ :: _) as elements) =>
      LF ++ LF ++ u "Hikayede bu öğeleri de dahil et: "
      ++ Array_join (u ", ") elements
  | _ => []
  end.

Definition lengthLine (spec : LengthSpec.t) : jsstring :=
  u "Hikaye uzunluğu: "
  ++ Number_toString (LengthSpec.wordCount spec)
  ++ u " kelime civarında ("
  ++ Number_toString (fst (LengthSpec.range spec)) ++ u "-"
  ++ Number_toString (snd (LengthSpec.range spec))
  ++ u " kelime arası).".

Definition formatBlock (theme : StoryTheme) : jsstring :=
  Array_join LF [
    u "Cevabını şu JSON formatında ver:";
    u "{";
    q "    'title': 'Hikaye başlığı',";
    q "    'content': 'Hikaye içeriği',";
    q "    'wordCount': kelime_sayısı,";
    q "    'theme': '" ++ StoryTheme_value theme ++ q "',";
    q "    'language': 'tr'";
    u "}"
  ].

Lemma buildStoryPrompt_parts (request : StoryRequest.t)
  (template : PromptTemplate.t) :
  buildStoryPrompt request template
  = replaced request template
    ++ ageLines request template
    ++ elementLines request
    ++ (LF ++ LF
        ++ lengthLine (PromptTemplate.lengthSpecs template
                         (StoryRequest.length request)))
    ++ (LF ++ LF ++ PromptTemplate.safetyInstructions template)
    ++ (LF ++ LF ++ formatBlock (StoryRequest.theme request)).
Proof.
  unfold buildStoryPrompt, ageLines, elementLines, replaced, formatBlock,
    lengthLine.
  cbv zeta.
  match goal with
  | |- context [String_replace ?s (u "{theme}") ?r] =>
      generalize (String_replace s (u "{theme}") r)
  end.
  match goal with
  | |- context [Array_join LF ?l] => generalize (Array_join LF l)
  end.
  generalize (PromptTemplate.safetyInstructions template).
  generalize (Number_toString
                (LengthSpec.wordCount
                   (PromptTemplate.lengthSpecs template
                      (StoryRequest.length request))))
             (Number_toString
                (fst (LengthSpec.range
                        (PromptTemplate.lengthSpecs template
                           (StoryRequest.length request)))))
             (Number_toString
                (snd (LengthSpec.range
                        (PromptTemplate.lengthSpecs template
                           (StoryRequest.length request))))).
  intros n1 n2 n3 safety block p0.
  destruct (Record_get _ _) as [[|c modifier]|];
    destruct (StoryRequest.elements request) as [[|e elements]|];
    rewrite <- ?app_assoc, ?app_nil_l; reflexivity.
Qed.

Lemma formatBlock_JSON (theme : StoryTheme) :
  String_includes (formatBlock theme) (u "JSON") = true.
Proof. destruct theme; vm_compute; reflexivity. Qed.

Lemma formatBlock_theme (theme : StoryTheme) :
  String_includes (formatBlock theme)
    (q "'theme': '" ++ StoryTheme_value theme ++ q "'") = true.
Proof. destruct theme; vm_compute; reflexivity. Qed.

Lemma formatBlock_length (theme : StoryTheme) :
  100 <= length (formatBlock theme).
Proof.
  apply Nat.leb_le. destruct theme; vm_compute; reflexivity.
Qed.

(** X13: what every prompt holds, whatever the request and the template:
    the safety instructions of the template, the line of the length
    specification, the elements of the request joined by a comma when there
    are some, and at its end the JSON format block with the word JSON and
    the theme of the request; so it is never shorter than 100 code
    units. *)
Theorem prompt_always_contains (request : StoryRequest.t)
  (template : PromptTemplate.t) :
  let prompt := buildStoryPrompt request template in
  String_includes prompt (PromptTemplate.safetyInstructions template) = true
  /\ String_includes prompt
       (lengthLine (PromptTemplate.lengthSpecs template
                      (StoryRequest.length request))) = true
  /\ match StoryRequest.elements request with
     | Some ((_ :: _) as elements) =>
         String_includes prompt (Array_join (u ", ") elements) = true
     | _ => True
     end
  /\ (exists before,
        prompt = before ++ formatBlock (StoryRequest.theme request))
  /\ String_includes prompt (u "JSON") = true
  /\ String_includes prompt
       (q "'theme': '" ++ StoryTheme_value (StoryRequest.theme request)
        ++ q "'") = true
  /\ 100 <= length prompt.
Proof.
  cbv zeta. rewrite buildStoryPrompt_parts.
  generalize (replaced request template) (ageLines request template).
  intros p0 age.
  generalize (lengthLine (PromptTemplate.lengthSpecs template
                            (StoryRequest.length request)))
             (PromptTemplate.safetyInstructions template).
  intros line safety.
  pose proof (formatBlock_JSON (StoryRequest.theme request)) as HJ.
  pose proof (formatBlock_theme (StoryRequest.theme request)) as HT.
  pose proof (formatBlock_length (StoryRequest.theme request)) as HL.
  revert HJ HT HL.
  generalize (formatBlock (StoryRequest.theme request)). intros block HJ HT HL.
  repeat split.
  - do 4 apply String_includes_app_r. apply String_includes_app_l.
    do 2 apply String_includes_app_r. apply String_includes_refl.
  - do 3 apply String_includes_app_r. apply String_includes_app_l.
    do 2 apply String_includes_app_r. apply String_includes_refl.
  - unfold elementLines.
    destruct (StoryRequest.elements request) as [[|e elements]|];
      [exact I| |exact I].
    do 2 apply String_includes_app_r. apply String_includes_app_l.
    do 3 apply String_includes_app_r. apply String_includes_refl.
  - exists (p0 ++ age ++ elementLines request ++ (LF ++ LF ++ line)
            ++ (LF ++ LF ++ safety) ++ LF ++ LF).
    now rewrite <- !app_assoc.
  - do 7 apply String_includes_app_r. exact HJ.
  - do 7 apply String_includes_app_r. exact HT.
  - rewrite !length_app. lia.
Qed.

(** The opening of the default template, up to the first placeholder. *)
Definition opening : jsstring := u "Sen bir çocuk masalı yazarısın. ".

Lemma basePrompt_opening :
  PromptTemplate.basePrompt DEFAULT_TEMPLATE
  = opening ++ u "{childName}" ++ u " adında {age}"
    ++ skipn 56 (PromptTemplate.basePrompt DEFAULT_TEMPLATE).
Proof. vm_compute. reflexivity. Qed.

Lemma replaced_keeps_opening (request : StoryRequest.t) :
  exists rest, replaced request DEFAULT_TEMPLATE = opening ++ rest.
Proof.
  unfold replaced. rewrite basePrompt_opening.
  generalize (u " adında {age}"
              ++ skipn 56 (PromptTemplate.basePrompt DEFAULT_TEMPLATE)).
  intros s0.
  assert (H : absent 0x7B opening = true) by (vm_compute; reflexivity).
  destruct (String_replace_keeps_prefix 0x7B (u "childName}") opening
              (u "{childName}" ++ s0) (StoryRequest.childName request) H)
    as [s1 E1].
  change (0x7B%N :: u "childName}") with (u "{childName}") in E1.
  rewrite E1.
  destruct (String_replace_keeps_prefix 0x7B (u "age}") opening s1
              (Number_toString (StoryRequest.age request)) H) as [s2 E2].
  change (0x7B%N :: u "age}") with (u "{age}") in E2. rewrite E2.
  destruct (String_replace_keeps_prefix 0x7B (u "length}") opening s2
              (getLengthDescription (StoryRequest.length request)
                 (PromptTemplate.lengthSpecs DEFAULT_TEMPLATE
                    (StoryRequest.length request))) H) as [s3 E3].
  change (0x7B%N :: u "length}") with (u "{length}") in E3. rewrite E3.
  destruct (String_replace_keeps_prefix 0x7B (u "theme}") opening s3
              (PromptTemplate.themePrompts DEFAULT_TEMPLATE
                 (StoryRequest.theme request)) H) as [s4 E4].
  change (0x7B%N :: u "theme}") with (u "{theme}") in E4. rewrite E4.
  now exists s4.
Qed.

Lemma validatePrompt_long_enough (prompt : jsstring) :
  100 <= length prompt ->
  String_includes prompt (u "JSON") = true ->
  String_includes prompt (u "çocuk") = true ->
  validatePrompt prompt
  = (negb (Nat.ltb 2000 (length prompt)),
     if Nat.ltb 2000 (length prompt) then [u "Prompt çok uzun"] else []).
Proof.
  intros HL HJ HC. unfold validatePrompt. cbv zeta.
  rewrite HJ, HC. apply Nat.ltb_ge in HL. rewrite HL.
  cbn [negb andb app].
  destruct (Nat.ltb 2000 (length prompt)); reflexivity.
Qed.

Lemma default_prompt_checks (request : StoryRequest.t) :
  let prompt := buildStoryPrompt request DEFAULT_TEMPLATE in
  100 <= length prompt
  /\ String_includes prompt (u "JSON") = true
  /\ String_includes prompt (u "çocuk") = true.
Proof.
  cbv zeta. rewrite buildStoryPrompt_parts.
  destruct (replaced_keeps_opening request) as [rest ->].
  generalize (ageLines request DEFAULT_TEMPLATE) (elementLines request).
  intros age elements.
  generalize (lengthLine (PromptTemplate.lengthSpecs DEFAULT_TEMPLATE
                            (StoryRequest.length request)))
             (PromptTemplate.safetyInstructions DEFAULT_TEMPLATE).
  intros line safety.
  pose proof (formatBlock_JSON (StoryRequest.theme request)) as HJ.
  pose proof (formatBlock_length (StoryRequest.theme request)) as HL.
  revert HJ HL.
  generalize (formatBlock (StoryRequest.theme request)). intros block HJ HL.
  split; [|split].
  - rewrite !length_app. lia.
  - do 7 apply String_includes_app_r. exact HJ.
  - rewrite <- app_assoc. apply String_includes_app_l.
    vm_compute. reflexivity.
Qed.

(** X14: a prompt built from the default template passes [validatePrompt]
    unless it is longer than 2000 code units, and then that is the only
    error; the same holds for a retry prompt. *)
Theorem default_prompt_validates (request : StoryRequest.t)
  (previousError : jsstring) :
  let verdict prompt :=
    (negb (Nat.ltb 2000 (length prompt)),
     if Nat.ltb 2000 (length prompt) then [u "Prompt çok uzun"] else []) in
  validatePrompt (buildStoryPrompt request DEFAULT_TEMPLATE)
  = verdict (buildStoryPrompt request DEFAULT_TEMPLATE)
  /\ validatePrompt (buildRetryPrompt request previousError)
     = verdict (buildRetryPrompt request previousError).
Proof.
  cbv zeta.
  destruct (default_prompt_checks request) as (HL & HJ & HC).
  split.
  - now apply validatePrompt_long_enough.
  - unfold buildRetryPrompt. cbv zeta.
    revert HL HJ HC.
    generalize (buildStoryPrompt request DEFAULT_TEMPLATE).
    intros prompt HL HJ HC.
    apply validatePrompt_long_enough.
    + rewrite length_app. lia.
    + now apply String_includes_app_l.
    + now apply String_includes_app_l.
Qed.

(** A text with neither a dollar sign nor an opening brace. *)
Definition plain (s : jsstring) : bool :=
  absent 0x24 s && absent 0x7B s.

(** X15: the name of the child reaches the prompt as it is when it has
    neither a dollar sign nor an opening brace: the prompt of the default
    template then begins with the opening of the template, the name and the
    word after it. *)
Theorem plain_name_is_in_prompt (request : StoryRequest.t) :
  plain (StoryRequest.childName request) = true ->
  startsWith (buildStoryPrompt request DEFAULT_TEMPLATE)
    (opening ++ StoryRequest.childName request ++ u " adında ") = true.
Proof.
  unfold plain. intros H. apply andb_true_iff in H. destruct H as [Hd Hb].
  rewrite buildStoryPrompt_parts.
  generalize (ageLines request DEFAULT_TEMPLATE
              ++ elementLines request
              ++ (LF ++ LF
                  ++ lengthLine (PromptTemplate.lengthSpecs DEFAULT_TEMPLATE
                                   (StoryRequest.length request)))
              ++ (LF ++ LF ++ PromptTemplate.safetyInstructions DEFAULT_TEMPLATE)
              ++ (LF ++ LF ++ formatBlock (StoryRequest.theme request))).
  intros tail.
  apply startsWith_app_l.
  unfold replaced. rewrite basePrompt_opening.
  generalize (skipn 56 (PromptTemplate.basePrompt DEFAULT_TEMPLATE)).
  intros s0.
  assert (H : absent 0x7B opening = true) by (vm_compute; reflexivity).
  pose proof (String_replace_at 0x7B (u "childName}") opening
                (u " adında {age}" ++ s0) (StoryRequest.childName request) H)
    as E1.
  change (0x7B%N :: u "childName}") with (u "{childName}") in E1.
  rewrite E1, (GetSubstitution_plain _ _ _ _ Hd). clear E1.
  set (name := StoryRequest.childName request) in *.
  assert (Hp : absent 0x7B (opening ++ name ++ u " adında ") = true).
  { rewrite !absent_app, H, Hb. vm_compute. reflexivity. }
  assert (E : opening ++ name ++ u " adında {age}" ++ s0
              = (opening ++ name ++ u " adında ") ++ u "{age}" ++ s0).
  { rewrite <- !app_assoc. reflexivity. }
  rewrite E. clear E.
  generalize dependent (opening ++ name ++ u " adında ").
  intros p Hp.
  destruct (String_replace_keeps_prefix 0x7B (u "age}") p (u "{age}" ++ s0)
              (Number_toString (StoryRequest.age request)) Hp) as [s2 E2].
  change (0x7B%N :: u "age}") with (u "{age}") in E2. rewrite E2.
  destruct (String_replace_keeps_prefix 0x7B (u "length}") p s2
              (getLengthDescription (StoryRequest.length request)
                 (PromptTemplate.lengthSpecs DEFAULT_TEMPLATE
                    (StoryRequest.length request))) Hp) as [s3 E3].
  change (0x7B%N :: u "length}") with (u "{length}") in E3. rewrite E3.
  destruct (String_replace_keeps_prefix 0x7B (u "theme}") p s3
              (PromptTemplate.themePrompts DEFAULT_TEMPLATE
                 (StoryRequest.theme request)) Hp) as [s4 E4].
  change (0x7B%N :: u "theme}") with (u "{theme}") in E4. rewrite E4.
  apply startsWith_app.
Qed.

Lemma Ahmet_is_plain :
  plain (StoryRequest.childName (PromptFacts.scenarioRequest [])) = true.
Proof. vm_compute. reflexivity. Qed.

Lemma plain_name_is_in_prompt_witness :
  startsWith
    (buildStoryPrompt (PromptFacts.scenarioRequest []) DEFAULT_TEMPLATE)
    (opening ++ StoryRequest.childName (PromptFacts.scenarioRequest [])
     ++ u " adında ") = true.
Proof.
  exact (plain_name_is_in_prompt (PromptFacts.scenarioRequest [])
           Ahmet_is_plain).
Defined.

End PromptMore.

(* ================================================================== *)
(** * Splitting on runs of a class of code units                       *)
(* ================================================================== *)

Module SplitFacts.

Import Guard Validation.

Section ClassRun.

Variable ranges : list (N * N).

(** A separator unit, and the pattern of a run of separators. *)
Definition sep (c : N) : bool := set_mem false ranges c.
Definition run : RegExp := mkRegExp (RPlus (RSet ranges)) false false.

(** The text after its leading separators, and the last unit read on the
    way. *)
Fixpoint skip (s : jsstring) : jsstring :=
  match s with
  | c :: t => if sep c then skip t else s
  | [] => []
  end.

Fixpoint lastRead (p : option N) (s : jsstring) : option N :=
  match s with
  | c :: t => if sep c then lastRead (Some c) t else p
  | [] => p
  end.

(** The loop of the greedy repetition, on this class. *)
Fixpoint rep (fuel min : nat) (x : MatchState) {struct fuel}
  : option MatchState :=
  match fuel with
  | O => None
  | S fuel' =>
      let xr := clear_caps [] x in
      let d := fun y =>
        if Nat.eqb min 0 && Nat.eqb (length (rest y)) (length (rest x))
        then None
        else rep fuel' (Nat.pred min) y in
      match min with
      | O =>
          match rmatch false (RSet ranges) d xr with
          | Some z => Some z
          | None => Some x
          end
      | S _ => rmatch false (RSet ranges) d xr
      end
  end.

Lemma rmatch_rep (min : nat) (x : MatchState) :
  rmatch false (RRepeat min (RSet ranges)) Some x
  = rep (min + length (rest x) + 1) min x.
Proof. reflexivity. Qed.

Lemma length_neq_tail (t : jsstring) :
  Nat.eqb (length t) (S (length t)) = false.
Proof. apply Nat.eqb_neq. lia. Qed.

Lemma rep_zero (fuel : nat) (p : option N) (s : jsstring) :
  length s < fuel ->
  rep fuel 0 (mkState p s []) = Some (mkState (lastRead p s) (skip s) []).
Proof.
  revert p s. induction fuel as [|fuel IH]; intros p s H; [lia|].
  destruct s as [|c t]; [reflexivity|].
  cbn [rep rmatch clear_caps rest caps prev filter Nat.eqb andb Nat.pred
       length skip lastRead].
  fold (sep c). destruct (sep c); [|reflexivity].
  rewrite length_neq_tail. rewrite IH by (cbn [length] in H; lia).
  reflexivity.
Qed.

Lemma rep_one (fuel : nat) (p : option N) (s : jsstring) :
  length s < fuel ->
  rep (S fuel) 1 (mkState p s [])
  = match s with
    | c :: t =>
        if sep c then Some (mkState (lastRead (Some c) t) (skip t) [])
        else None
    | [] => None
    end.
Proof.
  intros H. destruct s as [|c t]; [reflexivity|].
  cbn [rep rmatch clear_caps rest caps prev filter Nat.eqb andb Nat.pred
       length].
  fold (sep c). destruct (sep c); [|reflexivity].
  apply rep_zero. cbn [length] in H. lia.
Qed.

(** One attempt of the pattern: it matches exactly at a separator, and
    then takes the whole run. *)
Lemma exec_run (p : option N) (s : jsstring) :
  exec_here run p s
  = match s with
    | c :: t =>
        if sep c then Some (mkState (lastRead (Some c) t) (skip t) [])
        else None
    | [] => None
    end.
Proof.
  unfold exec_here, run, RPlus. cbn [ignoreCase source].
  rewrite rmatch_rep. cbn [rest Nat.add].
  apply rep_one. lia.
Qed.

Lemma skip_length (s : jsstring) : length (skip s) <= length s.
Proof.
  induction s as [|c t IH]; [reflexivity|].
  cbn [skip]. destruct (sep c); cbn [length]; lia.
Qed.

Lemma skip_not_longer (c : N) (t : jsstring) :
  Nat.eqb (length (skip t)) (length (c :: t)) = false.
Proof.
  apply Nat.eqb_neq. pose proof (skip_length t). cbn [length]. lia.
Qed.

(** One step of the splitting loop. *)
Lemma split_loop_step (fuel : nat) (p : option N) (piece : list N)
  (c : N) (t : jsstring) :
  split_loop run (S fuel) p piece (c :: t)
  = if sep c
    then rev piece
         :: split_loop run fuel (lastRead (Some c) t) [] (skip t)
    else split_loop run fuel (Some c) (c :: piece) t.
Proof.
  cbn [split_loop]. rewrite exec_run.
  destruct (sep c); [|reflexivity].
  cbn [rest prev]. now rewrite skip_not_longer.
Qed.

Variable good : N -> bool.

(** The number of maximal runs without a separator that hold a good unit;
    [seen] tells whether the run at hand holds one already. *)
Fixpoint runsWith (seen : bool) (s : jsstring) : nat :=
  match s with
  | [] => Nat.b2n seen
  | c :: t =>
      if sep c then Nat.b2n seen + runsWith false t
      else runsWith (seen || good c) t
  end.

Lemma runsWith_skip (s : jsstring) :
  runsWith false (skip s) = runsWith false s.
Proof.
  induction s as [|c t IH]; [reflexivity|].
  cbn [skip runsWith]. destruct (sep c) eqn:E; [exact IH|].
  cbn [runsWith]. now rewrite E.
Qed.

Lemma existsb_rev' (l : list N) : existsb good (rev l) = existsb good l.
Proof.
  induction l as [|c l IH]; [reflexivity|].
  cbn [rev existsb]. rewrite existsb_app, IH. cbn [existsb].
  now rewrite orb_false_r, orb_comm.
Qed.

(** The pieces of the splitting loop that hold a good unit. *)
Lemma split_loop_count (fuel : nat) (p : option N) (piece : list N)
  (s : jsstring) :
  length s < fuel ->
  length (filter (existsb good) (split_loop run fuel p piece s))
  = runsWith (existsb good piece) s.
Proof.
  revert p piece s. induction fuel as [|fuel IH]; intros p piece s H; [lia|].
  destruct s as [|c t].
  - cbn [split_loop filter runsWith]. rewrite existsb_rev'.
    now destruct (existsb good piece).
  - rewrite split_loop_step. cbn [runsWith]. cbn [length] in H.
    destruct (sep c).
    + cbn [filter]. rewrite existsb_rev'.
      pose proof (skip_length t) as Hs.
      destruct (existsb good piece); cbn [length Nat.b2n];
        rewrite IH by lia; cbn [existsb]; now rewrite runsWith_skip.
    + rewrite IH by lia. cbn [existsb]. now rewrite orb_comm.
Qed.

Lemma split_count (s : jsstring) :
  length (filter (existsb good) (String_split s run)) = runsWith false s.
Proof.
  destruct s as [|c t].
  - unfold String_split. now rewrite exec_run.
  - unfold String_split. apply (split_loop_count _ None []).
    lia.
Qed.

(** Does the text end in a separator?  [empty] is the answer for the
    empty text. *)
Fixpoint trailing (empty : bool) (s : jsstring) : bool :=
  match s with
  | [] => empty
  | c :: t => trailing (sep c) t
  end.

Definition leading (s : jsstring) : bool :=
  match s with
  | c :: _ => sep c
  | [] => false
  end.

Lemma leading_skip (s : jsstring) : leading (skip s) = false.
Proof.
  induction s as [|c t IH]; [reflexivity|].
  cbn [skip]. destruct (sep c) eqn:E; [exact IH | exact E].
Qed.

Lemma trailing_skip (s : jsstring) :
  trailing true (skip s) = trailing true s.
Proof.
  induction s as [|c t IH]; [reflexivity|].
  cbn [skip trailing]. destruct (sep c) eqn:E; [exact IH|].
  cbn [trailing]. now rewrite E.
Qed.

End ClassRun.

(** All the pieces of the splitting loop: those that are not empty, and
    the empty ones before a leading and after a trailing separator. *)
Lemma split_loop_length (ranges : list (N * N)) (fuel : nat) (p : option N)
  (piece : list N) (s : jsstring) :
  length s < fuel ->
  length (split_loop (run ranges) fuel p piece s)
  = runsWith ranges (fun _ => true) (negb (Nat.eqb (length piece) 0)) s
    + Nat.b2n (Nat.eqb (length piece) 0 && leading ranges s)
    + Nat.b2n (trailing ranges (Nat.eqb (length piece) 0) s).
Proof.
  revert p piece s. induction fuel as [|fuel IH]; intros p piece s H; [lia|].
  destruct s as [|c t].
  - cbn [split_loop runsWith leading trailing length].
    rewrite andb_false_r. now destruct (Nat.eqb (length piece) 0).
  - rewrite split_loop_step. cbn [runsWith leading trailing].
    cbn [length] in H. destruct (sep ranges c).
    + pose proof (skip_length ranges t) as Hs.
      cbn [length]. rewrite IH by lia. cbn [length Nat.eqb negb andb].
      rewrite leading_skip, trailing_skip, runsWith_skip, andb_true_r.
      destruct (Nat.eqb (length piece) 0); cbn [negb Nat.b2n]; lia.
    + rewrite IH by lia. cbn [length Nat.eqb negb andb Nat.b2n].
      rewrite orb_true_r, andb_false_r. cbn [Nat.b2n]. lia.
Qed.

Lemma runsWith_ext (ranges : list (N * N)) (good good' : N -> bool)
  (seen : bool) (s : jsstring) :
  (forall c, good c = good' c) ->
  runsWith ranges good seen s = runsWith ranges good' seen s.
Proof.
  intros H. revert seen. induction s as [|c t IH]; intros seen;
    [reflexivity|].
  cbn [runsWith]. now rewrite H, !IH.
Qed.

(** The class of white space of the pattern is the white space that
    [trim] removes. *)
Lemma sep_space (c : N) : sep space_ranges c = isWhiteSpace c.
Proof.
  unfold sep, set_mem, space_ranges, isWhiteSpace.
  cbn [existsb fst snd].
  apply eq_true_iff_eq.
  rewrite !orb_true_iff, !andb_true_iff, !N.leb_le, !N.eqb_eq.
  lia.
Qed.

Lemma skip_space (s : jsstring) : skip space_ranges s = trimStart s.
Proof.
  induction s as [|c t IH]; [reflexivity|].
  cbn [skip trimStart]. rewrite sep_space, IH. reflexivity.
Qed.

Lemma nonempty_exists (word : jsstring) :
  Nat.ltb 0 (length word) = existsb (fun _ => true) word.
Proof. destruct word; reflexivity. Qed.

Lemma runsWith_snoc (ranges : list (N * N)) (good : N -> bool)
  (seen : bool) (s : jsstring) (c : N) :
  sep ranges c = true ->
  runsWith ranges good seen (s ++ [c]) = runsWith ranges good seen s.
Proof.
  intros H. revert seen. induction s as [|d t IH]; intros seen.
  - cbn [app runsWith]. rewrite H. apply Nat.add_0_r.
  - cbn [app runsWith]. now rewrite !IH.
Qed.

Lemma runsWith_trimEnd (good : N -> bool) (s : jsstring) :
  runsWith space_ranges good false (trimEnd s)
  = runsWith space_ranges good false s.
Proof.
  unfold trimEnd. rewrite <- (rev_involutive s) at 2.
  induction (rev s) as [|c r IH]; [reflexivity|].
  cbn [trimStart rev]. destruct (isWhiteSpace c) eqn:E.
  - rewrite IH. symmetry. apply runsWith_snoc. now rewrite sep_space.
  - reflexivity.
Qed.

Lemma trailing_last (ranges : list (N * N)) (empty : bool) (c : N)
  (t : jsstring) :
  trailing ranges empty (c :: t) = sep ranges (last (c :: t) 0%N).
Proof.
  revert empty c. induction t as [|d t IH]; intros empty c; [reflexivity|].
  change (trailing ranges empty (c :: d :: t))
    with (trailing ranges (sep ranges c) (d :: t)).
  rewrite IH. reflexivity.
Qed.

(** The words of a text, counted where they begin: a word begins at a
    unit that is not white space and does not follow such a unit. *)
Fixpoint wordsFrom (inWord : bool) (s : jsstring) : nat :=
  match s with
  | [] => 0
  | c :: t =>
      if isWhiteSpace c then wordsFrom false t
      else (if inWord then 0 else 1) + wordsFrom true t
  end.

Lemma runsWith_words (seen : bool) (s : jsstring) :
  runsWith space_ranges (fun _ => true) seen s
  = Nat.b2n seen + wordsFrom seen s.
Proof.
  revert seen. induction s as [|c t IH]; intros seen.
  - cbn [runsWith wordsFrom]. lia.
  - cbn [runsWith wordsFrom]. rewrite sep_space.
    destruct (isWhiteSpace c).
    + rewrite IH. reflexivity.
    + rewrite orb_true_r, IH. destruct seen; cbn [Nat.b2n]; lia.
Qed.

Lemma countWords_runs (content : jsstring) :
  countWords content = wordsFrom false content.
Proof.
  unfold countWords.
  rewrite (filter_ext _ _ nonempty_exists).
  change whitespace_run with (run space_ranges).
  rewrite split_count. unfold String_trim.
  rewrite runsWith_trimEnd, <- skip_space, runsWith_skip.
  apply runsWith_words.
Qed.

(** X16: [countWords] counts the maximal runs of code units that are not
    white space, so it is 0 on the empty text and on white space only; and
    trimming a text does not change the count. *)
Theorem countWords_counts_runs (content : jsstring) :
  countWords content = wordsFrom false content
  /\ countWords (String_trim content) = countWords content.
Proof.
  split; [apply countWords_runs|].
  rewrite !countWords_runs.
  pose proof (runsWith_words false) as E. cbn [Nat.b2n Nat.add] in E.
  rewrite <- !E. unfold String_trim.
  rewrite runsWith_trimEnd, <- skip_space. apply runsWith_skip.
Qed.

(** X17: the number of words that the guard takes for its length check,
    the number of pieces of the split, is the number of words of
    [countWords] plus one when the text is empty or begins with white space
    and plus one when it ends with white space. *)
Theorem guard_word_count (content : jsstring) :
  length (String_split content whitespace_run)
  = countWords content
    + Nat.b2n (match content with
               | [] => true
               | c :: _ => isWhiteSpace c
               end)
    + Nat.b2n (match content with
               | [] => false
               | _ :: _ => isWhiteSpace (last content 0%N)
               end).
Proof.
  rewrite countWords_runs.
  pose proof (runsWith_words false content) as E.
  cbn [Nat.b2n Nat.add] in E. rewrite <- E.
  change whitespace_run with (run space_ranges).
  destruct content as [|c t].
  - unfold String_split. now rewrite exec_run.
  - unfold String_split.
    rewrite (split_loop_length space_ranges _ None [] (c :: t)) by lia.
    rewrite trailing_last.
    cbn [length Nat.eqb negb andb leading]. now rewrite !sep_space.
Qed.

(** A unit that ends a sentence. *)
Definition isTerminator (c : N) : bool :=
  (c =? 0x2E)%N || (c =? 0x21)%N || (c =? 0x3F)%N.

(** The sentences of a text, counted where they end: the maximal runs
    without a terminator that hold a unit that is not white space. *)
Fixpoint sentencesFrom (seen : bool) (s : jsstring) : nat :=
  match s with
  | [] => Nat.b2n seen
  | c :: t =>
      if isTerminator c then Nat.b2n seen + sentencesFrom false t
      else sentencesFrom (seen || negb (isWhiteSpace c)) t
  end.

Lemma sep_terminator (c : N) : sep (chars (u ".!?")) c = isTerminator c.
Proof.
  unfold sep, set_mem, isTerminator.
  change (chars (u ".!?")) with [(0x2E, 0x2E); (0x21, 0x21); (0x3F, 0x3F)]%N.
  cbn [existsb fst snd].
  apply eq_true_iff_eq.
  rewrite !orb_true_iff, !andb_true_iff, !N.leb_le, !N.eqb_eq.
  lia.
Qed.

Lemma runsWith_sentences (seen : bool) (s : jsstring) :
  runsWith (chars (u ".!?")) (fun c => negb (isWhiteSpace c)) seen s
  = sentencesFrom seen s.
Proof.
  revert seen. induction s as [|c t IH]; intros seen; [reflexivity|].
  cbn [runsWith sentencesFrom]. rewrite sep_terminator, !IH. reflexivity.
Qed.

Lemma trimStart_empty (s : jsstring) :
  Nat.ltb 0 (length (trimStart s))
  = existsb (fun c => negb (isWhiteSpace c)) s.
Proof.
  induction s as [|c t IH]; [reflexivity|].
  cbn [trimStart existsb]. destruct (isWhiteSpace c); [exact IH|reflexivity].
Qed.

Lemma existsb_trimStart (f : N -> bool) (s : jsstring) :
  (forall c, isWhiteSpace c = true -> f c = false) ->
  existsb f (trimStart s) = existsb f s.
Proof.
  intros H. induction s as [|c t IH]; [reflexivity|].
  cbn [trimStart]. destruct (isWhiteSpace c) eqn:E; [|reflexivity].
  cbn [existsb]. now rewrite (H c E), IH.
Qed.

Lemma trim_empty (s : jsstring) :
  Nat.ltb 0 (length (String_trim s))
  = existsb (fun c => negb (isWhiteSpace c)) s.
Proof.
  unfold String_trim, trimEnd. rewrite length_rev, trimStart_empty.
  rewrite existsb_rev'. apply existsb_trimStart.
  intros c ->. reflexivity.
Qed.

(** X18: the sentences that the guard and the quality check count are the
    maximal runs without full stop, exclamation mark or question mark that
    hold a unit that is not white space. *)
Theorem sentences_counts_runs (content : jsstring) :
  length (sentencesOf content) = sentencesFrom false content.
Proof.
  unfold sentencesOf. rewrite (filter_ext _ _ trim_empty).
  change sentence_end with (run (chars (u ".!?"))).
  rewrite split_count. apply runsWith_sentences.
Qed.

End SplitFacts.

(* ================================================================== *)
(** * The word-count check of the validation                           *)
(* ================================================================== *)

Module WordCountSpec.

Import Validation WordCountFacts SplitFacts.

(** C6: on a response that passes the schema, an error with the code
    WORD_COUNT_MISMATCH is reported exactly when the number of words of the
    content, its maximal runs of units that are not white space (the pieces
    of a split on white space that are not empty), lies outside the closed
    range of the expected length: 80..220 for short, 180..420 for medium,
    350..650 for long; and that error is on the field wordCount.  In
    particular, under short a content of 219 words passes this check and a
    content of 221 words fails it. *)
Theorem word_count_checked_by_split (rawResponse : jsstring)
  (expectedLength : StoryLength) (config : ValidationConfig.t)
  (parsed : json) (data : ValidatedStoryResponse.t) :
  JSON_parse rawResponse = Some parsed ->
  safeParse parsed = inl data ->
  let result := validateStoryResponse rawResponse expectedLength config in
  let actual := wordsFrom false (ValidatedStoryResponse.content data) in
  let min := match expectedLength with
             | SHORT => 80 | MEDIUM => 180 | LONG => 350
             end in
  let max := match expectedLength with
             | SHORT => 220 | MEDIUM => 420 | LONG => 650
             end in
  ((exists e, In e (ValidationResult.errors result)
              /\ ValidationError.code e = WORD_COUNT_MISMATCH)
   <-> actual < min \/ max < actual)
  /\ (forall e, In e (ValidationResult.errors result) ->
        ValidationError.code e = WORD_COUNT_MISMATCH ->
        ValidationError.field e = u "wordCount")
  /\ (expectedLength = SHORT ->
      (actual = 219 ->
       ~ exists e, In e (ValidationResult.errors result)
                   /\ ValidationError.code e = WORD_COUNT_MISMATCH)
      /\ (actual = 221 ->
          exists e, In e (ValidationResult.errors result)
                    /\ ValidationError.code e = WORD_COUNT_MISMATCH)).
Proof.
  intros Hp Hs. cbv zeta.
  pose proof (mismatch_iff_countWords rawResponse expectedLength config
                parsed data Hp Hs) as H.
  cbv zeta in H. destruct H as (H1 & H2 & _).
  rewrite countWords_runs in H1. split; [|split; [exact H2|]].
  - destruct expectedLength; exact H1.
  - intros ->. cbn [getExpectedWordCountRange fst snd] in H1. split.
    + intros Hactual Herror. apply H1 in Herror. lia.
    + intros Hactual. apply H1. lia.
Qed.

(** A content of the given number of words, with white space at both ends
    and two spaces between the words, and the response that carries it. *)
Definition spaced_words (n : nat) : jsstring :=
  u " " ++ Array_join (u "  ") (repeat (u "masal") n) ++ u " ".

Definition spaced_response (n : nat) : jsstring :=
  q "{'title':'Kelime sayısı','content':'" ++ spaced_words n
  ++ q "','wordCount':100,'theme':'fantasy','language':'tr'}".

Definition spaced_parsed (n : nat) : json :=
  JObject [(u "title", JString (u "Kelime sayısı"));
           (u "content", JString (spaced_words n));
           (u "wordCount", JNumber 100);
           (u "theme", JString (u "fantasy"));
           (u "language", JString (u "tr"))].

Definition spaced_data (n : nat) : ValidatedStoryResponse.t :=
  ValidatedStoryResponse.mk (u "Kelime sayısı") (spaced_words n) 100
    FANTASY TR.

Lemma spaced_219_parses :
  JSON_parse (spaced_response 219) = Some (spaced_parsed 219).
Proof. vm_compute. reflexivity. Qed.

Lemma spaced_219_conforms :
  safeParse (spaced_parsed 219) = inl (spaced_data 219).
Proof. vm_compute. reflexivity. Qed.

Lemma spaced_221_parses :
  JSON_parse (spaced_response 221) = Some (spaced_parsed 221).
Proof. vm_compute. reflexivity. Qed.

Lemma spaced_221_conforms :
  safeParse (spaced_parsed 221) = inl (spaced_data 221).
Proof. vm_compute. reflexivity. Qed.

Lemma spaced_219_counts : wordsFrom false (spaced_words 219) = 219.
Proof. vm_compute. reflexivity. Qed.

Lemma spaced_221_counts : wordsFrom false (spaced_words 221) = 221.
Proof. vm_compute. reflexivity. Qed.

Lemma spaced_219_in_range :
  ~ (wordsFrom false (spaced_words 219) < 80
     \/ 220 < wordsFrom false (spaced_words 219)).
Proof. rewrite spaced_219_counts. lia. Qed.

Lemma spaced_221_above : 220 < wordsFrom false (spaced_words 221).
Proof. rewrite spaced_221_counts. lia. Qed.

(** Under the expected length short, a content of 219 words passes the
    check and a content of 221 words fails it. *)
Lemma word_count_checked_by_split_witness :
  wordsFrom false (spaced_words 219) = 219
  /\ ~ (exists e,
          In e (ValidationResult.errors
                  (validateStoryResponse (spaced_response 219) SHORT
                     DEFAULT_VALIDATION_CONFIG))
          /\ ValidationError.code e = WORD_COUNT_MISMATCH)
  /\ wordsFrom false (spaced_words 221) = 221
  /\ exists e,
       In e (ValidationResult.errors
               (validateStoryResponse (spaced_response 221) SHORT
                  DEFAULT_VALIDATION_CONFIG))
       /\ ValidationError.code e = WORD_COUNT_MISMATCH.
Proof.
  exact (conj spaced_219_counts
           (conj (fun H =>
                    spaced_219_in_range
                      (proj1 (proj1 (word_count_checked_by_split
                                       (spaced_response 219) SHORT
                                       DEFAULT_VALIDATION_CONFIG
                                       (spaced_parsed 219) (spaced_data 219)
                                       spaced_219_parses spaced_219_conforms))
                             H))
              (conj spaced_221_counts
                 (proj2 (proj1 (word_count_checked_by_split
                                  (spaced_response 221) SHORT
                                  DEFAULT_VALIDATION_CONFIG
                                  (spaced_parsed 221) (spaced_data 221)
                                  spaced_221_parses spaced_221_conforms))
                        (or_intror spaced_221_above))))).
Defined.

End WordCountSpec.

(* ================================================================== *)
(** * Properties of the endpoint and of the services                   *)
(* ================================================================== *)

Module HandlerFacts.

Import Guard Validation StoryApi GeminiClient Auth Supabase StoryHandler.
Import GuardFacts GuardMore ValidationFacts ValidationMore RetryMore PromptMore.

(** ** The request body *)

Definition requestErrors (childName age theme length_ : option json)
  : list ValidationError.t :=
  (if childName_rejected childName
   then [ValidationError.mk (u "childName") (u "Çocuk adı gerekli")
           MISSING_CHILD_NAME]
   else [])
  ++ (if age_rejected age
      then [ValidationError.mk (u "age") (u "Yaş 3-18 arasında olmalı")
              INVALID_AGE]
      else [])
  ++ (if theme_rejected theme
      then [ValidationError.mk (u "theme") (u "Geçersiz hikaye teması")
              INVALID_THEME]
      else [])
  ++ (if length_rejected length_
      then [ValidationError.mk (u "length")
              (u "Geçersiz hikaye uzunluğu") INVALID_LENGTH]
      else []).

Lemma validateUserRequest_eq (body : json) :
  validateUserRequest body
  = match property body (u "childName"), property body (u "age"),
          property body (u "theme"), property body (u "length") with
    | Some childName, Some age, Some theme, Some length_ =>
        Some (Nat.eqb (length (requestErrors childName age theme length_)) 0,
              requestErrors childName age theme length_)
    | _, _, _, _ => None
    end.
Proof. reflexivity. Qed.

Lemma requestErrors_nil (childName age theme length_ : option json) :
  Nat.eqb (length (requestErrors childName age theme length_)) 0 = true ->
  requestErrors childName age theme length_ = []
  /\ childName_rejected childName = false
  /\ age_rejected age = false
  /\ theme_rejected theme = false
  /\ length_rejected length_ = false.
Proof.
  unfold requestErrors.
  destruct (childName_rejected childName), (age_rejected age),
           (theme_rejected theme), (length_rejected length_);
    cbn [app length Nat.eqb]; intros H; try discriminate H; repeat split.
Qed.

Lemma existsb_find {A} (f : A -> bool) (l : list A) :
  existsb f l = true -> exists x, find f l = Some x.
Proof.
  induction l as [|a l IH]; [discriminate|].
  cbn [existsb find]. destruct (f a); [now exists a | exact IH].
Qed.

(** A body that is not an object has no name. *)
Ltac not_an_object :=
  let H := fresh in
  first
    [ discriminate
    | intros H; injection H as H _; apply requestErrors_nil in H;
      destruct H as (_ & H & _);
      try change (String_eqb (u "childName") (u "length")) with false in H;
      cbv beta iota in H; vm_compute in H; discriminate H ].

(** A body that passes [validateUserRequest] is an object with a name, an
    age, a theme and a length of the right kinds. *)
Lemma valid_body (body : json) (errors : list ValidationError.t) :
  validateUserRequest body = Some (true, errors) ->
  errors = []
  /\ exists members name age theme length_,
       body = JObject members
       /\ lookup (u "childName") members = Some (JString name)
       /\ lookup (u "age") members = Some (JNumber age)
       /\ StoryTheme_of
            (match lookup (u "theme") members with
             | Some v => v
             | None => JNull
             end) = Some theme
       /\ lookup (u "theme") members <> None
       /\ StoryLength_of
            (match lookup (u "length") members with
             | Some v => v
             | None => JNull
             end) = Some length_
       /\ lookup (u "length") members <> None.
Proof.
  rewrite validateUserRequest_eq.
  destruct body as [| b | x | s | l | members]; cbn [property];
    [discriminate | not_an_object .. |].
  intros H. injection H as H1 H2. apply requestErrors_nil in H1.
  destruct H1 as (Hnil & Hc & Ha & Ht & Hl).
  split; [congruence|].
  rewrite childName_rejected_spec in Hc. rewrite age_rejected_spec in Ha.
  unfold theme_rejected in Ht. rewrite includes_value_theme in Ht.
  unfold length_rejected in Hl. rewrite includes_value_length in Hl.
  apply negb_false_iff in Hc, Ha, Ht, Hl.
  destruct (lookup (u "childName") members) as [[| | | name | |]|] eqn:En;
    try discriminate Hc.
  destruct (lookup (u "age") members) as [[| | age | | |]|] eqn:Ea;
    try discriminate Ha.
  destruct (lookup (u "theme") members) as [[| | | theme | |]|] eqn:Eth;
    try discriminate Ht.
  destruct (lookup (u "length") members) as [[| | | len | |]|] eqn:El;
    try discriminate Hl.
  cbn [spec_theme_ok] in Ht. cbn [spec_length_ok] in Hl.
  apply existsb_find in Ht, Hl.
  destruct Ht as [t Ht]. destruct Hl as [l Hl].
  exists members, name, age, t, l.
  rewrite En, Ea, Eth, El.
  split; [reflexivity|]. split; [reflexivity|]. split; [reflexivity|].
  split; [exact Ht|]. split; [discriminate|]. split; [exact Hl|].
  discriminate.
Qed.

(** The input of the pre-check of step 3. *)
Definition userInput (storyRequest : StoryRequest.t) : jsstring :=
  StoryRequest.childName storyRequest ++ u " "
  ++ match StoryRequest.elements storyRequest with
     | Some elements => Array_join (u " ") elements
     | None => []
     end.

(** On a body that passes [validateUserRequest], the request is made
    unless [elements] is neither an array nor absent. *)
Lemma storyRequest_of_valid (body : json) (errors : list ValidationError.t) :
  validateUserRequest body = Some (true, errors) ->
  exists name age theme length_ token,
    get (u "childName") body = Some (JString name)
    /\ storyRequest_of body
       = match elements_of (get (u "elements") body) with
         | Some elements =>
             Some (StoryRequest.mk name age theme length_ elements token)
         | None => None
         end.
Proof.
  intros H. apply valid_body in H.
  destruct H as (_ & members & name & age & theme & len & -> & Hn & Ha & Ht
                 & Ht' & Hl & Hl').
  exists name, age, theme, len.
  exists (match lookup (u "token") members with
          | Some (JString token) => token
          | _ => []
          end).
  split; [exact Hn|].
  unfold storyRequest_of, get. rewrite Hn, Ha.
  destruct (lookup (u "theme") members) as [tj|]; [|congruence].
  destruct (lookup (u "length") members) as [lj|]; [|congruence].
  rewrite Ht, Hl.
  destruct (elements_of (lookup (u "elements") members)); reflexivity.
Qed.

(** ** The endpoint *)

Definition statusOf (reply : Reply) : nat :=
  match reply with
  | Ended status => status
  | Failed status _ _ => status
  | Succeeded _ _ => 200
  end.

(** An input that passes the pre-check holds no blocked term. *)
Lemma precheck_no_term (input : jsstring) :
  SafetyCheckResult.safe (preCheckUserInput input) = true ->
  extractBlockedTerms input DEFAULT_BLOCKED_TERMS = [].
Proof.
  unfold preCheckUserInput, Guard.checkContentSafety.
  change (runGuards input _)
    with [checkBlockedTerms input DEFAULT_BLOCKED_TERMS;
          checkRegexPatterns input (filter isBlocking DEFAULT_GUARD_RULES)].
  cbn [SafetyCheckResult.safe forallb].
  rewrite andb_true_r, andb_true_iff, checkBlockedTerms_safe, Nat.eqb_eq,
    length_zero_iff_nil.
  now intros [H _].
Qed.

Lemma toLowerCase_app (s t : jsstring) :
  toLowerCase (s ++ t) = toLowerCase s ++ toLowerCase t.
Proof. apply flat_map_app. Qed.

Lemma Array_join_In (sep : jsstring) (l : list jsstring) (e : jsstring) :
  In e l -> exists before after, Array_join sep l = before ++ e ++ after.
Proof.
  induction l as [|s rest IH]; [intros []|].
  intros [<- | Hin].
  - destruct rest as [|r rest].
    + exists [], []. cbn [Array_join app]. now rewrite app_nil_r.
    + exists [], (sep ++ Array_join sep (r :: rest)). reflexivity.
  - destruct rest as [|r rest]; [destruct Hin|].
    destruct (IH Hin) as (before & after & E).
    exists (s ++ sep ++ before), after.
    change (Array_join sep (s :: r :: rest))
      with (s ++ sep ++ Array_join sep (r :: rest)).
    rewrite E. now rewrite <- !app_assoc.
Qed.

(** A text in which nothing is found holds nothing in its parts. *)
Lemma not_included_part (before part after sub : jsstring) :
  String_includes (before ++ part ++ after) sub = false ->
  String_includes part sub = false.
Proof.
  intros H. destruct (String_includes part sub) eqn:E; [|reflexivity].
  rewrite (String_includes_app_r before (part ++ after) sub) in H;
    [discriminate H|].
  now apply String_includes_app_l.
Qed.

Section Request.

Variable world : World.t.
Variable method : jsstring.
Variable authorization : option jsstring.
Variable body : json.

(** X19: the generator is called only for a POST of an authenticated
    user whose body passes the validation and whose name and elements pass
    the pre-check, with the database and the generator configured and with
    fewer than 10 stories counted; the calls are then those of one run of
    the generation with retry. *)
Theorem generation_is_guarded :
  Handled.calls (handler world method authorization body) <> [] ->
  method = u "POST"
  /\ exists authPayload storyRequest config,
       authenticateToken (World.verify world) (World.env world) authorization
       = Some authPayload
       /\ validateUserRequest body = Some (true, [])
       /\ storyRequest_of body = Some storyRequest
       /\ SafetyCheckResult.safe (preCheckUserInput (userInput storyRequest))
          = true
       /\ createSupabaseService (World.createClient world)
            (World.env world) = true
       /\ getUserStoryCount
            (World.countStories world (AuthPayload.userId authPayload)) < 10
       /\ createGeminiClient (World.newGenerativeAI world)
            (World.env world) = Some config
       /\ Handled.calls (handler world method authorization body)
          = snd (generateStoryWithRetry
                   (generateStory config (World.sdk world)) storyRequest).
Proof.
  unfold handler.
  destruct (String_eqb method (u "OPTIONS")); [now intros []|].
  destruct (String_eqb method (u "POST")) eqn:Hm; cbn [negb];
    [|now intros []].
  apply String_eqb_eq in Hm.
  destruct (authenticateToken _ _ _) as [authPayload|] eqn:Hauth;
    [|now intros []].
  destruct (validateUserRequest body) as [[[|] errors]|] eqn:Hv;
    [|now intros []|now intros []].
  destruct (valid_body _ _ Hv) as [-> _].
  destruct (storyRequest_of body) as [storyRequest|] eqn:Hreq;
    [|now intros []].
  fold (userInput storyRequest).
  destruct (SafetyCheckResult.safe (preCheckUserInput (userInput storyRequest)))
    eqn:Hsafe; cbn [negb]; [|now intros []].
  destruct (createSupabaseService (World.createClient world)
              (World.env world)) eqn:Hsupa; cbn [negb];
    [|now intros []].
  destruct (Nat.leb_spec 10
              (getUserStoryCount
                 (World.countStories world (AuthPayload.userId authPayload))))
    as [Hc | Hc]; [now intros []|].
  destruct (createGeminiClient (World.newGenerativeAI world)
              (World.env world)) as [config|] eqn:Hcfg;
    [|now intros []].
  cbv zeta. intros _. split; [assumption|].
  exists authPayload, storyRequest, config.
  do 7 (split; [first [reflexivity | assumption]|]).
  generalize (generateStoryWithRetry
                (generateStory config (World.sdk world)) storyRequest).
  intros run.
  destruct (Generation.success (fst run)); cbn [negb]; [|reflexivity].
  destruct (Generation.story (fst run)), (Generation.metadata (fst run));
    try reflexivity.
  destruct (World.insert _ _ _ _); reflexivity.
Qed.

(** X20: a story that the endpoint returns has been stored, once, under
    the user of the token, and has been checked: the guard of the default
    configuration finds its content safe and without blocked term, and the
    number of its words is in the range of its length.  It bears the name of
    the body, the new id and the date.  The reply carries the elapsed time,
    but the row stored has the generation time 0. *)
Theorem returned_story_is_stored_and_checked (story : Story.t)
  (metadata : StoryMetadata.t) :
  Handled.reply (handler world method authorization body)
  = Succeeded story metadata ->
  exists authPayload stored,
    authenticateToken (World.verify world) (World.env world) authorization
    = Some authPayload
    /\ Handled.stored (handler world method authorization body)
       = [(story, AuthPayload.userId authPayload, stored)]
    /\ World.insert world story (AuthPayload.userId authPayload) stored = true
    /\ StoryMetadata.generationTime stored = 0%float
    /\ StoryMetadata.generationTime metadata = World.elapsed world
    /\ Story.id story = World.storyId world
    /\ Story.createdAt story = World.createdAt world
    /\ get (u "childName") body = Some (JString (Story.childName story))
    /\ SafetyCheckResult.safe
         (Guard.checkContentSafety (Story.content story) DEFAULT_CONFIG) = true
    /\ extractBlockedTerms (Story.content story) DEFAULT_BLOCKED_TERMS = []
    /\ fst (getExpectedWordCountRange (Story.length story))
       <= countWords (Story.content story)
       <= snd (getExpectedWordCountRange (Story.length story)).
Proof.
  unfold handler.
  destruct (String_eqb method (u "OPTIONS")); [discriminate|].
  destruct (String_eqb method (u "POST")); cbn [negb]; [|discriminate].
  destruct (authenticateToken _ _ _) as [authPayload|] eqn:Hauth;
    [|discriminate].
  destruct (validateUserRequest body) as [[[|] errors]|] eqn:Hv;
    [|discriminate|discriminate].
  destruct (storyRequest_of_valid _ _ Hv)
    as (name & age & theme & len & token & Hname & Hreq).
  rewrite Hreq.
  destruct (elements_of (get (u "elements") body)) as [elements|];
    [|discriminate].
  set (storyRequest := StoryRequest.mk name age theme len elements token).
  destruct (SafetyCheckResult.safe (preCheckUserInput _)); cbn [negb];
    [|discriminate].
  destruct (createSupabaseService (World.createClient world)
              (World.env world)); cbn [negb];
    [|discriminate].
  destruct (Nat.leb 10 _); [discriminate|].
  destruct (createGeminiClient (World.newGenerativeAI world)
              (World.env world)) as [config|];
    [|discriminate].
  cbv zeta.
  pose proof (successful_run (generateStory config (World.sdk world))
                storyRequest) as Hrun.
  destruct (Generation.success
              (fst (generateStoryWithRetry
                      (generateStory config (World.sdk world)) storyRequest)));
    cbn [negb]; [|discriminate].
  destruct (Hrun eq_refl)
    as (calls & prompt & n & response & data & _ & _ & _ & Hnil & Hres).
  rewrite Hres. cbn [Generation.story Generation.metadata].
  cbn [Story.title Story.content Story.childName Story.theme Story.length
       Story.wordCount StoryMetadata.model StoryMetadata.safetyScore
       StoryMetadata.language StoryMetadata.promptVersion
       StoryRequest.childName StoryRequest.theme StoryRequest.length
       storyRequest].
  destruct (World.insert world _ _ _) eqn:Hins; [|discriminate].
  cbn [Handled.reply Handled.stored]. intros [= <- <-].
  destruct (contentErrors_nil _ _ _ Hnil) as (Hsafe & Hrange & _).
  exists authPayload. eexists.
  split; [reflexivity|]. split; [reflexivity|]. split; [exact Hins|].
  cbn [StoryMetadata.generationTime Story.id Story.createdAt Story.childName
       Story.content Story.length].
  do 4 (split; [reflexivity|]). split; [exact Hname|].
  split; [exact Hsafe|]. split; [|exact Hrange].
  now apply safe_has_no_blocked_term.
Qed.

(** X21: the reply is 429 exactly when a POST of an authenticated user
    with a valid body, elements that can be joined and a safe input meets a
    database whose client can be created and whose counting query answers
    with a count of 10 or more.  When the query answers with an error, or
    throws, no limit applies. *)
Theorem rate_limit_iff :
  statusOf (Handled.reply (handler world method authorization body)) = 429
  <-> method = u "POST"
      /\ exists authPayload storyRequest count,
           authenticateToken (World.verify world) (World.env world)
             authorization = Some authPayload
           /\ validateUserRequest body = Some (true, [])
           /\ storyRequest_of body = Some storyRequest
           /\ SafetyCheckResult.safe
                (preCheckUserInput (userInput storyRequest)) = true
           /\ createSupabaseService (World.createClient world)
                (World.env world) = true
           /\ World.countStories world (AuthPayload.userId authPayload)
              = CountAnswer (Some count)
           /\ 10 <= count.
Proof.
  split.
  - unfold handler.
    destruct (String_eqb method (u "OPTIONS")); [discriminate|].
    destruct (String_eqb method (u "POST")) eqn:Hm; cbn [negb];
      [|discriminate].
    apply String_eqb_eq in Hm.
    destruct (authenticateToken _ _ _) as [authPayload|] eqn:Hauth;
      [|discriminate].
    destruct (validateUserRequest body) as [[[|] errors]|] eqn:Hv;
      [|discriminate|discriminate].
    destruct (valid_body _ _ Hv) as [-> _].
    destruct (storyRequest_of body) as [storyRequest|] eqn:Hreq;
      [|discriminate].
    fold (userInput storyRequest).
    destruct (SafetyCheckResult.safe
                (preCheckUserInput (userInput storyRequest))) eqn:Hsafe;
      cbn [negb]; [|discriminate].
    destruct (createSupabaseService (World.createClient world)
                (World.env world)) eqn:Hsupa;
      cbn [negb]; [|discriminate].
    destruct (Nat.leb_spec 10
                (getUserStoryCount
                   (World.countStories world
                      (AuthPayload.userId authPayload)))) as [Hc | Hc].
    + intros _. split; [assumption|].
      destruct (World.countStories world (AuthPayload.userId authPayload))
        as [[count|] | |] eqn:Hcount; cbn [getUserStoryCount] in Hc;
        try lia.
      exists authPayload, storyRequest, count. repeat split; assumption.
    + destruct (createGeminiClient (World.newGenerativeAI world)
                  (World.env world)) as [config|];
        [|discriminate].
      cbv zeta.
      generalize (generateStoryWithRetry
                    (generateStory config (World.sdk world)) storyRequest).
      intros run.
      destruct (Generation.success (fst run)); cbn [negb]; [|discriminate].
      destruct (Generation.story (fst run)), (Generation.metadata (fst run));
        try discriminate.
      destruct (World.insert _ _ _ _); discriminate.
  - intros (-> & authPayload & storyRequest & count & Hauth & Hv & Hreq
            & Hsafe & Hsupa & Hcount & Hc).
    unfold handler.
    change (String_eqb (u "POST") (u "OPTIONS")) with false.
    change (String_eqb (u "POST") (u "POST")) with true.
    cbn [negb]. rewrite Hauth, Hv, Hreq. fold (userInput storyRequest).
    rewrite Hsafe, Hsupa, Hcount. cbn [negb getUserStoryCount].
    apply Nat.leb_le in Hc. rewrite Hc. reflexivity.
Qed.

(** X23: without a JWT secret in the environment every POST is answered
    with 401, whatever the token; nothing is generated or stored. *)
Theorem no_secret_no_service :
  Env.truthy (Env.JWT_SECRET (World.env world)) = false ->
  handler world (u "POST") authorization body
  = Handled.mk (Failed 401 (Some (u "Authentication required")) NoDetails)
      [] [].
Proof.
  intros H. unfold handler.
  change (String_eqb (u "POST") (u "OPTIONS")) with false.
  change (String_eqb (u "POST") (u "POST")) with true.
  cbn [negb].
  assert (E : authenticateToken (World.verify world) (World.env world)
                authorization = None).
  { unfold authenticateToken. cbv zeta.
    destruct (match authorization with
              | Some ((_ :: _) as authHeader) =>
                  nth_error (split_at_spaces [] authHeader) 1
              | _ => None
              end) as [[|c token]|]; try reflexivity.
    destruct (Env.JWT_SECRET (World.env world)) as [[|c' secret]|];
      [reflexivity | discriminate H | reflexivity]. }
  now rewrite E.
Qed.

(** X24: with the configuration that the health endpoint reports as
    healthy, the handler ends in its [catch] only when the body is null;
    when the elements of a valid body are not an array (and not absent) or
    hold an item that has no text, an object with a member toString of its
    own; when [createClient] or the constructor of the generative library
    throws; or when the insert of a generated and checked story fails. *)
Theorem internal_error_causes :
  fst (fst (Health.handler (World.env world) (u "GET"))) = 200 ->
  Handled.reply (handler world method authorization body) = internalError ->
  validateUserRequest body = None
  \/ (validateUserRequest body = Some (true, [])
      /\ elements_of (get (u "elements") body) = None)
  \/ (exists url key,
        Env.SUPABASE_URL (World.env world) = Some url
        /\ Env.SUPABASE_ANON_KEY (World.env world) = Some key
        /\ World.createClient world url key = false)
  \/ (exists apiKey,
        Env.GEMINI_API_KEY (World.env world) = Some apiKey
        /\ World.newGenerativeAI world apiKey = false)
  \/ (exists story userId metadata,
        World.insert world story userId metadata = false
        /\ Handled.calls (handler world method authorization body) <> []
        /\ SafetyCheckResult.safe
             (Guard.checkContentSafety (Story.content story) DEFAULT_CONFIG)
           = true).
Proof.
  intros Hhealth.
  assert (Henv : exists apiKey url key,
             Env.GEMINI_API_KEY (World.env world) = Some apiKey
             /\ Env.SUPABASE_URL (World.env world) = Some url
             /\ Env.SUPABASE_ANON_KEY (World.env world) = Some key
             /\ createSupabaseService (World.createClient world)
                  (World.env world)
                = World.createClient world url key
             /\ createGeminiClient (World.newGenerativeAI world)
                  (World.env world)
                = if World.newGenerativeAI world apiKey
                  then Some (GeminiConfig.mk apiKey (u "gemini-pro") 0.9 1024)
                  else None).
  { revert Hhealth. unfold Health.handler.
    change (String_eqb (u "GET") (u "GET")) with true.
    cbn [negb forallb]. cbv zeta.
    unfold validateGeminiConfig, validateSupabaseConfig, createSupabaseService,
      createGeminiClient.
    destruct (Env.GEMINI_API_KEY (World.env world)) as [[|c1 apiKey]|];
      cbn [Env.truthy andb fst]; try discriminate.
    destruct (Env.SUPABASE_URL (World.env world)) as [[|c2 url]|];
      cbn [Env.truthy andb fst]; try discriminate.
    destruct (Env.SUPABASE_ANON_KEY (World.env world)) as [[|c3 key]|];
      cbn [Env.truthy andb fst]; try discriminate.
    intros _. do 3 eexists. repeat split; reflexivity. }
  destruct Henv as (apiKey & url & key & Hg & Hu & Hk & Hsupa & Hconfig).
  unfold handler.
  destruct (String_eqb method (u "OPTIONS")); [discriminate|].
  destruct (String_eqb method (u "POST")); cbn [negb]; [|discriminate].
  destruct (authenticateToken _ _ _) as [authPayload|]; [|discriminate].
  destruct (validateUserRequest body) as [[[|] errors]|] eqn:Hv;
    [|discriminate|now left].
  destruct (valid_body _ _ Hv) as [-> _].
  destruct (storyRequest_of_valid _ _ Hv)
    as (name & age & theme & len & token & Hname & Hreq).
  rewrite Hreq.
  destruct (elements_of (get (u "elements") body)) as [elements|];
    [|intros _; right; left; now split].
  set (storyRequest := StoryRequest.mk name age theme len elements token).
  destruct (SafetyCheckResult.safe (preCheckUserInput _)); cbn [negb];
    [|discriminate].
  rewrite Hsupa, Hconfig.
  destruct (World.createClient world url key) eqn:Hcc; cbn [negb];
    [|intros _; right; right; left; now exists url, key].
  destruct (Nat.leb 10 _); [discriminate|].
  destruct (World.newGenerativeAI world apiKey) eqn:Hng;
    [|intros _; right; right; right; left; now exists apiKey].
  set (config := GeminiConfig.mk apiKey (u "gemini-pro") 0.9 1024).
  cbv zeta.
  pose proof (successful_run (generateStory config (World.sdk world))
                storyRequest) as Hrun.
  pose proof (failed_run (generateStory config (World.sdk world))
                storyRequest) as Hfail.
  destruct (Generation.success
              (fst (generateStoryWithRetry
                      (generateStory config (World.sdk world)) storyRequest)));
    cbn [negb].
  - destruct (Hrun eq_refl)
      as (calls & prompt & n & response & data & Hcalls & _ & _ & Hnil & Hres).
    rewrite Hres, Hcalls. cbn [Generation.story Generation.metadata].
    destruct (World.insert world _ _ _) eqn:Hins; [discriminate|].
    intros _. do 4 right.
    destruct (contentErrors_nil _ _ _ Hnil) as (Hsafe & _).
    do 3 eexists. split; [exact Hins|].
    cbn [Handled.calls Story.content]. split; [|exact Hsafe].
    destruct calls; discriminate.
  - destruct (Hfail eq_refl) as [lastError ->].
    cbn [Handled.reply]. unfold internalError, failed.
    cbn [Generation.error]. intros H. exfalso.
    injection H as H. discriminate H.
Qed.

(** X26: when the generator is called, the lower case of the name of the
    child and the lower case of each element of the request hold no term of
    the default block list.  (Lower case is that of [toLowerCase]: a term
    written with the capitals I or İ, as BIÇAK, is not covered.) *)
Theorem generated_for_clean_input :
  Handled.calls (handler world method authorization body) <> [] ->
  exists storyRequest,
    storyRequest_of body = Some storyRequest
    /\ forall term,
         In term DEFAULT_BLOCKED_TERMS ->
         String_includes
           (toLowerCase (StoryRequest.childName storyRequest)) term = false
         /\ forall element,
              In element
                 (match StoryRequest.elements storyRequest with
                  | Some elements => elements
                  | None => []
                  end) ->
              String_includes (toLowerCase element) term = false.
Proof.
  unfold handler.
  destruct (String_eqb method (u "OPTIONS")); [now intros []|].
  destruct (String_eqb method (u "POST")); cbn [negb]; [|now intros []].
  destruct (authenticateToken _ _ _) as [authPayload|]; [|now intros []].
  destruct (validateUserRequest body) as [[[|] errors]|];
    [|now intros []|now intros []].
  destruct (storyRequest_of body) as [storyRequest|]; [|now intros []].
  fold (userInput storyRequest).
  destruct (SafetyCheckResult.safe (preCheckUserInput (userInput storyRequest)))
    eqn:Hsafe; cbn [negb]; [|now intros []].
  intros _. exists storyRequest. split; [reflexivity|].
  apply precheck_no_term in Hsafe.
  intros term Hterm.
  assert (H : String_includes (toLowerCase (userInput storyRequest)) term
              = false).
  { destruct (String_includes (toLowerCase (userInput storyRequest)) term)
      eqn:E; [|reflexivity].
    assert (Hf : In term (extractBlockedTerms (userInput storyRequest)
                            DEFAULT_BLOCKED_TERMS)).
    { apply filter_In. split; [assumption|].
      now rewrite (DEFAULT_BLOCKED_TERMS_lower term Hterm). }
    rewrite Hsafe in Hf. destruct Hf. }
  unfold userInput in H. rewrite !toLowerCase_app in H.
  split.
  - apply (not_included_part [] _ _ _ H).
  - intros element Hin.
    destruct (StoryRequest.elements storyRequest) as [elements|];
      [|destruct Hin].
    destruct (Array_join_In (u " ") elements element Hin)
      as (before & after & E).
    rewrite E, !toLowerCase_app in H.
    apply (not_included_part
             (toLowerCase (StoryRequest.childName storyRequest)
              ++ toLowerCase (u " ") ++ toLowerCase before)
             _ (toLowerCase after)).
    now rewrite <- !app_assoc.
Qed.

End Request.

(** ** The token *)

Lemma split_at_spaces_word (piece word rest : jsstring) :
  absent 0x20 word = true ->
  split_at_spaces piece (word ++ 0x20%N :: rest)
  = (rev piece ++ word) :: split_at_spaces [] rest.
Proof.
  revert piece. induction word as [|c word IH]; intros piece H.
  - cbn [app split_at_spaces]. rewrite N.eqb_refl. now rewrite app_nil_r.
  - cbn [absent forallb] in H. apply andb_true_iff in H.
    destruct H as [Hc Hw]. apply negb_true_iff in Hc.
    rewrite N.eqb_sym in Hc.
    cbn [app split_at_spaces]. rewrite Hc, (IH (c :: piece) Hw).
    cbn [rev]. now rewrite <- app_assoc.
Qed.

Lemma split_at_spaces_end (piece word : jsstring) :
  absent 0x20 word = true ->
  split_at_spaces piece word = [rev piece ++ word].
Proof.
  revert piece. induction word as [|c word IH]; intros piece H.
  - cbn [split_at_spaces]. now rewrite app_nil_r.
  - cbn [absent forallb] in H. apply andb_true_iff in H.
    destruct H as [Hc Hw]. apply negb_true_iff in Hc.
    rewrite N.eqb_sym in Hc.
    cbn [split_at_spaces]. rewrite Hc, (IH (c :: piece) Hw).
    cbn [rev]. now rewrite <- app_assoc.
Qed.

(** X22: the scheme of the Authorization header is not looked at.  The
    token is what stands between the first and the second space, and when
    it is not empty and the secret is set, the verdict is that of
    [jwt.verify] on it, whatever the word in front and whatever follows. *)
Theorem scheme_is_not_checked (verify : Verifier) (env : Env.t)
  (scheme token secret : jsstring) (rest : option jsstring) :
  absent 0x20 scheme = true ->
  absent 0x20 token = true ->
  token <> [] ->
  Env.JWT_SECRET env = Some secret ->
  secret <> [] ->
  authenticateToken verify env
    (Some (scheme ++ u " " ++ token
           ++ match rest with
              | Some more => u " " ++ more
              | None => []
              end))
  = verify token secret.
Proof.
  intros Hscheme Htoken Hne Hsecret Hs.
  unfold authenticateToken. cbv zeta.
  change (u " ") with [0x20%N].
  assert (E : nth_error
                (split_at_spaces []
                   (scheme ++ [0x20%N] ++ token
                    ++ match rest with
                       | Some more => [0x20%N] ++ more
                       | None => []
                       end)) 1
              = Some token).
  { cbn [app]. rewrite (split_at_spaces_word [] scheme _ Hscheme).
    cbn [nth_error]. destruct rest as [more|].
    - now rewrite (split_at_spaces_word [] token more Htoken).
    - rewrite app_nil_r. now rewrite (split_at_spaces_end [] token Htoken). }
  destruct (scheme ++ [0x20%N] ++ token
            ++ match rest with
               | Some more => [0x20%N] ++ more
               | None => []
               end) as [|c header] eqn:Eh.
  - destruct scheme; discriminate Eh.
  - rewrite E. destruct token as [|t token]; [congruence|].
    rewrite Hsecret. destruct secret as [|s secret]; [congruence|].
    reflexivity.
Qed.

(** ** The safety question to the model *)

Lemma upperUnit_keeps_out (c : N) :
  c <> 0x130%N -> ~ In 0x130%N (upperUnit c).
Proof.
  intros Hc. unfold upperUnit.
  repeat match goal with
         | |- context [if ?b then _ else _] =>
             let E := fresh "E" in destruct b eqn:E
         end;
    cbn [In]; intros H;
    repeat match goal with
           | E : _ && _ = true |- _ =>
               apply andb_true_iff in E; destruct E
           end;
    repeat match goal with
           | E : (_ <=? _)%N = true |- _ => apply N.leb_le in E
           | E : (_ =? _)%N = true |- _ => apply N.eqb_eq in E
           end;
    repeat destruct H as [H | H]; try contradiction; lia.
Qed.

Lemma toUpperCase_keeps_out (text : jsstring) :
  ~ In 0x130%N text -> ~ In 0x130%N (toUpperCase text).
Proof.
  intros H Hin. unfold toUpperCase in Hin. apply in_flat_map in Hin.
  destruct Hin as (c & Hc & Hu).
  apply (upperUnit_keeps_out c); [|assumption].
  intros ->. now apply H.
Qed.

Lemma startsWith_In (s sub : jsstring) (c : N) :
  startsWith s sub = true -> In c sub -> In c s.
Proof.
  revert s. induction sub as [|d sub IH]; intros s H Hin; [destruct Hin|].
  destruct s as [|e s]; [discriminate H|].
  cbn [startsWith] in H. apply andb_true_iff in H. destruct H as [He H].
  apply N.eqb_eq in He. subst e.
  destruct Hin as [<- | Hin]; [now left | right; now apply IH].
Qed.

Lemma String_includes_In (s sub : jsstring) (c : N) :
  String_includes s sub = true -> In c sub -> In c s.
Proof.
  intros H Hin. induction s as [|d s IH].
  - cbn [String_includes] in H. rewrite orb_false_r in H.
    now apply (startsWith_In [] sub c).
  - cbn [String_includes] in H. apply orb_true_iff in H.
    destruct H as [H | H]; [now apply (startsWith_In (d :: s) sub c)|].
    right. now apply IH.
Qed.

(** X25: the verdict on a reply of the model that does not hold the
    capital dotted I (U+0130) is decided by the word GÜVENLI alone: upper
    case never produces that letter, so the denial GÜVENLI DEĞİL is never
    found, and a reply that denies in lower case is taken for safe.  The
    reply is in the blocks on which the upper case is modelled. *)
Theorem verdict_without_dotted_I (sdk : Sdk) (content reply : jsstring)
  (candidates : option (list Candidate.t)) :
  sdk (ModelParams.mk (u "gemini-pro") None []) (safetyPrompt content)
  = Answered reply candidates ->
  forallb (fun c => (c <? 0x180)%N) reply = true ->
  ~ In 0x130%N reply ->
  GeminiClient.checkContentSafety sdk content
  = String_includes (toUpperCase reply) (u "GÜVENLI").
Proof.
  intros Hsdk _ Hout. unfold GeminiClient.checkContentSafety. cbv zeta.
  rewrite Hsdk.
  destruct (String_includes (toUpperCase reply) (u "GÜVENLI DEĞİL")) eqn:E.
  - exfalso. apply (toUpperCase_keeps_out reply Hout).
    apply (String_includes_In _ _ 0x130%N E).
    vm_compute. tauto.
  - cbn [negb]. apply andb_true_r.
Qed.

(** ** The client of the model *)

(** The parameters that [generateStory] gives to the model, and the
    message of the error it throws for an error of the library. *)
Definition paramsFor (config : GeminiConfig.t) (retryCount : nat)
  : ModelParams.t :=
  ModelParams.mk (GeminiConfig.model config)
    (Some (GenerationConfig.mk
             (if Nat.ltb 0 retryCount then 0.7%float
              else GeminiConfig.temperature config)
             (GeminiConfig.maxOutputTokens config)))
    safetySettings.

Definition errorMessage (message : option jsstring) : jsstring :=
  if mentions message (u "SAFETY")
  then u "Content was blocked by safety filters"
  else if mentions message (u "QUOTA")
  then u "API quota exceeded"
  else u "AI generation failed: "
       ++ match message with
          | Some text => text
          | None => u "undefined"
          end.

Lemma generateStory_threw (config : GeminiConfig.t) (sdk : Sdk)
  (prompt : jsstring) (retryCount : nat) (message : option jsstring) :
  sdk (paramsFor config retryCount) prompt = Threw message ->
  generateStory config sdk prompt retryCount
  = Rejected (errorMessage message).
Proof.
  intros H. unfold generateStory. cbv zeta.
  fold (paramsFor config retryCount). rewrite H. unfold errorMessage.
  destruct (mentions message (u "SAFETY")); [reflexivity|].
  destruct (mentions message (u "QUOTA")); reflexivity.
Qed.

(** X27: an error of the library is retried once, whatever it says.  When
    the model throws at the first call and at the retry, the run makes
    these two calls, the retry with the message of [generateStory] for the
    first error in its prompt and with the temperature 0.7, and fails with
    the message for the second error: the safety text when the error
    mentions SAFETY, else the quota text when it mentions QUOTA, else the
    text of the error after a fixed prefix. *)
Theorem thrown_errors_are_retried_once (config : GeminiConfig.t) (sdk : Sdk)
  (request : StoryRequest.t) (first second : option jsstring) :
  let prompt :=
    StoryPrompt.buildStoryPrompt request StoryPrompt.DEFAULT_TEMPLATE in
  let retry := StoryPrompt.buildRetryPrompt request (errorMessage first) in
  sdk (paramsFor config 0) prompt = Threw first ->
  sdk (paramsFor config 1) retry = Threw second ->
  generateStoryWithRetry (generateStory config sdk) request
  = (Generation.mk false None None
       (Some (u "Story generation failed after 2 attempts: "
              ++ errorMessage second)),
     [(prompt, 0); (retry, 1)])
  /\ option_map GenerationConfig.temperature
       (ModelParams.generationConfig (paramsFor config 1)) = Some 0.7%float
  /\ option_map GenerationConfig.temperature
       (ModelParams.generationConfig (paramsFor config 0))
     = Some (GeminiConfig.temperature config).
Proof.
  cbv zeta. intros H0 H1. split; [|split; reflexivity].
  unfold generateStoryWithRetry.
  rewrite RetryFacts.attempts_step. cbn [Nat.eqb]. cbv zeta.
  rewrite (generateStory_threw _ _ _ _ _ H0).
  rewrite RetryFacts.attempts_step. cbn [Nat.eqb]. cbv zeta.
  rewrite (generateStory_threw _ _ _ _ _ H1).
  reflexivity.
Qed.

(** ** The health endpoint *)

(** X28: the health endpoint answers 200 exactly to a GET when the key of
    the generator and the address and key of the database are set and not
    empty, 503 to a GET otherwise and 405 to any other method; the JWT
    secret has no part in it. *)
Theorem health_status (env : Env.t) (method : jsstring) :
  let status := fst (fst (Health.handler env method)) in
  (status = 200
   <-> method = u "GET"
       /\ Env.truthy (Env.GEMINI_API_KEY env) = true
       /\ Env.truthy (Env.SUPABASE_URL env) = true
       /\ Env.truthy (Env.SUPABASE_ANON_KEY env) = true)
  /\ (status = 405 <-> method <> u "GET")
  /\ (status = 200 \/ status = 503 \/ status = 405)
  /\ forall secret,
       Health.handler
         (Env.mk (Env.GEMINI_API_KEY env) (Env.SUPABASE_URL env)
            (Env.SUPABASE_ANON_KEY env) secret) method
       = Health.handler env method.
Proof.
  cbv zeta. unfold Health.handler.
  unfold validateGeminiConfig, validateSupabaseConfig.
  cbn [Env.GEMINI_API_KEY Env.SUPABASE_URL Env.SUPABASE_ANON_KEY forallb].
  pose proof (String_eqb_eq method (u "GET")) as Hm.
  destruct (String_eqb method (u "GET")); cbn [negb fst].
  - assert (E : method = u "GET") by now apply Hm.
    destruct (Env.truthy (Env.GEMINI_API_KEY env)),
             (Env.truthy (Env.SUPABASE_URL env)),
             (Env.truthy (Env.SUPABASE_ANON_KEY env));
      cbn [andb fst];
      (split; [split; [intros H; try discriminate H; now repeat split
                      | intros (_ & H1 & H2 & H3);
                        try discriminate; reflexivity]
              | split; [split; [discriminate | congruence]
                       | split; [tauto | reflexivity]]]).
  - assert (E : method <> u "GET").
    { intros H. apply Hm in H. discriminate H. }
    split; [split; [discriminate | intros [H _]; contradiction]|].
    split; [split; [intros _; exact E | reflexivity]|].
    split; [tauto | reflexivity].
Qed.

(** ** Examples *)

Definition env_ok : Env.t :=
  Env.mk (Some (u "key")) (Some (u "https://db")) (Some (u "anon"))
    (Some (u "secret")).

Definition verify_ok : Verifier :=
  fun token secret =>
    if String_eqb token (u "token") && String_eqb secret (u "secret")
    then Some (AuthPayload.mk (u "user-1") (u "user@example.com") 0 0)
    else None.

Definition sdk_ok : Sdk :=
  fun _ _ => Answered story_of_test_suite None.

Definition world_ok : World.t :=
  World.mk env_ok verify_ok (fun _ => CountAnswer (Some 3)) sdk_ok
    (fun _ _ => true) (fun _ => true)
    (fun _ _ _ => true) (u "story_1") (u "2026-01-01T00:00:00.000Z") 1234.

Definition body_ok : json :=
  JObject [(u "childName", JString (u "Ahmet"));
           (u "age", JNumber 7);
           (u "theme", JString (u "adventure"));
           (u "length", JString (u "short"));
           (u "elements", JArray [JString (u "köpek"); JString (u "orman")])].

Definition bearer : option jsstring := Some (u "Bearer token").

Lemma world_ok_calls_once :
  length (Handled.calls (handler world_ok (u "POST") bearer body_ok)) = 1.
Proof. vm_compute. reflexivity. Qed.

Lemma world_ok_generates :
  Handled.calls (handler world_ok (u "POST") bearer body_ok) <> [].
Proof.
  intros H. pose proof world_ok_calls_once as L. rewrite H in L.
  discriminate L.
Qed.

Lemma generation_is_guarded_witness :
  u "POST" = u "POST"
  /\ exists authPayload storyRequest config,
       authenticateToken (World.verify world_ok) (World.env world_ok) bearer
       = Some authPayload
       /\ validateUserRequest body_ok = Some (true, [])
       /\ storyRequest_of body_ok = Some storyRequest
       /\ SafetyCheckResult.safe (preCheckUserInput (userInput storyRequest))
          = true
       /\ createSupabaseService (World.createClient world_ok)
            (World.env world_ok) = true
       /\ getUserStoryCount
            (World.countStories world_ok (AuthPayload.userId authPayload))
          < 10
       /\ createGeminiClient (World.newGenerativeAI world_ok)
            (World.env world_ok) = Some config
       /\ Handled.calls (handler world_ok (u "POST") bearer body_ok)
          = snd (generateStoryWithRetry
                   (generateStory config (World.sdk world_ok)) storyRequest).
Proof.
  exact (generation_is_guarded world_ok (u "POST") bearer body_ok
           world_ok_generates).
Defined.

Lemma generated_for_clean_input_witness :
  exists storyRequest,
    storyRequest_of body_ok = Some storyRequest
    /\ forall term,
         In term DEFAULT_BLOCKED_TERMS ->
         String_includes
           (toLowerCase (StoryRequest.childName storyRequest)) term = false
         /\ forall element,
              In element
                 (match StoryRequest.elements storyRequest with
                  | Some elements => elements
                  | None => []
                  end) ->
              String_includes (toLowerCase element) term = false.
Proof.
  exact (generated_for_clean_input world_ok (u "POST") bearer body_ok
           world_ok_generates).
Defined.

(** The story and the metadata of a reply, when it has them. *)
Definition storyOf (reply : Reply) : Story.t :=
  match reply with
  | Succeeded story _ => story
  | _ => Story.mk [] [] [] [] ADVENTURE SHORT 0 []
  end.

Definition metadataOf (reply : Reply) : StoryMetadata.t :=
  match reply with
  | Succeeded _ metadata => metadata
  | _ => StoryMetadata.mk 0 [] 0 TR []
  end.

Definition served_story : Story.t :=
  storyOf (Handled.reply (handler world_ok (u "POST") bearer body_ok)).

Definition served_metadata : StoryMetadata.t :=
  metadataOf (Handled.reply (handler world_ok (u "POST") bearer body_ok)).

Lemma world_ok_serves :
  Handled.reply (handler world_ok (u "POST") bearer body_ok)
  = Succeeded served_story served_metadata.
Proof. vm_compute. reflexivity. Qed.

Lemma returned_story_is_stored_and_checked_witness :
  exists authPayload stored,
    authenticateToken (World.verify world_ok) (World.env world_ok) bearer
    = Some authPayload
    /\ Handled.stored (handler world_ok (u "POST") bearer body_ok)
       = [(served_story, AuthPayload.userId authPayload, stored)]
    /\ World.insert world_ok served_story (AuthPayload.userId authPayload)
         stored = true
    /\ StoryMetadata.generationTime stored = 0%float
    /\ StoryMetadata.generationTime served_metadata = World.elapsed world_ok
    /\ Story.id served_story = World.storyId world_ok
    /\ Story.createdAt served_story = World.createdAt world_ok
    /\ get (u "childName") body_ok
       = Some (JString (Story.childName served_story))
    /\ SafetyCheckResult.safe
         (Guard.checkContentSafety (Story.content served_story) DEFAULT_CONFIG)
       = true
    /\ extractBlockedTerms (Story.content served_story) DEFAULT_BLOCKED_TERMS
       = []
    /\ fst (getExpectedWordCountRange (Story.length served_story))
       <= countWords (Story.content served_story)
       <= snd (getExpectedWordCountRange (Story.length served_story)).
Proof.
  exact (returned_story_is_stored_and_checked world_ok (u "POST") bearer
           body_ok served_story served_metadata world_ok_serves).
Defined.

(** The same services without the secret. *)
Definition world_without_secret : World.t :=
  World.mk
    (Env.mk (Some (u "key")) (Some (u "https://db")) (Some (u "anon")) None)
    verify_ok (fun _ => CountAnswer (Some 3)) sdk_ok
    (fun _ _ => true) (fun _ => true)
    (fun _ _ _ => true) (u "story_1") (u "2026-01-01T00:00:00.000Z") 1234.

Lemma secret_is_missing :
  Env.truthy (Env.JWT_SECRET (World.env world_without_secret)) = false.
Proof. reflexivity. Qed.

Lemma no_secret_no_service_witness :
  handler world_without_secret (u "POST") bearer body_ok
  = Handled.mk (Failed 401 (Some (u "Authentication required")) NoDetails)
      [] [].
Proof.
  exact (no_secret_no_service world_without_secret bearer body_ok
           secret_is_missing).
Defined.

(** The same services with 10 stories counted, and a valid body whose
    elements hold an object with a member toString of its own. *)
Definition world_at_limit : World.t :=
  World.mk env_ok verify_ok (fun _ => CountAnswer (Some 10)) sdk_ok
    (fun _ _ => true) (fun _ => true)
    (fun _ _ _ => true) (u "story_1") (u "2026-01-01T00:00:00.000Z") 1234.

Definition body_with_odd_element : json :=
  JObject [(u "childName", JString (u "Ahmet"));
           (u "age", JNumber 7);
           (u "theme", JString (u "adventure"));
           (u "length", JString (u "short"));
           (u "elements", JArray [JObject [(u "toString", JNumber 1)]])].

Lemma world_at_limit_is_healthy :
  fst (fst (Health.handler (World.env world_at_limit) (u "GET"))) = 200.
Proof. vm_compute. reflexivity. Qed.

Lemma odd_element_fails :
  Handled.reply
    (handler world_at_limit (u "POST") bearer body_with_odd_element)
  = internalError.
Proof. vm_compute. reflexivity. Qed.

Lemma internal_error_causes_witness :
  validateUserRequest body_with_odd_element = None
  \/ (validateUserRequest body_with_odd_element = Some (true, [])
      /\ elements_of (get (u "elements") body_with_odd_element) = None)
  \/ (exists url key,
        Env.SUPABASE_URL (World.env world_at_limit) = Some url
        /\ Env.SUPABASE_ANON_KEY (World.env world_at_limit) = Some key
        /\ World.createClient world_at_limit url key = false)
  \/ (exists apiKey,
        Env.GEMINI_API_KEY (World.env world_at_limit) = Some apiKey
        /\ World.newGenerativeAI world_at_limit apiKey = false)
  \/ (exists story userId metadata,
        World.insert world_at_limit story userId metadata = false
        /\ Handled.calls
             (handler world_at_limit (u "POST") bearer body_with_odd_element)
           <> []
        /\ SafetyCheckResult.safe
             (Guard.checkContentSafety (Story.content story) DEFAULT_CONFIG)
           = true).
Proof.
  exact (internal_error_causes world_at_limit (u "POST") bearer
           body_with_odd_element world_at_limit_is_healthy
           odd_element_fails).
Defined.

Lemma Basic_has_no_space : absent 0x20 (u "Basic") = true.
Proof. vm_compute. reflexivity. Qed.

Lemma token_has_no_space : absent 0x20 (u "token") = true.
Proof. vm_compute. reflexivity. Qed.

Lemma token_not_empty : u "token" <> [].
Proof. intros H. vm_compute in H. discriminate H. Qed.

Lemma secret_not_empty : u "secret" <> [].
Proof. intros H. vm_compute in H. discriminate H. Qed.

Lemma scheme_is_not_checked_witness :
  authenticateToken verify_ok env_ok
    (Some (u "Basic" ++ u " " ++ u "token"
           ++ match Some (u "and more") with
              | Some more => u " " ++ more
              | None => []
              end))
  = verify_ok (u "token") (u "secret").
Proof.
  exact (scheme_is_not_checked verify_ok env_ok (u "Basic") (u "token")
           (u "secret") (Some (u "and more")) Basic_has_no_space
           token_has_no_space token_not_empty eq_refl secret_not_empty).
Defined.

(** A model that denies in lower case. *)
Definition sdk_denies : Sdk := fun _ _ => Answered (u "güvenli değil") None.

Lemma denial_is_modelled :
  forallb (fun c => (c <? 0x180)%N) (u "güvenli değil") = true.
Proof. vm_compute. reflexivity. Qed.

Lemma denial_has_no_dotted_I : ~ In 0x130%N (u "güvenli değil").
Proof. vm_compute. intuition discriminate. Qed.

Lemma verdict_without_dotted_I_witness :
  GeminiClient.checkContentSafety sdk_denies []
  = String_includes (toUpperCase (u "güvenli değil")) (u "GÜVENLI").
Proof.
  exact (verdict_without_dotted_I sdk_denies [] (u "güvenli değil") None
           eq_refl denial_is_modelled denial_has_no_dotted_I).
Defined.

(** A model that is out of quota. *)
Definition sdk_out_of_quota : Sdk :=
  fun _ _ => Threw (Some (u "429 QUOTA exceeded")).

Definition config_ok : GeminiConfig.t :=
  GeminiConfig.mk (u "key") (u "gemini-pro") 0.9 1024.

Lemma thrown_errors_are_retried_once_witness :
  generateStoryWithRetry (generateStory config_ok sdk_out_of_quota)
    (PromptFacts.scenarioRequest [])
  = (Generation.mk false None None
       (Some (u "Story generation failed after 2 attempts: "
              ++ errorMessage (Some (u "429 QUOTA exceeded")))),
     [(StoryPrompt.buildStoryPrompt (PromptFacts.scenarioRequest [])
         StoryPrompt.DEFAULT_TEMPLATE, 0);
      (StoryPrompt.buildRetryPrompt (PromptFacts.scenarioRequest [])
         (errorMessage (Some (u "429 QUOTA exceeded"))), 1)])
  /\ option_map GenerationConfig.temperature
       (ModelParams.generationConfig (paramsFor config_ok 1))
     = Some 0.7%float
  /\ option_map GenerationConfig.temperature
       (ModelParams.generationConfig (paramsFor config_ok 0))
     = Some (GeminiConfig.temperature config_ok).
Proof.
  exact (thrown_errors_are_retried_once config_ok sdk_out_of_quota
           (PromptFacts.scenarioRequest []) (Some (u "429 QUOTA exceeded"))
           (Some (u "429 QUOTA exceeded")) eq_refl eq_refl).
Defined.

End HandlerFacts.
